(** * dig-text-similarity-search: the query path and the index builders

    A shallow embedding of

    - [dt_sim/processor/query_processor.py]      (module [QueryProcessor]),
    - [dt_sim_api/processor/query_processor.py]  (module [ApiQueryProcessor]),
    - [dt_sim/indexer/ivf_index_handlers.py]     (modules [DateSeed],
                                                  [DeployShards], [RangeShards]),
    - [dt_sim/indexer/index_builder.py]          (module [OnDiskIVFBuilder]),
    - [digtextsimilaritysearch/indexer/IVF_disk_index_handler.py]
                                                 (module [DiskBuilderIVF]),

    with the Python built-ins they use (module [Py]) and the faiss objects
    the builders work on (module [Faiss]); then the vocabulary of the
    properties (module [Predicates]) and concrete scenarios (module
    [Scenario]); then the properties themselves.

    Python values are modelled as follows.

    - [np.float32] / [float] distances: the rational they denote ([Q]).
      The code only compares them and takes [max]; both are exact on
      floats.  NaN is not modelled.  How Python prints a float is a
      parameter, [str_float].
    - [np.int64] / [int] vector ids: [Z] (no id used here gets near 2^63).
    - [str]: [string], compared by code point like Python does.
    - [dict]: an association list in insertion order (Python dicts keep it
      and the code iterates over them).
    - exceptions: the [result] type; [print]: a list of lines.
    - the memoising decorator [faiss_cache] and the helpers of
      [base_indexer] are not in the sources: the bodies of the decorated
      functions are modelled, and [joint_sort] is a parameter. *)

From Stdlib Require Import Bool List String Ascii ZArith QArith Lia.
From Stdlib Require Import Permutation Sorted DecimalString DecimalZ.
From Stdlib Require OrderedTypeEx.
Import ListNotations.

Local Open Scope string_scope.
Local Open Scope Z_scope.
Local Open Scope list_scope.

(** ** Python built-ins used by the sources *)

Module Py.

(** Exceptions the modelled code can raise. *)
Inductive exn : Type :=
| IndexError
| ValueError
| KeyError
| AttributeError
| AssertionError
| RuntimeError
| Exception (msg : string).

Inductive result (A : Type) : Type :=
| Ok (a : A)
| Raise (e : exn).
Arguments Ok {A} a.
Arguments Raise {A} e.

Definition bind {A B} (r : result A) (k : A -> result B) : result B :=
  match r with
  | Ok a => k a
  | Raise e => Raise e
  end.

Notation "x <- r ;; k" := (bind r (fun x => k))
  (at level 61, r at next level, right associativity).
Notation "' p <- r ;; k" := (bind r (fun p => k))
  (at level 61, p pattern, r at next level, right associativity).

(** [for x in l: ...] with a body that may raise, building a list. *)
Fixpoint mapM {A B} (f : A -> result B) (l : list A) : result (list B) :=
  match l with
  | [] => Ok []
  | x :: xs => y <- f x ;; ys <- mapM f xs ;; Ok (y :: ys)
  end.

(** Floats. *)
Definition float : Type := Q.

(** [a > b] on floats. *)
Definition float_gt (a b : float) : bool := negb (Qle_bool a b).

(** [max(a, b)]: the first of the largest arguments. *)
Definition max (a b : float) : float := if float_gt b a then b else a.

(** [str(n)] for an integer. *)
Definition str_int (n : Z) : string := NilZero.string_of_int (Z.to_int n).

(** [int(s)] for a string; [ValueError] when [s] is no decimal numeral. *)
Definition int (s : string) : result Z :=
  match NilZero.int_of_string s with
  | Some d => Ok (Z.of_int d)
  | None => Raise ValueError
  end.

(** [l[0]]. *)
Definition item0 {A} (l : list A) : result A :=
  match l with
  | x :: _ => Ok x
  | [] => Raise IndexError
  end.

(** [l[:k]]: a negative [k] counts from the end. *)
Definition slice_to {A} (l : list A) (k : Z) : list A :=
  if 0 <=? k then firstn (Z.to_nat k) l
  else firstn (List.length l - Z.to_nat (- k)) l.

(** [zip(a, b)]. *)
Definition zip {A B} (a : list A) (b : list B) : list (A * B) := combine a b.

(** [sorted(l, key=key)] with string keys.  Python's sort is stable; a
    stable sort is determined by its input, so stable insertion gives the
    same list. *)
Fixpoint insert_by {A} (key : A -> string) (x : A) (l : list A) : list A :=
  match l with
  | [] => [x]
  | y :: ys =>
      if String.leb (key x) (key y) then x :: y :: ys
      else y :: insert_by key x ys
  end.

Fixpoint sorted_by {A} (key : A -> string) (l : list A) : list A :=
  match l with
  | [] => []
  | x :: xs => insert_by key x (sorted_by key xs)
  end.

(** [sorted(l)] on strings. *)
Definition sorted (l : list string) : list string := sorted_by (fun s => s) l.

(** [min(l)] on strings: the first of the smallest; [ValueError] on []. *)
Fixpoint min_from (m : string) (l : list string) : string :=
  match l with
  | [] => m
  | x :: xs => min_from (if String.ltb x m then x else m) xs
  end.

Definition min (l : list string) : result string :=
  match l with
  | [] => Raise ValueError
  | x :: xs => Ok (min_from x xs)
  end.

(** [s.endswith(suffix)]. *)
Definition endswith (s suffix : string) : bool :=
  let n := String.length s in
  let m := String.length suffix in
  (m <=? n)%nat && String.eqb (substring (n - m) m s) suffix.

(** [s.replace(old, '')] for a non-empty [old]: every occurrence of [old],
    scanning from the left, is removed.  [skip] counts the characters of
    a match that are still to be dropped. *)
Fixpoint remove_from (old : string) (skip : nat) (s : string) : string :=
  match s with
  | EmptyString => EmptyString
  | String c s' =>
      match skip with
      | S n => remove_from old n s'
      | O =>
          if prefix old s then remove_from old (String.length old - 1) s'
          else String c (remove_from old O s')
      end
  end.

Definition remove_all (old s : string) : string := remove_from old O s.

(** [needle in s] on strings. *)
Fixpoint contains (needle s : string) : bool :=
  prefix needle s ||
  match s with
  | EmptyString => false
  | String _ s' => contains needle s'
  end.

(** Dictionaries: association lists in insertion order. *)
Definition dict (V : Type) : Type := list (string * V).

Fixpoint dict_get {V} (d : dict V) (k : string) : option V :=
  match d with
  | [] => None
  | (k', v) :: rest => if String.eqb k' k then Some v else dict_get rest k
  end.

(** [k in d]. *)
Definition dict_mem {V} (d : dict V) (k : string) : bool :=
  match dict_get d k with
  | Some _ => true
  | None => false
  end.

(** [d[k] = v]: in place when [k] is a key, else a new last entry. *)
Fixpoint dict_set {V} (d : dict V) (k : string) (v : V) : dict V :=
  match d with
  | [] => [(k, v)]
  | (k', v') :: rest =>
      if String.eqb k' k then (k', v) :: rest
      else (k', v') :: dict_set rest k v
  end.

(** [x in l] on a list of strings. *)
Definition list_mem (x : string) (l : list string) : bool :=
  existsb (String.eqb x) l.

End Py.

(** ** dt_sim/processor/query_processor.py *)

Module QueryProcessor.
Import Py.

Definition DiffScores : Type := list (list float).
Definition VectorIDs : Type := list (list Z).
Definition FaissSearch : Type := (DiffScores * VectorIDs)%type.
(** [(str(score), str(faiss_id))] pairs. *)
Definition rawScoreIDs : Type := list (string * string).
Definition DocPayload : Type := dict rawScoreIDs.

(** The two shapes of payload record the formatters build. *)
Inductive DocHit : Type :=
| DocRecord (doc_id : string) (id_score_tups : list (string * string))
    (score : string)
| SingleRecord (doc_id : string) (score : string) (sentence_id : string).

Definition SortedScoresIDs : Type := list DocHit.

(** [doc_hit['score']] *)
Definition hit_score (h : DocHit) : string :=
  match h with
  | DocRecord _ _ score => score
  | SingleRecord _ score _ => score
  end.

(** [doc_hit['doc_id']] *)
Definition hit_doc_id (h : DocHit) : string :=
  match h with
  | DocRecord doc_id _ _ => doc_id
  | SingleRecord doc_id _ _ => doc_id
  end.

(** The vector ids a record carries, as the strings it holds. *)
Definition hit_ids (h : DocHit) : list string :=
  match h with
  | DocRecord _ id_score_tups _ => map fst id_score_tups
  | SingleRecord _ _ sentence_id => [sentence_id]
  end.

(** [pickle.dumps] of a list of strings.  Pickling is deterministic and
    can be undone, so two such lists have the same pickle exactly when
    they are equal; the list itself stands for its pickle. *)
Definition phash (l : list string) : list string := l.

Definition hash_mem (h : list string) (seen : list (list string)) : bool :=
  existsb (fun h' => if list_eq_dec string_dec h h' then true else false) seen.

Section Processor.

(** [str(x)] for a float: the decimal rendering Python prints. *)
Variable str_float : float -> string.

Definition min_diff_cutoff (diff_score : float) : string :=
  str_float (Py.max diff_score (1 # 100)).

(** [all(sc_ids[i][0] <= sc_ids[i+1][0] for i in range(len(sc_ids)-1))] *)
Fixpoint already_sorted (sc_ids : rawScoreIDs) : bool :=
  match sc_ids with
  | a :: (b :: _) as rest => String.leb (fst a) (fst b) && already_sorted rest
  | _ => true
  end.

Definition sort_score_ids (sc_ids : rawScoreIDs) : rawScoreIDs :=
  if negb (already_sorted sc_ids) then sorted_by fst sc_ids else sc_ids.

(** One turn of the loop over [zip(scores[0], faiss_ids[0])]. *)
Definition add_hit (docs : DocPayload) (hit : float * Z) : DocPayload :=
  let '(score, faiss_id) := hit in
  if 0 <? faiss_id then
    let doc_id := str_int (faiss_id / 10000) in
    let docs1 := if negb (dict_mem docs doc_id) then dict_set docs doc_id []
                 else docs in
    match dict_get docs1 doc_id with
    | Some hits =>
        dict_set docs1 doc_id (hits ++ [(min_diff_cutoff score, str_int faiss_id)])
    | None => docs1
    end
  else docs.

Definition collect_docs (scores0 : list float) (ids0 : list Z) : DocPayload :=
  fold_left add_hit (zip scores0 ids0) [].

(** One turn of the loop that keeps the first document of every score
    profile; the state is [(doc_hits, unique_doc_scores)]. *)
Definition keep_unique (acc : DocPayload * list (list string))
    (entry : string * rawScoreIDs) : DocPayload * list (list string) :=
  let '(doc_hits, unique_doc_scores) := acc in
  let '(doc_id, score_ids) := entry in
  let doc_score_hash := phash (sorted (map fst score_ids)) in
  if negb (hash_mem doc_score_hash unique_doc_scores) then
    (dict_set doc_hits doc_id (sort_score_ids score_ids),
     doc_score_hash :: unique_doc_scores)
  else acc.

Definition keep_all (doc_hits : DocPayload) (entry : string * rawScoreIDs)
  : DocPayload :=
  let '(doc_id, score_ids) := entry in
  dict_set doc_hits doc_id (sort_score_ids score_ids).

Definition aggregate_docs (scores : DiffScores) (faiss_ids : VectorIDs)
    (require_unique_score : bool) : result DocPayload :=
  scores0 <- item0 scores ;;
  ids0 <- item0 faiss_ids ;;
  let docs := collect_docs scores0 ids0 in
  if require_unique_score then Ok (fst (fold_left keep_unique docs ([], [])))
  else Ok (fold_left keep_all docs []).

Definition doc_record (entry : string * rawScoreIDs) : result DocHit :=
  let '(doc_id, score_ids) := entry in
  score <- Py.min (map fst score_ids) ;;
  Ok (DocRecord doc_id (map (fun '(diff, fid) => (fid, diff)) score_ids) score).

Definition format_payload_docs (doc_hits : DocPayload) : result SortedScoresIDs :=
  payload <- mapM doc_record doc_hits ;;
  Ok (sorted_by hit_score payload).

Definition single_record (entry : string * rawScoreIDs) : result DocHit :=
  let '(doc_id, score_ids) := entry in
  ' (diff_score, faiss_id) <- item0 score_ids ;;
  Ok (SingleRecord doc_id diff_score faiss_id).

Definition format_payload_singles (doc_hits : DocPayload)
  : result SortedScoresIDs :=
  payload <- mapM single_record doc_hits ;;
  Ok (sorted_by hit_score payload).

(** The collaborators a processor is built with: the vectorizer's
    [make_vectors] and the index handler with its [search]. *)
Variable QueryVector : Type.
Variable make_vectors : list string -> result QueryVector.
Variable Indexer : Type.
Variable indexer_search :
  Indexer -> QueryVector -> Z -> float -> string -> string ->
  result FaissSearch * Indexer.

Record processor : Type := {
  indexer : Indexer;
  n_queries : nat
}.

(** [vectorize] for a single query string. *)
Definition vectorize (query : string) : result QueryVector :=
  make_vectors [query].

(** The body of [query_corpus]; the timing and printing are left out. *)
Definition query_corpus (self : processor) (query_str : string) (k : Z)
    (radius : float) (start end_ : string) (rerank_by_doc : bool)
  : result SortedScoresIDs * processor :=
  match vectorize query_str with
  | Raise e => (Raise e, self)
  | Ok query_vector =>
      let '(found, ix) :=
        indexer_search (indexer self) query_vector k radius start end_ in
      let self1 := {| indexer := ix; n_queries := n_queries self |} in
      match
        ' (scores, faiss_ids) <- found ;;
        doc_hits <- aggregate_docs scores faiss_ids true ;;
        if rerank_by_doc then format_payload_docs doc_hits
        else format_payload_singles doc_hits
      with
      | Raise e => (Raise e, self1)
      | Ok similar_docs =>
          (Ok (slice_to similar_docs k),
           {| indexer := ix; n_queries := S (n_queries self) |})
      end
  end.

End Processor.

Arguments indexer {Indexer} p.
Arguments n_queries {Indexer} p.
Arguments Build_processor {Indexer}.
Arguments vectorize {QueryVector} make_vectors query.
Arguments query_corpus str_float {QueryVector} make_vectors {Indexer}
  indexer_search self query_str k radius start end_ rerank_by_doc.

End QueryProcessor.

(** ** dt_sim_api/processor/query_processor.py *)

Module ApiQueryProcessor.
Import Py.

(** Here the hits keep their float score and integer id. *)
Definition DocHits : Type := dict (list (float * Z)).

(** A payload record: [{'score': ..., 'sentence_id': ...}]. *)
Record Hit : Type := {
  score : string;
  sentence_id : string
}.

Definition min_diff_cutoff (diff_score : float) : float :=
  Py.max diff_score (1 # 10).

Definition add_hit (docs : DocHits) (hit : float * Z) : DocHits :=
  let '(score, faiss_id) := hit in
  let doc_id := str_int (faiss_id / 10000) in
  let docs1 := if negb (dict_mem docs doc_id) then dict_set docs doc_id []
               else docs in
  match dict_get docs1 doc_id with
  | Some hits => dict_set docs1 doc_id (hits ++ [(min_diff_cutoff score, faiss_id)])
  | None => docs1
  end.

Definition aggregate_docs (scores : list (list float))
    (faiss_ids : list (list Z)) : result DocHits :=
  scores0 <- item0 scores ;;
  ids0 <- item0 faiss_ids ;;
  Ok (fold_left add_hit (zip scores0 ids0) []).

Section Processor.

Variable str_float : float -> string.

Definition doc_records (entry : string * list (float * Z)) : result (list Hit) :=
  let '(doc_id, faiss_diff_ids) := entry in
  n <- Py.int doc_id ;;
  if 0 <? n then
    Ok (map (fun '(faiss_diff, faiss_id) =>
               {| score := str_float faiss_diff;
                  sentence_id := str_int faiss_id |}) faiss_diff_ids)
  else Ok [].

Definition format_payload (doc_hits : DocHits) : result (list Hit) :=
  groups <- mapM doc_records doc_hits ;;
  Ok (sorted_by score (List.concat groups)).

End Processor.

End ApiQueryProcessor.

(** ** dt_sim/indexer/ivf_index_handlers.py *)

(** [re.search('\d{4}[-/]\d{2}[-/]\d{2}', s)]: the leftmost match, if any.
    [\d] is taken to be an ASCII digit. *)
Module DateSeed.

Definition is_digit (c : ascii) : bool :=
  let n := nat_of_ascii c in (48 <=? n)%nat && (n <=? 57)%nat.

Definition is_sep (c : ascii) : bool :=
  Ascii.eqb c "-" || Ascii.eqb c "/".

(** A match that starts at the first character of [s]. *)
Definition match_here (s : string) : option string :=
  match s with
  | String y1 (String y2 (String y3 (String y4 (String s1
      (String m1 (String m2 (String s2 (String d1 (String d2 _))))))))) =>
      if is_digit y1 && is_digit y2 && is_digit y3 && is_digit y4
         && is_sep s1 && is_digit m1 && is_digit m2
         && is_sep s2 && is_digit d1 && is_digit d2
      then Some (substring 0 10 s)
      else None
  | _ => None
  end.

Fixpoint search (s : string) : option string :=
  match match_here s with
  | Some d => Some d
  | None =>
      match s with
      | EmptyString => None
      | String _ s' => search s'
      end
  end.

End DateSeed.

Module DeployShards.
Import Py.

Section Handler.

Variable Index : Type.
Variable read_index : string -> option Index.
Variable read_index_ondisk : string -> option Index.

(** A loaded shard: the index with the [nprobe] set on it. *)
Definition Shard : Type := (Index * Z)%type.

Record handler : Type := {
  paths_to_shards : list string;
  nprobe : Z;
  index : list Shard          (* the shards of the [faiss.IndexShards] *)
}.

Definition load_shard (path_to_shard : string) (nprobe : Z) : result Shard :=
  match read_index path_to_shard with
  | Some shard => Ok (shard, nprobe)
  | None =>
      match read_index_ondisk path_to_shard with
      | Some shard => Ok (shard, nprobe)
      | None => Raise RuntimeError
      end
  end.

Definition already_online : list string :=
  ["WARNING: This shard is already online "; "         Aborting..."].

(** [add_shard]: what it returns or raises, the handler afterwards, and
    the lines it printed. *)
Definition add_shard (self : handler) (new_shard_path : string)
  : result unit * handler * list string :=
  if list_mem new_shard_path (paths_to_shards self) then
    (Ok tt, self, already_online)
  else
    let self1 := {| paths_to_shards := paths_to_shards self ++ [new_shard_path];
                    nprobe := nprobe self;
                    index := index self |} in
    match load_shard new_shard_path (nprobe self) with
    | Raise e => (Raise e, self1, [])
    | Ok shard =>
        (Ok tt,
         {| paths_to_shards := paths_to_shards self1;
            nprobe := nprobe self1;
            index := index self1 ++ [shard] |},
         [])
    end.

End Handler.

Arguments paths_to_shards {Index} h.
Arguments nprobe {Index} h.
Arguments index {Index} h.
Arguments Build_handler {Index}.
Arguments load_shard {Index} read_index read_index_ondisk path_to_shard nprobe.
Arguments add_shard {Index} read_index read_index_ondisk self new_shard_path.

End DeployShards.

Module RangeShards.
Import Py.

Section Handler.

Variable Index : Type.
Variable QueryVector : Type.
Variable read_index : string -> option Index.
Variable read_index_ondisk : string -> option Index.
(** [index.range_search(query, radius)] with the index's [nprobe]: the
    distances and the ids found, in the order faiss returns them. *)
Variable range_search : Index -> Z -> QueryVector -> float -> list float * list Z.
(** The first lines of [search] bring the query to shape [1 x D]. *)
Variable reshape : QueryVector -> QueryVector.
(** [BaseIndexer.joint_sort]. *)
Variable joint_sort :
  list (list float) -> list (list Z) -> list (list float) * list (list Z).

(** The search worker ([class Shard]): its process name, its index and
    the [nprobe] set on it.  Its input pipe holds a message only between
    the handler's [send] and the [run] that follows, and its output is
    the handler's [results] queue. *)
Record Shard : Type := {
  name : string;
  shard_index : Index;
  shard_nprobe : Z
}.

Record handler : Type := {
  paths_to_shards : list string;
  nprobe : Z;
  dynamic : bool;
  lock : bool;
  results : list (list float * list Z);   (* the [Queue] *)
  shards : dict Shard;
  n_shards : nat
}.

(** [Shard.__init__] *)
Definition new_shard (shard_name shard_path : string) (nprobe : Z)
  : result Shard :=
  match read_index shard_path with
  | Some ix => Ok {| name := shard_name; shard_index := ix; shard_nprobe := nprobe |}
  | None =>
      match read_index_ondisk shard_path with
      | Some ix =>
          Ok {| name := shard_name; shard_index := ix; shard_nprobe := nprobe |}
      | None => Raise RuntimeError
      end
  end.

(** [Shard.run] on the message [(query_vector, radius_limit)] just sent:
    the result is put on the queue. *)
Definition run (shard : Shard) (msg : QueryVector * float)
    (queue : list (list float * list Z)) : list (list float * list Z) :=
  let '(query_vector, radius_limit) := msg in
  queue ++ [range_search (shard_index shard) (shard_nprobe shard)
              query_vector radius_limit].

Definition set_lock (self : handler) (b : bool) : handler :=
  {| paths_to_shards := paths_to_shards self; nprobe := nprobe self;
     dynamic := dynamic self; lock := b; results := results self;
     shards := shards self; n_shards := n_shards self |}.

Definition set_results (self : handler) (q : list (list float * list Z))
  : handler :=
  {| paths_to_shards := paths_to_shards self; nprobe := nprobe self;
     dynamic := dynamic self; lock := lock self; results := q;
     shards := shards self; n_shards := n_shards self |}.

(** The state of the dispatch loop: the queue, [n_results], and the names
    of the shards a range search was sent to, in order. *)
Record dispatch : Type := {
  queue : list (list float * list Z);
  n_results : Z;
  sent : list string
}.

(** The loop [for shard_name, (hpipe, shard) in self.shards.items()].  A
    name without a date makes [re.search(...)] return [None], and
    [.group()] on it raises [AttributeError]. *)
Fixpoint start_search (entries : list (string * Shard))
    (query_vector : QueryVector) (radius : float) (start end_ : string)
    (st : dispatch) : dispatch * option exn :=
  match entries with
  | [] => (st, None)
  | (shard_name, shard) :: rest =>
      match DateSeed.search shard_name with
      | None => (st, Some AttributeError)
      | Some shard_date =>
          if String.leb start shard_date && String.leb shard_date end_ then
            start_search rest query_vector radius start end_
              {| queue := run shard (query_vector, radius) (queue st);
                 n_results := n_results st + 1;
                 sent := sent st ++ [shard_name] |}
          else start_search rest query_vector radius start end_ st
      end
  end.

(** The loop [while n_results > 0 or not self.results.empty()]: [None]
    when [get()] would wait on an empty queue for ever. *)
Fixpoint aggregate (queue : list (list float * list Z)) (n_results : Z)
    (k : Z) (D : list float) (I_ : list Z) : option (list float * list Z) :=
  match queue with
  | [] => if 0 <? n_results then None else Some (D, I_)
  | (dd, ii) :: rest =>
      aggregate rest (n_results - 1) k (D ++ slice_to dd k) (I_ ++ slice_to ii k)
  end.

(** How a call of [search] ends. *)
Inductive ending : Type :=
| Returned (found : list (list float) * list (list Z))
| Raised (e : exn)
| Waits.                   (* spins on the lock, or waits on the queue *)

Record search_run : Type := {
  ended : ending;
  after : handler;
  dispatched : list string;                (* shards sent a range search *)
  retained : list float * list Z           (* [D] and [I] when it returns *)
}.

(** The body of [search] (its memoising decorator is left out). *)
Definition search (self : handler) (query_vector : QueryVector) (k : Z)
    (radius : float) (start end_ : string) : search_run :=
  let query_vector := reshape query_vector in
  if lock self then
    {| ended := Waits; after := self; dispatched := []; retained := ([], []) |}
  else
    let self1 := set_lock self true in
    let '(st, raised) :=
      start_search (shards self1) query_vector radius start end_
        {| queue := results self1; n_results := 0; sent := [] |} in
    match raised with
    | Some e =>
        {| ended := Raised e; after := set_results self1 (queue st);
           dispatched := sent st; retained := ([], []) |}
    | None =>
        match aggregate (queue st) (n_results st) k [] [] with
        | None =>
            {| ended := Waits; after := set_results self1 [];
               dispatched := sent st; retained := ([], []) |}
        | Some (D, I_) =>
            {| ended := Returned (joint_sort [D] [I_]);
               after := set_lock (set_results self1 []) false;
               dispatched := sent st; retained := (D, I_) |}
        end
    end.

Definition shard_name_of (shard_path : string) : string :=
  remove_all ".index" shard_path.

Definition load_shard (self : handler) (shard_path : string)
  : result unit * handler :=
  let shard_name := shard_name_of shard_path in
  match new_shard shard_name shard_path (nprobe self) with
  | Raise e => (Raise e, self)
  | Ok shard =>
      (Ok tt,
       {| paths_to_shards := paths_to_shards self; nprobe := nprobe self;
          dynamic := dynamic self; lock := lock self; results := results self;
          shards := dict_set (shards self) shard_name shard;
          n_shards := n_shards self |})
  end.

Definition already_online : list string :=
  ["WARNING: This shard is already online "; "         Aborting..."].

(** [add_shard]: what it returns or raises, the handler afterwards, and
    the lines it printed. *)
Definition add_shard (self : handler) (new_shard_path : string)
  : result unit * handler * list string :=
  let self1 := set_lock self true in
  let shard_name := shard_name_of new_shard_path in
  if list_mem new_shard_path (paths_to_shards self1)
     || dict_mem (shards self1) shard_name then
    (Ok tt, set_lock self1 false, already_online)
  else
    let self2 :=
      {| paths_to_shards := paths_to_shards self1 ++ [new_shard_path];
         nprobe := nprobe self1; dynamic := dynamic self1; lock := lock self1;
         results := results self1; shards := shards self1;
         n_shards := n_shards self1 |} in
    match load_shard self2 new_shard_path with
    | (Raise e, self3) => (Raise e, self3, [])
    | (Ok _, self3) => (Ok tt, set_lock self3 false, [])
    end.

(** [__init__] on the index paths found in [shard_dir]. *)
Fixpoint load_shards (self : handler) (paths : list string)
  : result unit * handler :=
  match paths with
  | [] => (Ok tt, self)
  | shard_path :: rest =>
      match load_shard self shard_path with
      | (Raise e, self1) => (Raise e, self1)
      | (Ok _, self1) => load_shards self1 rest
      end
  end.

Definition init (index_paths : list string) (nprobe : Z) : result handler :=
  let self :=
    {| paths_to_shards := index_paths; nprobe := nprobe; dynamic := true;
       lock := false; results := []; shards := []; n_shards := 0 |} in
  match load_shards self index_paths with
  | (Raise e, _) => Raise e
  | (Ok _, self1) =>
      Ok {| paths_to_shards := paths_to_shards self1; nprobe := nprobe;
            dynamic := dynamic self1; lock := lock self1;
            results := results self1; shards := shards self1;
            n_shards := List.length (shards self1) |}
  end.

End Handler.

Arguments name {Index} s.
Arguments shard_index {Index} s.
Arguments shard_nprobe {Index} s.
Arguments Build_Shard {Index}.
Arguments paths_to_shards {Index} h.
Arguments nprobe {Index} h.
Arguments dynamic {Index} h.
Arguments lock {Index} h.
Arguments results {Index} h.
Arguments shards {Index} h.
Arguments n_shards {Index} h.
Arguments Build_handler {Index}.
Arguments ended {Index} s.
Arguments after {Index} s.
Arguments dispatched {Index} s.
Arguments retained {Index} s.
Arguments new_shard {Index} read_index read_index_ondisk shard_name shard_path
  nprobe.
Arguments run {Index QueryVector} range_search shard msg queue.
Arguments set_lock {Index} self b.
Arguments set_results {Index} self q.
Arguments start_search {Index QueryVector} range_search entries query_vector
  radius start end_ st.
Arguments search {Index QueryVector} range_search reshape joint_sort self
  query_vector k radius start end_.
Arguments load_shard {Index} read_index read_index_ondisk self shard_path.
Arguments add_shard {Index} read_index read_index_ondisk self new_shard_path.
Arguments load_shards {Index} read_index read_index_ondisk self paths.
Arguments init {Index} read_index read_index_ondisk index_paths nprobe.

End RangeShards.

(** ** The faiss objects the builders work on *)

Module Faiss.
Import Py.

Section Lib.

(** A compressed residual of [code_size] bytes, and an embedding. *)
Variable Code : Type.
Variable Vector : Type.

(** A posting list: [(code, id)] entries in insertion order. *)
Definition posting_list : Type := list (Code * Z).

Record InvertedLists : Type := {
  il_nlist : nat;
  il_code_size : nat;
  il_lists : list posting_list
}.

Record Index : Type := {
  is_trained : bool;
  ntotal : Z;
  nlist : nat;
  code_size : nat;
  invlists : InvertedLists
}.

(** Files: an [.index] file holds an index, an [.ivfdata] file the
    posting lists of an on-disk store. *)
Inductive file : Type :=
| IndexFile (ix : Index)
| DataFile (payload : list posting_list).

Definition filesystem : Type := dict file.

(** [os.path.isfile] *)
Definition isfile (fs : filesystem) (path : string) : bool := dict_mem fs path.

(** [faiss.read_index]: a [RuntimeError] when there is no index at [path]. *)
Definition read_index (fs : filesystem) (path : string) : result Index :=
  match dict_get fs path with
  | Some (IndexFile ix) => Ok ix
  | _ => Raise RuntimeError
  end.

(** [faiss.write_index] *)
Definition write_index (fs : filesystem) (ix : Index) (path : string)
  : filesystem :=
  dict_set fs path (IndexFile ix).

(** The posting list of centroid [c]. *)
Definition list_at (il : InvertedLists) (c : nat) : posting_list :=
  nth c (il_lists il) [].

(** All entries of a store, list after list. *)
Definition entries (il : InvertedLists) : list (Code * Z) :=
  List.concat (il_lists il).

(** The sum of the posting-list lengths. *)
Definition total_length (lists : list posting_list) : Z :=
  fold_right (fun l n => Z.of_nat (List.length l) + n) 0 lists.

(** A store has exactly [nlist] posting lists. *)
Definition well_formed (il : InvertedLists) : Prop :=
  List.length (il_lists il) = il_nlist il.

(** Modelled from the spec: [create_ondisk(nlist, code_size, path)] of
    the inverted-list store (faiss's [OnDiskInvertedLists], not part of
    the sources): the directory is pre-allocated with [nlist] empty lists. *)
Definition OnDiskInvertedLists (nlist code_size : nat) : InvertedLists :=
  {| il_nlist := nlist; il_code_size := code_size;
     il_lists := repeat [] nlist |}.

Definition same_shape (store src : InvertedLists) : bool :=
  Nat.eqb (il_nlist src) (il_nlist store)
  && Nat.eqb (il_code_size src) (il_code_size store).

(** Modelled from the spec: [merge_from(sources)] of the inverted-list
    store (faiss's [OnDiskInvertedLists.merge_from], not part of the
    sources).  For each centroid [c] and each source [s], in source order,
    [s.list(c)] is appended to [store.list(c)]; the total entry count of
    the sources is returned.  It fails when a source's centroid count or
    code size disagrees with the destination. *)
Definition merge_from (store : InvertedLists) (sources : list InvertedLists)
  : result (InvertedLists * Z) :=
  if forallb (same_shape store) sources then
    Ok ({| il_nlist := il_nlist store;
           il_code_size := il_code_size store;
           il_lists :=
             map (fun c =>
                    list_at store c
                    ++ List.concat (map (fun s => list_at s c) sources))
                 (seq 0 (il_nlist store)) |},
        fold_right
          (fun s n =>
             total_length (map (list_at s) (seq 0 (il_nlist store))) + n)
          0 sources)
  else Raise RuntimeError.

(** The coarse quantizer (nearest centroid) and the encoder. *)
Variable assign : Vector -> nat.
Variable encode : Vector -> Code.

Fixpoint append_at (lists : list posting_list) (c : nat) (e : Code * Z)
  : list posting_list :=
  match lists, c with
  | [], _ => []
  | l :: rest, O => (l ++ [e]) :: rest
  | l :: rest, S c' => l :: append_at rest c' e
  end.

(** Modelled from the spec: [add_with_ids] (faiss, not part of the
    sources) appends every [(vector, id)] pair to the posting list of the
    vector's centroid and counts it in [ntotal]. *)
Definition add_with_ids (ix : Index) (embeddings : list Vector)
    (faiss_ids : list Z) : Index :=
  fold_left
    (fun ix '(v, fid) =>
       {| is_trained := is_trained ix;
          ntotal := ntotal ix + 1;
          nlist := nlist ix;
          code_size := code_size ix;
          invlists :=
            {| il_nlist := il_nlist (invlists ix);
               il_code_size := il_code_size (invlists ix);
               il_lists := append_at (il_lists (invlists ix)) (assign v)
                             (encode v, fid) |} |})
    (zip embeddings faiss_ids) ix.

End Lib.

Arguments il_nlist {Code} i.
Arguments il_code_size {Code} i.
Arguments il_lists {Code} i.
Arguments Build_InvertedLists {Code}.
Arguments is_trained {Code} i.
Arguments ntotal {Code} i.
Arguments nlist {Code} i.
Arguments code_size {Code} i.
Arguments invlists {Code} i.
Arguments Build_Index {Code}.
Arguments IndexFile {Code} ix.
Arguments DataFile {Code} payload.
Arguments isfile {Code} fs path.
Arguments read_index {Code} fs path.
Arguments write_index {Code} fs ix path.
Arguments list_at {Code} il c.
Arguments entries {Code} il.
Arguments total_length {Code} lists.
Arguments well_formed {Code} il.
Arguments same_shape {Code} store src.
Arguments merge_from {Code} store sources.
Arguments append_at {Code} lists c e.
Arguments add_with_ids {Code Vector} assign encode ix embeddings faiss_ids.

End Faiss.

(** ** dt_sim/indexer/index_builder.py *)

Module OnDiskIVFBuilder.
Import Py.

Section Builder.

Variable Code : Type.
Variable Vector : Type.
Variable assign : Vector -> nat.
Variable encode : Vector -> Code.

(** Whether [faiss.write_index] can write a path: it raises where the
    directory is missing or cannot be written. *)
Variable writable : string -> bool.

#[local] Abbreviation Index := (Faiss.Index Code).
#[local] Abbreviation InvertedLists := (Faiss.InvertedLists Code).
#[local] Abbreviation filesystem := (Faiss.filesystem Code).

Record builder : Type := {
  path_to_base_index : string;
  subindex_path_totals : dict Z
}.

(** [index_path_clear]: its answer and the line it printed, if any. *)
Definition index_path_clear (fs : filesystem) (index_path file_suffix : string)
  : bool * list string :=
  if negb (Faiss.isfile fs index_path) && endswith index_path file_suffix then
    (true, [])
  else if Faiss.isfile fs index_path && endswith index_path file_suffix then
    (false, [("Index already exists: " ++ index_path)%string])
  else if negb (endswith index_path file_suffix) then
    (false, [("Invalid index filename: " ++ index_path)%string])
  else
    (false, [("Unexpected index path given: " ++ index_path)%string]).

Definition load_base_idx (self : builder) (fs : filesystem) : result Index :=
  base_index <- Faiss.read_index fs (path_to_base_index self) ;;
  if Faiss.is_trained base_index && (Faiss.ntotal base_index =? 0) then
    Ok base_index
  else Raise (Exception "Index must be empty and pre-trained.").

Definition index_embs_and_ids (index : Index) (embeddings : list Vector)
    (faiss_ids : list Z) : result Index :=
  if Nat.eqb (List.length embeddings) (List.length faiss_ids) then
    Ok (Faiss.add_with_ids assign encode index embeddings faiss_ids)
  else Raise AssertionError.

(** What a call leaves behind: what it returned or raised, the builder,
    the files, and the lines printed. *)
Record effect (A : Type) : Type := {
  outcome : result A;
  self_after : builder;
  files_after : filesystem;
  printed : list string
}.
Arguments outcome {A} e.
Arguments self_after {A} e.
Arguments files_after {A} e.
Arguments printed {A} e.

(** [generate_subindex].  The catalogue entry is set first (l.246) and
    [faiss.write_index] is called after it (l.247): where the path cannot
    be written, the call raises with the entry already in the catalogue
    and no file written. *)
Definition generate_subindex (self : builder) (fs : filesystem)
    (subindex_path : string) (embeddings : list Vector) (faiss_ids : list Z)
  : effect unit :=
  let '(clear, out) := index_path_clear fs subindex_path ".index" in
  if clear then
    match
      index <- load_base_idx self fs ;;
      index_embs_and_ids index embeddings faiss_ids
    with
    | Raise e =>
        {| outcome := Raise e; self_after := self; files_after := fs;
           printed := out |}
    | Ok index =>
        let self1 :=
          {| path_to_base_index := path_to_base_index self;
             subindex_path_totals :=
               dict_set (subindex_path_totals self) subindex_path
                 (Faiss.ntotal index) |} in
        if writable subindex_path then
          {| outcome := Ok tt; self_after := self1;
             files_after := Faiss.write_index fs index subindex_path;
             printed := out |}
        else
          {| outcome := Raise RuntimeError; self_after := self1;
             files_after := fs; printed := out |}
    end
  else
    {| outcome := Ok tt; self_after := self; files_after := fs;
       printed := out |}.

(** The paths [merge_IVFs] reads: the catalogue's when none are given. *)
Definition merge_inputs (self : builder) (ivfindex_paths : list string)
  : list string :=
  match ivfindex_paths with
  | [] => map fst (subindex_path_totals self)
  | _ => ivfindex_paths
  end.

(** The loop that collects [index.invlists] of every sub-index. *)
Definition collect_ivfs (fs : filesystem) (paths : list string)
  : result (list InvertedLists) :=
  mapM (fun subindex_path =>
          index <- Faiss.read_index fs subindex_path ;;
          Ok (Faiss.invlists index)) paths.

(** [merge_IVFs]: the count it returns and the files afterwards. *)
Definition merge_IVFs (self : builder) (fs : filesystem)
    (index_path ivfdata_path : string) (ivfindex_paths : list string)
  : result Z * filesystem :=
  match collect_ivfs fs (merge_inputs self ivfindex_paths) with
  | Raise e => (Raise e, fs)
  | Ok ivfs =>
      match load_base_idx self fs with
      | Raise e => (Raise e, fs)
      | Ok index =>
          let invlists :=
            Faiss.OnDiskInvertedLists Code (Faiss.nlist index)
              (Faiss.code_size index) in
          let fs1 := dict_set fs ivfdata_path (Faiss.DataFile []) in
          match Faiss.merge_from invlists ivfs with
          | Raise e => (Raise e, fs1)
          | Ok (merged, ntotal) =>
              let index :=
                {| Faiss.is_trained := Faiss.is_trained index;
                   Faiss.ntotal := ntotal;
                   Faiss.nlist := Faiss.nlist index;
                   Faiss.code_size := Faiss.code_size index;
                   Faiss.invlists := merged |} in
              let fs2 :=
                dict_set fs1 ivfdata_path
                  (Faiss.DataFile (Faiss.il_lists merged)) in
              (Ok ntotal, Faiss.write_index fs2 index index_path)
          end
      end
  end.

End Builder.

Arguments outcome {Code A} e.
Arguments self_after {Code A} e.
Arguments files_after {Code A} e.
Arguments printed {Code A} e.
Arguments index_path_clear {Code} fs index_path file_suffix.
Arguments load_base_idx {Code} self fs.
Arguments index_embs_and_ids {Code Vector} assign encode index embeddings faiss_ids.
Arguments generate_subindex {Code Vector} assign encode writable self fs
  subindex_path embeddings faiss_ids.
Arguments collect_ivfs {Code} fs paths.
Arguments merge_IVFs {Code} self fs index_path ivfdata_path ivfindex_paths.

End OnDiskIVFBuilder.

(** ** digtextsimilaritysearch/indexer/IVF_disk_index_handler.py *)

Module DiskBuilderIVF.
Import Py.

Section Builder.

Variable Code : Type.

#[local] Abbreviation Index := (Faiss.Index Code).
#[local] Abbreviation filesystem := (Faiss.filesystem Code).

Record builder : Type := {
  path_to_empty_index : string;
  invlist_paths : list string;
  index : option Index                     (* [self.index] *)
}.

Definition load_empty (self : builder) (fs : filesystem) : result builder :=
  empty_index <- Faiss.read_index fs (path_to_empty_index self) ;;
  if Faiss.is_trained empty_index && (Faiss.ntotal empty_index =? 0) then
    Ok {| path_to_empty_index := path_to_empty_index self;
          invlist_paths := invlist_paths self;
          index := Some empty_index |}
  else Raise (Exception "Index must be empty and pre-trained.").

(** [build_disk_index]: the count it returns, the builder and the files
    afterwards.  [save_index] (of [base_index_handler], not in the
    sources) is taken to write [self.index] to the path. *)
Definition build_disk_index (self : builder) (fs : filesystem)
    (merged_ivfs_path merged_index_path : string)
  : result Z * builder * filesystem :=
  match OnDiskIVFBuilder.collect_ivfs fs (invlist_paths self) with
  | Raise e => (Raise e, self, fs)
  | Ok ivfs =>
      match load_empty self fs with
      | Raise e => (Raise e, self, fs)
      | Ok self1 =>
          match index self1 with
          | None => (Raise AttributeError, self1, fs)
          | Some ix =>
              let invlists :=
                Faiss.OnDiskInvertedLists Code (Faiss.nlist ix)
                  (Faiss.code_size ix) in
              let fs1 := dict_set fs merged_ivfs_path (Faiss.DataFile []) in
              match Faiss.merge_from invlists ivfs with
              | Raise e => (Raise e, self1, fs1)
              | Ok (merged, ntotal) =>
                  let ix1 :=
                    {| Faiss.is_trained := Faiss.is_trained ix;
                       Faiss.ntotal := ntotal;
                       Faiss.nlist := Faiss.nlist ix;
                       Faiss.code_size := Faiss.code_size ix;
                       Faiss.invlists := merged |} in
                  let fs2 :=
                    dict_set fs1 merged_ivfs_path
                      (Faiss.DataFile (Faiss.il_lists merged)) in
                  (Ok ntotal,
                   {| path_to_empty_index := path_to_empty_index self1;
                      invlist_paths := invlist_paths self1;
                      index := None |},
                   Faiss.write_index fs2 ix1 merged_index_path)
              end
          end
      end
  end.

End Builder.

Arguments path_to_empty_index {Code} b.
Arguments invlist_paths {Code} b.
Arguments index {Code} b.
Arguments load_empty {Code} self fs.
Arguments build_disk_index {Code} self fs merged_ivfs_path merged_index_path.

End DiskBuilderIVF.

(** ** Further parts of the sources

    More of the same files, and one file more:

    - [add_shard] of both query processors (module [ProcessorShards]) and
      [query_corpus] of [dt_sim_api] (module [ApiQueryCorpus]);
    - of [dt_sim/indexer/index_builder.py]: [include_subidx_path] and
      [print_n_subindexes] (module [BuilderCatalogue]), [zip_indexes] up
      to the end of its merge loop (module [ZipIndexes]) and
      [mv_index_and_ivfdata] (module [MoveIndex]);
    - of [dt_sim/vectorizer/sentence_vectorizer.py]: the batching of
      [SentenceVectorizer.make_vectors] (module [SentenceVectorizer]). *)

(** [QueryProcessor.add_shard], the same in [dt_sim] and [dt_sim_api]. *)
Module ProcessorShards.
Import Py.

Section Processor.

(** [os.path.isfile] *)
Variable isfile : string -> bool.
(** The index handler and its [add_shard]: what it returns or raises, the
    handler afterwards, and the lines it printed. *)
Variable Indexer : Type.
Variable indexer_add_shard :
  Indexer -> string -> result unit * Indexer * list string.

(** No exception of the model is a [NameError], so the [except] clause
    catches nothing: what the handler raises goes on to the caller. *)
Definition add_shard (self : QueryProcessor.processor Indexer)
    (shard_path : string)
  : result unit * QueryProcessor.processor Indexer * list string :=
  if isfile shard_path && endswith shard_path ".index" then
    let '(r, ix, out) :=
      indexer_add_shard (QueryProcessor.indexer self) shard_path in
    (r,
     {| QueryProcessor.indexer := ix;
        QueryProcessor.n_queries := QueryProcessor.n_queries self |},
     out)
  else if negb (isfile shard_path) then
    (Ok tt, self,
     [("Error: Path does not specify a file: " ++ shard_path)%string])
  else if negb (endswith shard_path ".index") then
    (Ok tt, self,
     [("Error: Path does not lead to .index: " ++ shard_path)%string])
  else
    (Ok tt, self, [("Error: Unexpected input: " ++ shard_path)%string]).

End Processor.

Arguments add_shard isfile {Indexer} indexer_add_shard self shard_path.

End ProcessorShards.

(** [query_corpus] of [dt_sim_api]. *)
Module ApiQueryCorpus.
Import Py.

Section Processor.

Variable str_float : float -> string.
Variable QueryVector : Type.
Variable make_vectors : list string -> result QueryVector.
Variable Indexer : Type.
(** [indexer.search(query_vector, k=k_search)] *)
Variable indexer_search :
  Indexer -> QueryVector -> Z ->
  result (list (list float) * list (list Z)) * Indexer.

(** The body of [query_corpus]; the timing and printing are left out. *)
Definition query_corpus (indexer : Indexer) (query_str : string) (k : Z)
  : result (list ApiQueryProcessor.Hit) * Indexer :=
  match make_vectors [query_str] with
  | Raise e => (Raise e, indexer)
  | Ok query_vector =>
      let k_search := Z.max 500 (10 * k) in
      let '(found, ix) := indexer_search indexer query_vector k_search in
      (' (scores, faiss_ids) <- found ;;
       doc_hits <- ApiQueryProcessor.aggregate_docs scores faiss_ids ;;
       similar_docs <- ApiQueryProcessor.format_payload str_float doc_hits ;;
       Ok (slice_to similar_docs k),
       ix)
  end.

End Processor.

Arguments query_corpus str_float {QueryVector} make_vectors {Indexer}
  indexer_search indexer query_str k.

End ApiQueryCorpus.

(** *** dt_sim/indexer/index_builder.py, continued *)

(** The catalogue of [OnDiskIVFBuilder]: [include_subidx_path] and
    [print_n_subindexes]. *)
Module BuilderCatalogue.
Import Py.

Section Builder.

Variable Code : Type.

#[local] Abbreviation filesystem := (Faiss.filesystem Code).
#[local] Abbreviation builder := OnDiskIVFBuilder.builder.

(** The line [print_n_subindexes] prints. *)
Definition print_n_subindexes (self : builder) : list string :=
  let n_vectors :=
    fold_left (fun n entry => n + snd entry)
      (OnDiskIVFBuilder.subindex_path_totals self) 0 in
  [(" "
    ++ str_int (Z.of_nat (List.length (OnDiskIVFBuilder.subindex_path_totals self)))
    ++ " subindexes (" ++ str_int n_vectors ++ " vectors)")%string].

(** The loop of [include_subidx_path] over [paths_to_add], with the lines
    printed so far. *)
Fixpoint include_paths (self : builder) (fs : filesystem)
    (paths_to_add : list string) (out : list string)
  : result unit * builder * list string :=
  match paths_to_add with
  | [] => (Ok tt, self, out)
  | subidx_path :: rest =>
      if Faiss.isfile fs subidx_path && endswith subidx_path ".index" then
        match Faiss.read_index fs subidx_path with
        | Raise e => (Raise e, self, out)
        | Ok index =>
            include_paths
              {| OnDiskIVFBuilder.path_to_base_index :=
                   OnDiskIVFBuilder.path_to_base_index self;
                 OnDiskIVFBuilder.subindex_path_totals :=
                   dict_set (OnDiskIVFBuilder.subindex_path_totals self)
                     subidx_path (Faiss.ntotal index) |}
              fs rest out
        end
      else
        include_paths self fs rest
          (out ++ [("Unable to add index: " ++ subidx_path)%string])
  end.

(** [include_subidx_path] on a list of paths (a single string stands for
    the list that holds it): what it returns or raises, the builder
    afterwards, and the lines printed. *)
Definition include_subidx_path (self : builder) (fs : filesystem)
    (paths_to_add : list string) : result unit * builder * list string :=
  match include_paths self fs paths_to_add [] with
  | (Raise e, self1, out) => (Raise e, self1, out)
  | (Ok _, self1, out) => (Ok tt, self1, out ++ print_n_subindexes self1)
  end.

End Builder.

Arguments include_paths {Code} self fs paths_to_add out.
Arguments include_subidx_path {Code} self fs paths_to_add.

End BuilderCatalogue.

(** [OnDiskIVFBuilder.zip_indexes], from the test for moving indexes to
    the end of the merge loop.  The paths found in [mv_dir] and [to_dir]
    ([find_indexes], of [base_indexer]) are given; as for [merge_IVFs],
    directories are not modelled.  The report and the deletions that
    follow the merge loop are left out. *)
Module ZipIndexes.
Import Py.

(** [l.pop()]: the last element and the list without it. *)
Definition pop (l : list string) : option (string * list string) :=
  match l with
  | [] => None
  | _ :: _ => Some (last l "", removelast l)
  end.

(** [l.pop(l.index(x))]: the first occurrence of [x] is taken out. *)
Fixpoint remove_first (x : string) (l : list string) : list string :=
  match l with
  | [] => []
  | y :: rest => if String.eqb y x then rest else y :: remove_first x rest
  end.

(** The loop [for idx_path in moving_indexes], which takes paths out of
    the list it runs over.  The list iterator keeps a position [i]: each
    step reads [moving_indexes[i]] from the list as it is by then and
    moves on to [i + 1], and the loop ends when [i] is past the end.
    [steps] bounds the number of steps; the length of the list is
    enough. *)
Fixpoint scan (steps : nat) (check_date : string)
    (moving_indexes : list string) (i : nat) (group : list string)
  : list string * list string :=
  match steps with
  | O => (moving_indexes, group)
  | S steps' =>
      match nth_error moving_indexes i with
      | None => (moving_indexes, group)
      | Some idx_path =>
          if contains check_date idx_path then
            scan steps' check_date (remove_first idx_path moving_indexes)
              (S i) (group ++ [idx_path])
          else scan steps' check_date moving_indexes (S i) group
      end
  end.

(** The loop [while len(moving_indexes)]: [moving_groups] and
    [stale_files] at its end.  [steps] bounds the number of rounds; the
    length of the list is enough, since every round takes a path out. *)
Fixpoint group_by_date (steps : nat) (moving_indexes current_indexes : list string)
    (moving_groups : dict (list string)) (stale_files : list string)
  : result (dict (list string) * list string) :=
  match steps with
  | O => Ok (moving_groups, stale_files)
  | S steps' =>
      match pop moving_indexes with
      | None => Ok (moving_groups, stale_files)
      | Some (index_path, moving_indexes) =>
          match DateSeed.search index_path with
          | None => Raise AttributeError
          | Some check_date =>
              let '(moving_indexes, group) :=
                scan (List.length moving_indexes) check_date moving_indexes O
                  [index_path] in
              let zipped_into := filter (contains check_date) current_indexes in
              group_by_date steps' moving_indexes current_indexes
                (dict_set moving_groups check_date (group ++ zipped_into))
                (stale_files ++ zipped_into)
          end
      end
  end.

(** [os.path.join(a, b)] *)
Definition join (a b : string) : string :=
  if prefix "/" b then b
  else if String.eqb a "" || endswith a "/" then a ++ b
  else a ++ "/" ++ b.

(** [s.replace(old, new)] for a non-empty [old]; [skip] counts the
    characters of a match that are still to be dropped. *)
Fixpoint replace_from (old new : string) (skip : nat) (s : string) : string :=
  match s with
  | EmptyString => EmptyString
  | String c s' =>
      match skip with
      | S n => replace_from old new n s'
      | O =>
          if prefix old s
          then new ++ replace_from old new (String.length old - 1) s'
          else String c (replace_from old new O s')
      end
  end.

Definition replace (old new s : string) : string := replace_from old new O s.

Definition new_idx_path (to_dir partial_filename pub_date : string) : string :=
  join to_dir (pub_date ++ "_" ++ partial_filename ++ ".index").

Definition new_data_path (to_dir partial_filename pub_date : string) : string :=
  replace ".index" ".ivfdata" (new_idx_path to_dir partial_filename pub_date).

Section Builder.

Variable Code : Type.

#[local] Abbreviation filesystem := (Faiss.filesystem Code).

(** The loop that asserts that all paths are clear. *)
Fixpoint paths_clear (fs : filesystem) (to_dir partial_filename : string)
    (moving_groups : dict (list string)) : result unit :=
  match moving_groups with
  | [] => Ok tt
  | (pub_date, _) :: rest =>
      if Faiss.isfile fs (new_idx_path to_dir partial_filename pub_date)
      then Raise AssertionError
      else if Faiss.isfile fs (new_data_path to_dir partial_filename pub_date)
      then Raise AssertionError
      else paths_clear fs to_dir partial_filename rest
  end.

(** The merge loop: [n_vect] and the files at its end. *)
Fixpoint merge_groups (self : OnDiskIVFBuilder.builder) (fs : filesystem)
    (to_dir partial_filename : string) (moving_groups : dict (list string))
    (n_vect : Z) : result Z * filesystem :=
  match moving_groups with
  | [] => (Ok n_vect, fs)
  | (pub_date, group) :: rest =>
      match
        OnDiskIVFBuilder.merge_IVFs self fs
          (new_idx_path to_dir partial_filename pub_date)
          (new_data_path to_dir partial_filename pub_date) group
      with
      | (Raise e, fs1) => (Raise e, fs1)
      | (Ok n, fs1) =>
          merge_groups self fs1 to_dir partial_filename rest (n_vect + n)
      end
  end.

(** Where the modelled part ends: with [return 0], or past the merge
    loop with these values. *)
Inductive zipped : Type :=
| NothingToProcess
| Merged (n_vect : Z) (moving_groups : dict (list string))
    (stale_files : list string).

Definition zip_indexes (self : OnDiskIVFBuilder.builder) (fs : filesystem)
    (moving_indexes current_indexes : list string)
    (to_dir partial_filename : string) : result zipped * filesystem :=
  match moving_indexes with
  | [] => (Ok NothingToProcess, fs)
  | _ :: _ =>
      match
        group_by_date (List.length moving_indexes) moving_indexes
          current_indexes [] []
      with
      | Raise e => (Raise e, fs)
      | Ok (moving_groups, stale_files) =>
          match paths_clear fs to_dir partial_filename moving_groups with
          | Raise e => (Raise e, fs)
          | Ok _ =>
              match
                merge_groups self fs to_dir partial_filename moving_groups 0
              with
              | (Raise e, fs1) => (Raise e, fs1)
              | (Ok n_vect, fs1) =>
                  (Ok (Merged n_vect moving_groups stale_files), fs1)
              end
          end
      end
  end.

End Builder.

Arguments paths_clear {Code} fs to_dir partial_filename moving_groups.
Arguments merge_groups {Code} self fs to_dir partial_filename moving_groups
  n_vect.
Arguments zip_indexes {Code} self fs moving_indexes current_indexes to_dir
  partial_filename.

End ZipIndexes.

(** [OnDiskIVFBuilder.mv_index_and_ivfdata].  Paths are absolute, so
    [abspath] leaves them as they are.  Besides the files there is the
    set of directories, and [os.mkdir] is a parameter. *)
Module MoveIndex.
Import Py.

(** [s.split('/')[-1]] *)
Fixpoint last_segment (s : string) : string :=
  match s with
  | EmptyString => EmptyString
  | String c s' =>
      if Ascii.eqb c "/" then last_segment s'
      else if contains "/" s' then last_segment s' else s
  end.

(** [str] of a bool. *)
Definition str_bool (b : bool) : string := if b then "True" else "False".

Section Builder.

Variable Code : Type.

#[local] Abbreviation filesystem := (Faiss.filesystem Code).

(** [os.mkdir]: the directories afterwards, or what it raises. *)
Variable os_mkdir : list string -> string -> result (list string).

Record disk : Type := {
  files : filesystem;
  dirs : list string
}.

Definition isdir (d : disk) (path : string) : bool := list_mem path (dirs d).

(** [os.remove]: a [FileNotFoundError] (an [Exception]) when there is no
    such file. *)
Definition os_remove (fs : filesystem) (path : string) : result filesystem :=
  if Faiss.isfile fs path then
    Ok (filter (fun entry => negb (String.eqb (fst entry) path)) fs)
  else Raise (Exception "FileNotFoundError").

(** What it returns ([None] when it only prints) or raises, the disk
    afterwards, and the lines printed. *)
Definition mv_index_and_ivfdata (self : OnDiskIVFBuilder.builder) (d : disk)
    (index_path ivfdata_path to_dir : string) (mkdir only_cp : bool)
  : result (option Z) * disk * list string :=
  if negb (Faiss.isfile (files d) index_path) then (Raise AssertionError, d, [])
  else if negb (Faiss.isfile (files d) ivfdata_path) then
    (Raise AssertionError, d, [])
  else
    match
      (if negb (isdir d to_dir) && mkdir then
         dirs1 <- os_mkdir (dirs d) to_dir ;;
         Ok {| files := files d; dirs := dirs1 |}
       else Ok d)
    with
    | Raise e => (Raise e, d, [])
    | Ok d1 =>
        if isdir d1 to_dir then
          let new_index_path :=
            ZipIndexes.join to_dir (last_segment index_path) in
          let new_ivfdata_path :=
            ZipIndexes.join to_dir (last_segment ivfdata_path) in
          if negb (Faiss.isfile (files d1) new_index_path)
             && negb (Faiss.isfile (files d1) new_ivfdata_path) then
            match
              OnDiskIVFBuilder.merge_IVFs self (files d1) new_index_path
                new_ivfdata_path [index_path]
            with
            | (Raise e, fs2) => (Raise e, {| files := fs2; dirs := dirs d1 |}, [])
            | (Ok n_vectors_mvd, fs2) =>
                if only_cp then
                  (Ok (Some n_vectors_mvd),
                   {| files := fs2; dirs := dirs d1 |},
                   [("Copied: " ++ index_path ++ " and its .ivfdata file ")%string;
                    ("To:     " ++ new_index_path ++ " ("
                     ++ str_int n_vectors_mvd ++ " vectors) ")%string;
                    EmptyString])
                else
                  match os_remove fs2 ivfdata_path with
                  | Raise e =>
                      (Raise e, {| files := fs2; dirs := dirs d1 |}, [])
                  | Ok fs3 =>
                      match os_remove fs3 index_path with
                      | Raise e =>
                          (Raise e, {| files := fs3; dirs := dirs d1 |}, [])
                      | Ok fs4 =>
                          (Ok (Some n_vectors_mvd),
                           {| files := fs4; dirs := dirs d1 |},
                           [("Moved: " ++ index_path
                             ++ " and its .ivfdata file ")%string;
                            ("To:    " ++ new_index_path ++ " ("
                             ++ str_int n_vectors_mvd ++ " vectors) ")%string;
                            EmptyString])
                      end
                  end
            end
          else (Raise AssertionError, d1, [])
        else
          (Ok None, d1,
           [("Unable to move index: " ++ index_path ++ " ")%string;
            (" * " ++ to_dir ++ " exists: " ++ str_bool (isdir d1 to_dir)
             ++ " ")%string;
            (" * mkdir: " ++ str_bool mkdir ++ " ")%string;
            (" * only_cp: " ++ str_bool only_cp ++ " ")%string;
            EmptyString])
    end.

End Builder.

Arguments files {Code} d.
Arguments dirs {Code} d.
Arguments Build_disk {Code}.
Arguments isdir {Code} d path.
Arguments os_remove {Code} fs path.
Arguments mv_index_and_ivfdata {Code} os_mkdir self d index_path ivfdata_path
  to_dir mkdir only_cp.

End MoveIndex.

(** *** dt_sim/vectorizer/sentence_vectorizer.py *)

(** [SentenceVectorizer.make_vectors]: how the sentences are split into
    batches.  The timing and printing are left out. *)
Module SentenceVectorizer.
Import Py.

(** [l[k:]] *)
Definition slice_from {A} (l : list A) (k : Z) : list A :=
  if 0 <=? k then skipn (Z.to_nat k) l
  else skipn (List.length l - Z.to_nat (- k)) l.

Section Vectorizer.

(** The embeddings of one batch, and [session.run(model(batch))]. *)
Variable Embeddings : Type.
Variable run_model : list string -> Embeddings.

(** The loop [while len(sentences) >= n_minibatch]: the batches and the
    sentences left over, or [None] when [steps] rounds do not end it. *)
Fixpoint split_batches (steps : nat) (sentences : list string)
    (n_minibatch : Z) (batched_tensors : list (list string))
  : option (list (list string) * list string) :=
  if n_minibatch <=? Z.of_nat (List.length sentences) then
    match steps with
    | O => None
    | S steps' =>
        split_batches steps' (slice_from sentences n_minibatch) n_minibatch
          (batched_tensors ++ [slice_to sentences n_minibatch])
    end
  else Some (batched_tensors, sentences).

(** The tail end: the sentences left over are embedded as one batch. *)
Definition tail_end (sentences : list string) : list Embeddings :=
  match sentences with
  | [] => []
  | _ :: _ => [run_model sentences]
  end.

(** [make_vectors] on a list of sentences (a single string stands for
    the list that holds it).  The dataset iterator yields the batches in
    order until it is exhausted. *)
Definition make_vectors (steps : nat) (sentences : list string)
    (n_minibatch : Z) : option (list Embeddings) :=
  if n_minibatch <? Z.of_nat (List.length sentences) then
    match split_batches steps sentences n_minibatch [] with
    | None => None
    | Some (batched_tensors, sentences) =>
        Some (map run_model batched_tensors ++ tail_end sentences)
    end
  else Some (tail_end sentences).

End Vectorizer.

Arguments tail_end {Embeddings} run_model sentences.
Arguments make_vectors {Embeddings} run_model steps sentences n_minibatch.

End SentenceVectorizer.

(** ** Vocabulary of the further properties *)

Module MorePredicates.
Import Py.

(** The score profile [aggregate_docs] hashes: the sorted scores of a
    document. *)
Definition profile (score_ids : QueryProcessor.rawScoreIDs) : list string :=
  QueryProcessor.phash (sorted (map fst score_ids)).

(** The pairs the first loop of [aggregate_docs] appends, in the order of
    the search output. *)
Definition floored_hits (str_float : float -> string) (scores0 : list float)
    (ids0 : list Z) : QueryProcessor.rawScoreIDs :=
  map (fun hit => (QueryProcessor.min_diff_cutoff str_float (fst hit),
                   str_int (snd hit)))
    (filter (fun hit => 0 <? snd hit) (zip scores0 ids0)).

(** The documents the duplicate filter of [aggregate_docs] keeps, given
    the profiles [seen] so far. *)
Fixpoint kept (docs : QueryProcessor.DocPayload) (seen : list (list string))
  : QueryProcessor.DocPayload :=
  match docs with
  | [] => []
  | (doc_id, score_ids) :: rest =>
      if QueryProcessor.hash_mem (profile score_ids) seen then kept rest seen
      else (doc_id, score_ids) :: kept rest (profile score_ids :: seen)
  end.

(** A document with its hits sorted. *)
Definition sorted_entry (e : string * QueryProcessor.rawScoreIDs)
  : string * QueryProcessor.rawScoreIDs :=
  (fst e, QueryProcessor.sort_score_ids (snd e)).

(** The single-hit record belongs to the document record: same document,
    same score, and the id of its first hit. *)
Definition best_hit_of (doc single : QueryProcessor.DocHit) : Prop :=
  QueryProcessor.hit_doc_id single = QueryProcessor.hit_doc_id doc
  /\ QueryProcessor.hit_score single = QueryProcessor.hit_score doc
  /\ QueryProcessor.hit_ids single = firstn 1 (QueryProcessor.hit_ids doc).

(** The records [format_payload] of [dt_sim_api] builds from the search
    output, before sorting: one per hit whose id is at least 10000. *)
Definition api_records (str_float : float -> string) (scores0 : list float)
    (ids0 : list Z) : list ApiQueryProcessor.Hit :=
  map (fun hit =>
         {| ApiQueryProcessor.score :=
              str_float (ApiQueryProcessor.min_diff_cutoff (fst hit));
            ApiQueryProcessor.sentence_id := str_int (snd hit) |})
    (filter (fun hit => 10000 <=? snd hit) (zip scores0 ids0)).

Section Readers.

Context {Index : Type}.
Variable read_index : string -> option Index.
Variable read_index_ondisk : string -> option Index.

(** What the two reads of a shard file give: the index read plainly or,
    when that fails, with [IO_FLAG_ONDISK_SAME_DIR]. *)
Definition opened (path : string) : option Index :=
  match read_index path with
  | Some ix => Some ix
  | None => read_index_ondisk path
  end.

End Readers.

Section Catalogue.

Context {Code : Type}.

(** Every total in the catalogue is the [ntotal] of the index stored at
    its path. *)
Definition catalogue_agrees (self : OnDiskIVFBuilder.builder)
    (fs : Faiss.filesystem Code) : Prop :=
  forall subindex_path n,
    dict_get (OnDiskIVFBuilder.subindex_path_totals self) subindex_path = Some n ->
    exists index,
      Faiss.read_index fs subindex_path = Ok index /\ Faiss.ntotal index = n.

End Catalogue.

(** A group of [zip_indexes] is sound: it starts with a moving path
    whose date is the key, and every other member is a moving or a
    current path that contains the key. *)
Definition sound_group (current_indexes moving_indexes : list string)
    (entry : string * list string) : Prop :=
  exists first rest,
    snd entry = first :: rest
    /\ In first moving_indexes
    /\ DateSeed.search first = Some (fst entry)
    /\ Forall (fun p =>
                 contains (fst entry) p = true
                 /\ (In p moving_indexes \/ In p current_indexes)) rest.

(** Two paths hold the same date. *)
Definition same_date (p q : string) : bool :=
  match DateSeed.search p, DateSeed.search q with
  | Some d, Some d' => String.eqb d d'
  | _, _ => false
  end.

(** No date is the date of more than two of the paths. *)
Definition at_most_two_per_date (paths : list string) : bool :=
  forallb (fun p => (List.length (filter (same_date p) paths) <=? 2)%nat) paths.

(** Every path holds a date, and contains the date of no path of
    another date. *)
Definition own_date_only (paths : list string) : bool :=
  forallb (fun p =>
             match DateSeed.search p with
             | None => false
             | Some d =>
                 forallb (fun q => implb (contains d q) (same_date p q)) paths
             end) paths.

(** The sentences left over, as the batch they are embedded in. *)
Definition tail_batch (sentences : list string) : list (list string) :=
  match sentences with
  | [] => []
  | _ :: _ => [sentences]
  end.

(** The ten characters of a date. *)
Definition date_shaped (d : string) : Prop :=
  exists y1 y2 y3 y4 s1 m1 m2 s2 d1 d2,
    d = String y1 (String y2 (String y3 (String y4 (String s1
          (String m1 (String m2 (String s2 (String d1 (String d2 "")))))))))
    /\ Forall (fun c => DateSeed.is_digit c = true) [y1; y2; y3; y4; m1; m2; d1; d2]
    /\ Forall (fun c => DateSeed.is_sep c = true) [s1; s2].

(** The year of a date is not 9999. *)
Definition before_9999 (shard_date : string) : Prop :=
  substring 0 4 shard_date <> "9999".

End MorePredicates.

(** ** Vocabulary of the properties *)

Module Predicates.
Import Py.

(** The order [sorted] leaves a list in. *)
Definition key_le {A} (key : A -> string) (a b : A) : Prop :=
  String.leb (key a) (key b) = true.

(** The hits a document has so far in the loop of [aggregate_docs]. *)
Definition hits_of (docs : QueryProcessor.DocPayload) (doc_id : string)
  : QueryProcessor.rawScoreIDs :=
  match dict_get docs doc_id with
  | Some hits => hits
  | None => []
  end.

(** The same in [dt_sim_api]. *)
Definition api_hits_of (docs : ApiQueryProcessor.DocHits) (doc_id : string)
  : list (float * Z) :=
  match dict_get docs doc_id with
  | Some hits => hits
  | None => []
  end.

(** Properties of dictionary entries that sorting an entry's hits keeps. *)
Definition sort_stable (P : string * QueryProcessor.rawScoreIDs -> Prop)
  : Prop :=
  forall k l, P (k, l) -> P (k, QueryProcessor.sort_score_ids l).

(** The document has a hit. *)
Definition has_hit (e : string * QueryProcessor.rawScoreIDs) : Prop :=
  snd e <> [].

(** The string [s] is [str(i)] for a vector id [i > 0] among [ids0], and
    [doc_id] is [str(i / 10000)]. *)
Definition id_of_doc (ids0 : list Z) (doc_id s : string) : Prop :=
  exists i, s = str_int i /\ 0 < i /\ doc_id = str_int (i / 10000) /\ In i ids0.

Definition grouped (ids0 : list Z) (e : string * QueryProcessor.rawScoreIDs)
  : Prop :=
  Forall (fun hit => id_of_doc ids0 (fst e) (snd hit)) (snd e).

(** The ids of the records [dt_sim_api] builds: [i] is positive, stands
    in the result of [aggregate_docs] under the key [str(i / 10000)], and
    is one of [ids0]. *)
Definition api_id_of_doc (ids0 : list Z) (docs : ApiQueryProcessor.DocHits)
    (s : string) : Prop :=
  exists i, s = str_int i /\ 0 < i /\ In i ids0
    /\ exists sc hits, In (str_int (i / 10000), hits) docs /\ In (sc, i) hits.

Definition api_grouped (ids0 : list Z) (e : string * list (float * Z)) : Prop :=
  exists d, fst e = str_int d
    /\ Forall (fun hit => snd hit / 10000 = d /\ In (snd hit) ids0) (snd e).

(** The shard's name holds a date [d] with [start <= d <= end_]. *)
Definition in_window (start end_ shard_name : string) : bool :=
  match DateSeed.search shard_name with
  | Some shard_date => String.leb start shard_date && String.leb shard_date end_
  | None => false
  end.

Section Shards.

Context {Index QueryVector : Type}.
Variable range_search : Index -> Z -> QueryVector -> float -> list float * list Z.

Definition dated (e : string * RangeShards.Shard Index) : Prop :=
  DateSeed.search (fst e) <> None.

(** The mounted shards the dispatch loop of [search] gets to: those
    before the first one whose name holds no date. *)
Fixpoint reached (entries : list (string * RangeShards.Shard Index))
  : list (string * RangeShards.Shard Index) :=
  match entries with
  | [] => []
  | e :: rest =>
      match DateSeed.search (fst e) with
      | Some _ => e :: reached rest
      | None => []
      end
  end.

(** Every mounted name holds a date. *)
Definition all_dated (entries : list (string * RangeShards.Shard Index))
  : bool :=
  forallb (fun e =>
             match DateSeed.search (fst e) with
             | Some _ => true
             | None => false
             end) entries.

(** The mounted shards a query with window [start, end_] addresses. *)
Definition addressed (start end_ : string)
    (entries : list (string * RangeShards.Shard Index))
  : list (string * RangeShards.Shard Index) :=
  filter (fun e => in_window start end_ (fst e)) entries.

(** What the worker of a mounted shard answers. *)
Definition answer (query_vector : QueryVector) (radius : float)
    (e : string * RangeShards.Shard Index) : list float * list Z :=
  range_search (RangeShards.shard_index (snd e))
    (RangeShards.shard_nprobe (snd e)) query_vector radius.

(** The test [add_shard] makes before it mounts anything. *)
Definition online (self : RangeShards.handler Index) (new_shard_path : string)
  : bool :=
  list_mem new_shard_path (RangeShards.paths_to_shards self)
  || dict_mem (RangeShards.shards self)
       (RangeShards.shard_name_of new_shard_path).

End Shards.

Section Stores.

Context {Code : Type}.

(** A source a store of [n] lists with [m]-byte codes can take in. *)
Definition fits (n m : nat) (s : Faiss.InvertedLists Code) : Prop :=
  Faiss.well_formed s /\ Faiss.il_nlist s = n /\ Faiss.il_code_size s = m.

(** The index file at [index_path] is the merge of [sources], and
    [ntotal] is its count. *)
Definition merged_shard (fs : Faiss.filesystem Code) (index_path : string)
    (sources : list (Faiss.InvertedLists Code)) (ntotal : Z) : Prop :=
  exists shard,
    Faiss.read_index fs index_path = Ok shard
    /\ Permutation (Faiss.entries (Faiss.invlists shard))
         (List.concat (map Faiss.entries sources))
    /\ ntotal = Faiss.total_length (Faiss.il_lists (Faiss.invlists shard))
    /\ Faiss.ntotal shard = ntotal.

End Stores.

End Predicates.

(** ** Scenarios

    Concrete collaborators and inputs, after the end-to-end scenarios of
    the specification, on which the properties below are exercised. *)

Module Scenario.
Import Py.

(** Python's [str] at the floats the scenarios use. *)
Definition str_float (x : float) : string :=
  if Qeq_bool x (1 # 100) then "0.01"
  else if Qeq_bool x (1 # 10) then "0.1"
  else if Qeq_bool x (3 # 10) then "0.3"
  else if Qeq_bool x (1 # 2) then "0.5"
  else if Qeq_bool x 9 then "9.0"
  else if Qeq_bool x (21 # 2) then "10.5"
  else "nan".

(** A search output: two sentences of document 1, one of document 2. *)
Definition found : QueryProcessor.FaissSearch :=
  ([[0; 3 # 10; 1 # 2]]%Q, [[10001; 20001; 10002]]).

(** A vectorizer and an index handler that answer every query with
    [found]. *)
Definition make_vectors (query : list string) : result unit := Ok tt.

Definition indexer_search (ix : unit) (query_vector : unit) (k : Z)
    (radius : float) (start end_ : string)
  : result QueryProcessor.FaissSearch * unit :=
  (Ok found, ix).

(** A search output with distances on both sides of 10, and a handler
    that answers with it. *)
Definition far_found : QueryProcessor.FaissSearch :=
  ([[9; 21 # 2]]%Q, [[10001; 20001]]).

Definition far_indexer_search (ix : unit) (query_vector : unit) (k : Z)
    (radius : float) (start end_ : string)
  : result QueryProcessor.FaissSearch * unit :=
  (Ok far_found, ix).

Definition processor : QueryProcessor.processor unit :=
  {| QueryProcessor.indexer := tt; QueryProcessor.n_queries := 0 |}.

(** A loaded index, reduced to the hits it holds for the query, in the
    order its lists store them. *)
Definition Index : Type := list (float * Z).

Definition disk : dict Index :=
  [("/shards/2020-01-01_a.index", [(1 # 2, 10001); (1 # 10, 10002)]);
   ("/shards/2020-01-02_b.index", [(3 # 10, 20001)]);
   ("/shards/latest.index", [(1 # 10, 30001)])].

Definition read_index (path : string) : option Index := dict_get disk path.

Definition read_index_ondisk (path : string) : option Index := None.

(** All hits within [radius], in storage order. *)
Definition range_search (ix : Index) (nprobe : Z) (query : unit)
    (radius : float) : list float * list Z :=
  List.split (filter (fun hit => Qle_bool (fst hit) radius) ix).

Definition reshape (query : unit) : unit := query.

Fixpoint insert_hit (hit : float * Z) (l : list (float * Z))
  : list (float * Z) :=
  match l with
  | [] => [hit]
  | h :: rest =>
      if Qle_bool (fst hit) (fst h) then hit :: h :: rest
      else h :: insert_hit hit rest
  end.

(** Modelled from the spec: [joint_sort] of [base_indexer] (not part of
    the sources) returns the distances and ids sorted jointly by
    ascending distance. *)
Definition joint_sort (D : list (list float)) (I_ : list (list Z))
  : list (list float) * list (list Z) :=
  match D, I_ with
  | dd :: _, ii :: _ =>
      let sorted_hits := fold_right insert_hit [] (combine dd ii) in
      ([map fst sorted_hits], [map snd sorted_hits])
  | _, _ => ([], [])
  end.

Definition shard_a : RangeShards.Shard Index :=
  {| RangeShards.name := "/shards/2020-01-01_a";
     RangeShards.shard_index := [(1 # 2, 10001); (1 # 10, 10002)];
     RangeShards.shard_nprobe := 4 |}.

Definition shard_b : RangeShards.Shard Index :=
  {| RangeShards.name := "/shards/2020-01-02_b";
     RangeShards.shard_index := [(3 # 10, 20001)];
     RangeShards.shard_nprobe := 4 |}.

Definition shard_latest : RangeShards.Shard Index :=
  {| RangeShards.name := "/shards/latest";
     RangeShards.shard_index := [(1 # 10, 30001)];
     RangeShards.shard_nprobe := 4 |}.

(** The handler over the two dated shards. *)
Definition dated_handler : RangeShards.handler Index :=
  {| RangeShards.paths_to_shards :=
       ["/shards/2020-01-01_a.index"; "/shards/2020-01-02_b.index"];
     RangeShards.nprobe := 4;
     RangeShards.dynamic := true;
     RangeShards.lock := false;
     RangeShards.results := [];
     RangeShards.shards :=
       [("/shards/2020-01-01_a", shard_a); ("/shards/2020-01-02_b", shard_b)];
     RangeShards.n_shards := 2 |}.

(** The handler over a dated shard and one whose name has no date. *)
Definition undated_handler : RangeShards.handler Index :=
  {| RangeShards.paths_to_shards :=
       ["/shards/2020-01-01_a.index"; "/shards/latest.index"];
     RangeShards.nprobe := 4;
     RangeShards.dynamic := true;
     RangeShards.lock := false;
     RangeShards.results := [];
     RangeShards.shards :=
       [("/shards/2020-01-01_a", shard_a); ("/shards/latest", shard_latest)];
     RangeShards.n_shards := 2 |}.

(** The handler mounted on [/shards/latest.index] that was then given a
    dated shard. *)
Definition latest_first_handler : RangeShards.handler Index :=
  {| RangeShards.paths_to_shards :=
       ["/shards/latest.index"; "/shards/2020-01-01_a.index"];
     RangeShards.nprobe := 4;
     RangeShards.dynamic := true;
     RangeShards.lock := false;
     RangeShards.results := [];
     RangeShards.shards :=
       [("/shards/latest", shard_latest); ("/shards/2020-01-01_a", shard_a)];
     RangeShards.n_shards := 1 |}.

Definition deployed : DeployShards.handler Index :=
  {| DeployShards.paths_to_shards := ["/shards/2020-01-01_a.index"];
     DeployShards.nprobe := 4;
     DeployShards.index := [([(1 # 2, 10001); (1 # 10, 10002)], 4)] |}.

(** Builder scenario: [nlist = 16], [code_size = 8], three sub-indexes
    with list sizes [3, 5, 0, ...], [1, 0, 2, ...] and [0, 0, 1, ...]. *)
Definition Code : Type := nat.

Definition entries_from (first : Z) (n : nat) : list (Code * Z) :=
  map (fun i => (i, first + Z.of_nat i)) (seq 0 n).

Definition store (sizes : list nat) (first : Z) : Faiss.InvertedLists Code :=
  {| Faiss.il_nlist := 16;
     Faiss.il_code_size := 8;
     Faiss.il_lists :=
       map (fun c => entries_from (first + 100 * Z.of_nat c) (nth c sizes O))
         (seq 0 16) |}.

Definition subindex (sizes : list nat) (first : Z) : Faiss.Index Code :=
  {| Faiss.is_trained := true;
     Faiss.ntotal := Z.of_nat (list_sum sizes);
     Faiss.nlist := 16;
     Faiss.code_size := 8;
     Faiss.invlists := store sizes first |}.

Definition base_index : Faiss.Index Code := subindex [] 0.

Definition sources : list (Faiss.InvertedLists Code) :=
  [store [3; 5]%nat 10000; store [1; 0; 2]%nat 20000; store [0; 0; 1]%nat 30000].

Definition files : Faiss.filesystem Code :=
  [("/idx/base.index", Faiss.IndexFile base_index);
   ("/idx/sub1.index", Faiss.IndexFile (subindex [3; 5]%nat 10000));
   ("/idx/sub2.index", Faiss.IndexFile (subindex [1; 0; 2]%nat 20000));
   ("/idx/sub3.index", Faiss.IndexFile (subindex [0; 0; 1]%nat 30000))].

Definition sub_paths : list string :=
  ["/idx/sub1.index"; "/idx/sub2.index"; "/idx/sub3.index"].

Definition builder : OnDiskIVFBuilder.builder :=
  {| OnDiskIVFBuilder.path_to_base_index := "/idx/base.index";
     OnDiskIVFBuilder.subindex_path_totals := [] |}.

Definition old_builder : DiskBuilderIVF.builder Code :=
  {| DiskBuilderIVF.path_to_empty_index := "/idx/base.index";
     DiskBuilderIVF.invlist_paths := sub_paths;
     DiskBuilderIVF.index := None |}.

(** Embeddings are reduced to their centroid; the code is the centroid. *)
Definition assign (v : nat) : nat := v.
Definition encode (v : nat) : Code := v.

(** Every directory can be written but [/missing/]. *)
Definition writable (path : string) : bool :=
  negb (String.prefix "/missing/" path).

End Scenario.

(** ** Further scenarios *)

Module MoreScenario.
Import Py.

(** A handler of [dt_sim_api] that answers every query with
    [Scenario.found]. *)
Definition api_indexer_search (ix : unit) (query_vector : unit) (k : Z)
  : result (list (list float) * list (list Z)) * unit :=
  (Ok Scenario.found, ix).

(** A handler over one shard, kept below a directory named after the
    day it was built. *)
Definition nested_handler : RangeShards.handler Scenario.Index :=
  {| RangeShards.paths_to_shards := ["/built_2021-06-30/2020-01-02_b.index"];
     RangeShards.nprobe := 4;
     RangeShards.dynamic := true;
     RangeShards.lock := false;
     RangeShards.results := [];
     RangeShards.shards :=
       [("/built_2021-06-30/2020-01-02_b",
         {| RangeShards.name := "/built_2021-06-30/2020-01-02_b";
            RangeShards.shard_index := [((3 # 10)%Q, 20001)];
            RangeShards.shard_nprobe := 4 |})];
     RangeShards.n_shards := 1 |}.

(** The shard files of [Scenario.disk] and one more. *)
Definition disk : dict Scenario.Index :=
  Scenario.disk ++ [("/shards/2020-01-03_c.index", [((3 # 10)%Q, 40001)])].

Definition read_index (path : string) : option Scenario.Index :=
  dict_get disk path.

(** A builder that has catalogued the first sub-index of
    [Scenario.files]. *)
Definition catalogued_builder : OnDiskIVFBuilder.builder :=
  {| OnDiskIVFBuilder.path_to_base_index := "/idx/base.index";
     OnDiskIVFBuilder.subindex_path_totals := [("/idx/sub1.index", 8)] |}.

(** Three daily indexes of one date, waiting to be zipped. *)
Definition moving_indexes : list string :=
  ["/mv/2020-01-01_a.index"; "/mv/2020-01-01_b.index";
   "/mv/2020-01-01_c.index"].

(** Daily indexes of two days, two of them of the same day. *)
Definition paired_indexes : list string :=
  ["/mv/2020-01-01_a.index"; "/mv/2020-01-02_b.index";
   "/mv/2020-01-01_c.index"].

(** An index and its data file in [/mv], beside the base index. *)
Definition moving_files : Faiss.filesystem Scenario.Code :=
  [("/idx/base.index", Faiss.IndexFile Scenario.base_index);
   ("/mv/2020-01-01_a.index",
    Faiss.IndexFile (Scenario.subindex [3; 5]%nat 10000));
   ("/mv/2020-01-01_a.ivfdata",
    Faiss.DataFile (Faiss.il_lists (Scenario.store [3; 5]%nat 10000)))].

Definition moving_disk : MoveIndex.disk Scenario.Code :=
  {| MoveIndex.files := moving_files; MoveIndex.dirs := ["/idx"; "/mv"; "/to"] |}.

(** An [os.mkdir] that always succeeds. *)
Definition os_mkdir (dirs : list string) (path : string) : result (list string) :=
  Ok (dirs ++ [path]).

(** A model that embeds a sentence as its length. *)
Definition run_model (batch : list string) : list nat :=
  map String.length batch.

End MoreScenario.

(** * Properties *)

(** ** Facts about the built-ins *)

Module PyFacts.
Import Py Predicates.

Lemma leb_refl (s : string) : String.leb s s = true.
Proof.
  unfold String.leb.
  destruct (String.compare s s) eqn:E; auto.
  pose proof (String.compare_antisym s s) as H.
  rewrite E in H. discriminate.
Qed.

Lemma leb_cases (a b : string) :
  String.leb a b = true <-> a = b \/ OrderedTypeEx.String_as_OT.lt a b.
Proof.
  unfold String.leb.
  destruct (String.compare a b) eqn:E; split; intros H; auto.
  - left. now apply String.compare_eq_iff.
  - right. now apply OrderedTypeEx.String_as_OT.cmp_lt.
  - discriminate.
  - destruct H as [-> | H].
    + pose proof (String.compare_antisym b b) as H.
      rewrite E in H. discriminate.
    + apply OrderedTypeEx.String_as_OT.cmp_lt in H.
      unfold OrderedTypeEx.String_as_OT.cmp in H. congruence.
Qed.

Lemma leb_trans (a b c : string) :
  String.leb a b = true -> String.leb b c = true -> String.leb a c = true.
Proof.
  rewrite !leb_cases.
  intros [-> | Hab] [-> | Hbc]; auto.
  right. eapply OrderedTypeEx.String_as_OT.lt_trans; eassumption.
Qed.

Lemma leb_false_flip (a b : string) :
  String.leb a b = false -> String.leb b a = true.
Proof.
  intros H. destruct (String.leb_total a b) as [E | E]; congruence.
Qed.

Lemma In_firstn {A} (n : nat) (l : list A) (x : A) :
  In x (firstn n l) -> In x l.
Proof.
  intros H. rewrite <- (firstn_skipn n l). apply in_or_app. now left.
Qed.

Section Sorting.

Context {A : Type} (key : A -> string).

Lemma insert_by_perm (x : A) (l : list A) :
  Permutation (insert_by key x l) (x :: l).
Proof.
  induction l as [| y ys IH]; simpl.
  - apply Permutation_refl.
  - destruct (String.leb (key x) (key y)).
    + apply Permutation_refl.
    + eapply perm_trans; [apply perm_skip, IH | apply perm_swap].
Qed.

Lemma sorted_by_perm (l : list A) : Permutation (sorted_by key l) l.
Proof.
  induction l as [| x xs IH]; simpl.
  - constructor.
  - eapply perm_trans; [apply insert_by_perm | now apply perm_skip].
Qed.

Lemma sorted_by_In (l : list A) (x : A) : In x (sorted_by key l) <-> In x l.
Proof.
  split; apply Permutation_in;
    [apply sorted_by_perm | apply Permutation_sym, sorted_by_perm].
Qed.

Lemma sorted_by_length (l : list A) :
  List.length (sorted_by key l) = List.length l.
Proof. apply Permutation_length, sorted_by_perm. Qed.

Lemma insert_by_hd (x a : A) (l : list A) :
  key_le key a x -> HdRel (key_le key) a l ->
  HdRel (key_le key) a (insert_by key x l).
Proof.
  intros Hax Hl. destruct l as [| y ys]; simpl.
  - now constructor.
  - destruct (String.leb (key x) (key y)); constructor; auto.
    now inversion Hl.
Qed.

Lemma insert_by_sorted (x : A) (l : list A) :
  Sorted (key_le key) l -> Sorted (key_le key) (insert_by key x l).
Proof.
  induction 1 as [| y ys Hs IH Hhd]; simpl.
  - repeat constructor.
  - destruct (String.leb (key x) (key y)) eqn:E.
    + constructor; [now constructor | now constructor].
    + constructor; [exact IH |].
      apply insert_by_hd; [| exact Hhd].
      now apply leb_false_flip.
Qed.

Lemma sorted_by_sorted (l : list A) : Sorted (key_le key) (sorted_by key l).
Proof.
  induction l as [| x xs IH]; simpl.
  - constructor.
  - now apply insert_by_sorted.
Qed.

Lemma key_le_trans : Relations_1.Transitive (key_le key).
Proof. intros a b c. unfold key_le. apply leb_trans. Qed.

Lemma sorted_by_strongly_sorted (l : list A) :
  StronglySorted (key_le key) (sorted_by key l).
Proof.
  apply Sorted_StronglySorted; [exact key_le_trans | apply sorted_by_sorted].
Qed.

Lemma firstn_strongly_sorted (n : nat) (l : list A) :
  StronglySorted (key_le key) l -> StronglySorted (key_le key) (firstn n l).
Proof.
  revert n. induction l as [| x xs IH]; intros n H.
  - rewrite firstn_nil. constructor.
  - destruct n as [| n]; simpl; [constructor |].
    inversion H as [| ? ? Hs Hall]; subst.
    constructor; [now apply IH |].
    rewrite Forall_forall in *. intros y Hy.
    apply Hall. eapply In_firstn. exact Hy.
Qed.

End Sorting.

Lemma slice_to_incl {A} (l : list A) (k : Z) (x : A) :
  In x (slice_to l k) -> In x l.
Proof.
  unfold slice_to. destruct (0 <=? k); apply In_firstn.
Qed.

Lemma slice_to_length {A} (l : list A) (k : Z) :
  0 <= k -> Z.of_nat (List.length (slice_to l k)) <= k.
Proof.
  intros Hk. unfold slice_to.
  destruct (0 <=? k) eqn:E; [| lia].
  rewrite length_firstn. lia.
Qed.

(** [str] of an integer can be read back. *)
Lemma to_int_proper (n : Z) :
  Z.to_int n <> Decimal.Pos Decimal.Nil /\ Z.to_int n <> Decimal.Neg Decimal.Nil.
Proof.
  destruct n as [| p | p]; simpl; split; try discriminate;
    intros H; injection H as H;
    now apply (DecimalPos.Unsigned.to_uint_nonnil p).
Qed.

Lemma int_str_int (n : Z) : Py.int (str_int n) = Ok n.
Proof.
  unfold Py.int, str_int.
  destruct (to_int_proper n) as [Hp Hn].
  rewrite NilZero.isi by assumption.
  now rewrite DecimalZ.of_to.
Qed.

Lemma str_int_inj (n m : Z) : str_int n = str_int m -> n = m.
Proof.
  intros H.
  pose proof (int_str_int n) as Hn. rewrite H, int_str_int in Hn.
  congruence.
Qed.

(** Dictionaries. *)
Section Dict.

Context {V : Type}.

Lemma dict_get_set_same (d : dict V) (k : string) (v : V) :
  dict_get (dict_set d k v) k = Some v.
Proof.
  induction d as [| [k' v'] rest IH]; simpl.
  - now rewrite String.eqb_refl.
  - destruct (String.eqb k' k) eqn:E; simpl; rewrite E; auto.
Qed.

Lemma dict_get_set_other (d : dict V) (k k' : string) (v : V) :
  k <> k' -> dict_get (dict_set d k v) k' = dict_get d k'.
Proof.
  intros Hk. induction d as [| [k0 v0] rest IH]; simpl.
  - destruct (String.eqb_spec k k'); [contradiction | reflexivity].
  - destruct (String.eqb_spec k0 k) as [-> | Hne]; simpl.
    + destruct (String.eqb_spec k k'); [contradiction | reflexivity].
    + now rewrite IH.
Qed.

Lemma dict_set_set (d : dict V) (k : string) (v v' : V) :
  dict_set (dict_set d k v) k v' = dict_set d k v'.
Proof.
  induction d as [| [k0 v0] rest IH]; simpl.
  - now rewrite String.eqb_refl.
  - destruct (String.eqb k0 k) eqn:E; simpl; rewrite E; congruence.
Qed.

Lemma dict_set_In (d : dict V) (k : string) (v : V) (e : string * V) :
  In e (dict_set d k v) -> e = (k, v) \/ In e d.
Proof.
  induction d as [| [k0 v0] rest IH]; simpl.
  - intros [<- | []]. now left.
  - destruct (String.eqb_spec k0 k) as [-> | Hne]; simpl.
    + intros [<- | H]; auto.
    + intros [<- | H]; auto. destruct (IH H); auto.
Qed.

Lemma dict_set_Forall (P : string * V -> Prop) (d : dict V) (k : string)
    (v : V) :
  Forall P d -> P (k, v) -> Forall P (dict_set d k v).
Proof.
  intros Hd Hv. rewrite Forall_forall in *.
  intros e He. destruct (dict_set_In _ _ _ _ He) as [-> | H]; auto.
Qed.

Lemma dict_get_In (d : dict V) (k : string) (v : V) :
  dict_get d k = Some v -> In (k, v) d.
Proof.
  induction d as [| [k0 v0] rest IH]; simpl; [discriminate |].
  destruct (String.eqb_spec k0 k) as [-> | Hne].
  - intros [= ->]. now left.
  - intros H. right. now apply IH.
Qed.

End Dict.

(** Loops whose body may raise. *)
Lemma mapM_ok {A B} (f : A -> result B) (l : list A) :
  Forall (fun x => exists y, f x = Ok y) l ->
  exists ys, mapM f l = Ok ys.
Proof.
  induction 1 as [| x xs [y Hy] _ [ys IH]]; simpl.
  - now exists [].
  - rewrite Hy. simpl. rewrite IH. simpl. now exists (y :: ys).
Qed.

Lemma mapM_In {A B} (f : A -> result B) (l : list A) (ys : list B) (y : B) :
  mapM f l = Ok ys -> In y ys -> exists x, In x l /\ f x = Ok y.
Proof.
  revert ys. induction l as [| x xs IH]; simpl; intros ys H Hy.
  - injection H as <-. destruct Hy.
  - destruct (f x) as [y0 |] eqn:Ex; simpl in H; [| discriminate].
    destruct (mapM f xs) as [ys0 |] eqn:Exs; simpl in H; [| discriminate].
    injection H as <-. destruct Hy as [<- | Hy].
    + exists x. auto.
    + destruct (IH ys0 eq_refl Hy) as [x' [Hx' Hf]]. exists x'. auto.
Qed.

Lemma mapM_length {A B} (f : A -> result B) (l : list A) (ys : list B) :
  mapM f l = Ok ys -> List.length ys = List.length l.
Proof.
  revert ys. induction l as [| x xs IH]; simpl; intros ys H.
  - now injection H as <-.
  - destruct (f x) as [y0 |]; simpl in H; [| discriminate].
    destruct (mapM f xs) as [ys0 |]; simpl in H; [| discriminate].
    injection H as <-. simpl. f_equal. now apply IH.
Qed.

End PyFacts.

(** ** The query processor *)

Module QueryProcessorFacts.
Import Py Predicates PyFacts QueryProcessor.

Section Processor.

Variable str_float : float -> string.

#[local] Abbreviation add_hit := (add_hit str_float).
#[local] Abbreviation collect_docs := (collect_docs str_float).
#[local] Abbreviation aggregate_docs := (aggregate_docs str_float).

(** One turn of the loop, in one step. *)
Lemma add_hit_eq (docs : DocPayload) (score : float) (faiss_id : Z) :
  add_hit docs (score, faiss_id) =
  if 0 <? faiss_id then
    dict_set docs (str_int (faiss_id / 10000))
      (hits_of docs (str_int (faiss_id / 10000))
       ++ [(min_diff_cutoff str_float score, str_int faiss_id)])
  else docs.
Proof.
  unfold QueryProcessor.add_hit, hits_of, dict_mem.
  destruct (0 <? faiss_id); [| reflexivity].
  destruct (dict_get docs (str_int (faiss_id / 10000))) as [hits |] eqn:E;
    simpl.
  - now rewrite E.
  - rewrite dict_get_set_same. now rewrite dict_set_set.
Qed.

Lemma sort_score_ids_perm (l : rawScoreIDs) :
  Permutation (sort_score_ids l) l.
Proof.
  unfold sort_score_ids. destruct (negb (already_sorted l)).
  - apply sorted_by_perm.
  - apply Permutation_refl.
Qed.

Lemma keep_unique_Forall (P : string * rawScoreIDs -> Prop)
    (docs : DocPayload) :
  sort_stable P -> Forall P docs ->
  forall acc, Forall P (fst acc) -> Forall P (fst (fold_left keep_unique docs acc)).
Proof.
  intros HP. induction 1 as [| [k l] rest Hk _ IH]; intros [doc_hits seen] Hacc;
    simpl; [exact Hacc |].
  apply IH. destruct (negb (hash_mem _ seen)); simpl; [| exact Hacc].
  apply dict_set_Forall; auto.
Qed.

Lemma keep_all_Forall (P : string * rawScoreIDs -> Prop) (docs : DocPayload) :
  sort_stable P -> Forall P docs ->
  forall acc, Forall P acc -> Forall P (fold_left keep_all docs acc).
Proof.
  intros HP. induction 1 as [| [k l] rest Hk _ IH]; intros acc Hacc;
    simpl; [exact Hacc |].
  apply IH. apply dict_set_Forall; auto.
Qed.

Lemma aggregate_docs_Forall (P : string * rawScoreIDs -> Prop)
    (scores : DiffScores) (faiss_ids : VectorIDs) (unique : bool)
    (doc_hits : DocPayload) :
  sort_stable P ->
  (forall scores0 ids0, item0 scores = Ok scores0 -> item0 faiss_ids = Ok ids0 ->
     Forall P (collect_docs scores0 ids0)) ->
  aggregate_docs scores faiss_ids unique = Ok doc_hits ->
  Forall P doc_hits.
Proof.
  intros HP Hc. unfold QueryProcessor.aggregate_docs.
  destruct (item0 scores) as [scores0 |]; simpl; [| discriminate].
  destruct (item0 faiss_ids) as [ids0 |]; simpl; [| discriminate].
  specialize (Hc scores0 ids0 eq_refl eq_refl).
  destruct unique; intros [= <-].
  - apply keep_unique_Forall; auto.
  - apply keep_all_Forall; auto.
Qed.

Lemma add_hit_has_hit (docs : DocPayload) (hit : float * Z) :
  Forall has_hit docs -> Forall has_hit (add_hit docs hit).
Proof.
  destruct hit as [score faiss_id]. intros H. rewrite add_hit_eq.
  destruct (0 <? faiss_id); [| exact H].
  apply dict_set_Forall; [exact H |].
  unfold has_hit. simpl. intros E. now apply app_eq_nil in E as [_ E].
Qed.

Lemma collect_docs_has_hit (scores0 : list float) (ids0 : list Z) :
  Forall has_hit (collect_docs scores0 ids0).
Proof.
  unfold QueryProcessor.collect_docs.
  assert (G : forall l docs, Forall has_hit docs ->
                Forall has_hit (fold_left add_hit l docs)).
  { induction l as [| h l IH]; simpl; intros docs H; [exact H |].
    apply IH. now apply add_hit_has_hit. }
  apply G. constructor.
Qed.

Lemma has_hit_sort_stable : sort_stable has_hit.
Proof.
  intros k l. unfold has_hit. simpl. intros H E. apply H.
  pose proof (Permutation_length (sort_score_ids_perm l)) as HL.
  rewrite E in HL. destruct l; [reflexivity | discriminate].
Qed.

Lemma format_payload_docs_ok (doc_hits : DocPayload) :
  Forall has_hit doc_hits -> exists payload, format_payload_docs doc_hits = Ok payload.
Proof.
  intros H. unfold format_payload_docs.
  destruct (mapM_ok doc_record doc_hits) as [ys Hys].
  - eapply Forall_impl; [| exact H].
    intros [k l] Hl. unfold has_hit in Hl. simpl in *.
    destruct l as [| [sc sid] l]; [contradiction |].
    simpl. eauto.
  - rewrite Hys. simpl. eauto.
Qed.

Lemma format_payload_singles_ok (doc_hits : DocPayload) :
  Forall has_hit doc_hits ->
  exists payload, format_payload_singles doc_hits = Ok payload.
Proof.
  intros H. unfold format_payload_singles.
  destruct (mapM_ok single_record doc_hits) as [ys Hys].
  - eapply Forall_impl; [| exact H].
    intros [k l] Hl. unfold has_hit in Hl. simpl in *.
    destruct l as [| [sc sid] l]; [contradiction |].
    simpl. eauto.
  - rewrite Hys. simpl. eauto.
Qed.

Lemma aggregate_docs_has_hit (scores : DiffScores) (faiss_ids : VectorIDs)
    (unique : bool) (doc_hits : DocPayload) :
  aggregate_docs scores faiss_ids unique = Ok doc_hits ->
  Forall has_hit doc_hits.
Proof.
  intros E.
  eapply aggregate_docs_Forall; [apply has_hit_sort_stable | | exact E].
  intros. apply collect_docs_has_hit.
Qed.

Lemma aggregate_docs_ok (scores0 : list float) (scores' : DiffScores)
    (ids0 : list Z) (ids' : VectorIDs) (unique : bool) :
  exists doc_hits,
    aggregate_docs (scores0 :: scores') (ids0 :: ids') unique = Ok doc_hits.
Proof.
  unfold QueryProcessor.aggregate_docs. simpl. destruct unique; eauto.
Qed.

(** C10: every entry of the dictionary [aggregate_docs] returns holds a
    non-empty list of [(score, id)] pairs, so that on it neither
    [min] in [format_payload_docs] nor [score_ids[0]] in
    [format_payload_singles] fails: both formatters return a payload.
    [aggregate_docs] itself raises only [IndexError], when [scores] or
    [faiss_ids] has no row. *)
Theorem aggregate_docs_entries_nonempty (scores : DiffScores)
    (faiss_ids : VectorIDs) (require_unique_score : bool) :
  match aggregate_docs scores faiss_ids require_unique_score with
  | Ok doc_hits =>
      Forall (fun entry => snd entry <> []) doc_hits
      /\ (exists payload, format_payload_docs doc_hits = Ok payload)
      /\ (exists payload, format_payload_singles doc_hits = Ok payload)
  | Raise e => e = IndexError /\ (scores = [] \/ faiss_ids = [])
  end.
Proof.
  destruct (aggregate_docs scores faiss_ids require_unique_score)
    as [doc_hits | e] eqn:E.
  - pose proof (aggregate_docs_has_hit _ _ _ _ E) as H.
    split; [exact H | split].
    + now apply format_payload_docs_ok.
    + now apply format_payload_singles_ok.
  - unfold QueryProcessor.aggregate_docs in E.
    destruct scores as [| s0 ?]; simpl in E; [injection E as <-; auto |].
    destruct faiss_ids as [| i0 ?]; simpl in E; [injection E as <-; auto |].
    destruct require_unique_score; discriminate.
Qed.

(** [max] on floats is the larger of its arguments. *)
Lemma max_floor (score cutoff : float) :
  (cutoff <= Py.max score cutoff)%Q
  /\ (score <= Py.max score cutoff)%Q
  /\ (Py.max score cutoff = score \/ Py.max score cutoff = cutoff).
Proof.
  unfold Py.max, float_gt.
  destruct (Qle_bool cutoff score) eqn:E; simpl.
  - apply Qle_bool_iff in E. repeat split; auto. apply Qle_refl.
  - repeat split; auto; [apply Qle_refl |].
    destruct (Qlt_le_dec score cutoff) as [H | H].
    + now apply Qlt_le_weak.
    + apply Qle_bool_iff in H. congruence.
Qed.

Lemma api_add_hit_eq (docs : ApiQueryProcessor.DocHits) (score : float)
    (faiss_id : Z) :
  ApiQueryProcessor.add_hit docs (score, faiss_id) =
  dict_set docs (str_int (faiss_id / 10000))
    (api_hits_of docs (str_int (faiss_id / 10000))
     ++ [(ApiQueryProcessor.min_diff_cutoff score, faiss_id)]).
Proof.
  unfold ApiQueryProcessor.add_hit, api_hits_of, dict_mem.
  destruct (dict_get docs (str_int (faiss_id / 10000))) as [hits |] eqn:E;
    simpl.
  - now rewrite E.
  - rewrite dict_get_set_same. now rewrite dict_set_set.
Qed.

(** C6, amended: for every [(score, id)] pair with [id > 0] and every
    state of the loop, [dt_sim]'s [aggregate_docs] appends
    [(str(max(score, 0.01)), str(id))] to the hit list of document
    [id / 10000], so its floor is 0.01; [dt_sim_api]'s [aggregate_docs]
    appends [(max(score, 0.1), id)]: its floor is 0.1. *)
Theorem aggregate_docs_score_floor (docs : DocPayload)
    (api_docs : ApiQueryProcessor.DocHits) (score : float) (faiss_id : Z) :
  0 < faiss_id ->
  let doc_id := str_int (faiss_id / 10000) in
  (dict_get (add_hit docs (score, faiss_id)) doc_id
   = Some (hits_of docs doc_id
           ++ [(str_float (Py.max score (1 # 100)), str_int faiss_id)])
   /\ (1 # 100 <= Py.max score (1 # 100))%Q
   /\ (score <= Py.max score (1 # 100))%Q
   /\ (Py.max score (1 # 100) = score \/ Py.max score (1 # 100) = 1 # 100))
  /\
  (dict_get (ApiQueryProcessor.add_hit api_docs (score, faiss_id)) doc_id
   = Some (api_hits_of api_docs doc_id ++ [(Py.max score (1 # 10), faiss_id)])
   /\ (1 # 10 <= Py.max score (1 # 10))%Q
   /\ (score <= Py.max score (1 # 10))%Q
   /\ (Py.max score (1 # 10) = score \/ Py.max score (1 # 10) = 1 # 10)).
Proof.
  intros Hid doc_id. split.
  - split; [| apply max_floor].
    rewrite add_hit_eq.
    apply Z.ltb_lt in Hid. rewrite Hid.
    now rewrite dict_get_set_same.
  - split; [| apply max_floor].
    rewrite api_add_hit_eq. now rewrite dict_get_set_same.
Qed.

Lemma hits_of_grouped (ids0 : list Z) (docs : DocPayload) (doc_id : string) :
  Forall (grouped ids0) docs -> grouped ids0 (doc_id, hits_of docs doc_id).
Proof.
  intros H. unfold hits_of.
  destruct (dict_get docs doc_id) as [hits |] eqn:E; [| constructor].
  apply dict_get_In in E. rewrite Forall_forall in H. exact (H _ E).
Qed.

Lemma add_hit_grouped (ids0 : list Z) (docs : DocPayload) (hit : float * Z) :
  In (snd hit) ids0 ->
  Forall (grouped ids0) docs -> Forall (grouped ids0) (add_hit docs hit).
Proof.
  destruct hit as [score faiss_id]. intros Hin H. simpl in Hin.
  rewrite add_hit_eq.
  destruct (0 <? faiss_id) eqn:Hpos; [| exact H].
  apply dict_set_Forall; [exact H |].
  unfold grouped. simpl. apply Forall_app. split.
  - exact (hits_of_grouped ids0 docs _ H).
  - constructor; [| constructor]. simpl.
    exists faiss_id. apply Z.ltb_lt in Hpos. auto.
Qed.

Lemma collect_docs_grouped (scores0 : list float) (ids0 : list Z) :
  Forall (grouped ids0) (collect_docs scores0 ids0).
Proof.
  unfold QueryProcessor.collect_docs.
  assert (G : forall l docs, (forall h, In h l -> In (snd h) ids0) ->
                Forall (grouped ids0) docs ->
                Forall (grouped ids0) (fold_left add_hit l docs)).
  { induction l as [| h l IH]; simpl; intros docs Hl H; [exact H |].
    apply IH; [auto |]. apply add_hit_grouped; auto. }
  apply G; [| constructor].
  intros [sc i] Hh. simpl. unfold zip in Hh. eapply in_combine_r. exact Hh.
Qed.

Lemma grouped_sort_stable (ids0 : list Z) : sort_stable (grouped ids0).
Proof.
  intros k l. unfold grouped. simpl.
  apply Permutation_Forall, Permutation_sym, sort_score_ids_perm.
Qed.

Lemma aggregate_docs_grouped (scores : DiffScores) (faiss_ids : VectorIDs)
    (unique : bool) (doc_hits : DocPayload) :
  aggregate_docs scores faiss_ids unique = Ok doc_hits ->
  exists ids0, item0 faiss_ids = Ok ids0 /\ Forall (grouped ids0) doc_hits.
Proof.
  intros E.
  destruct (item0 faiss_ids) as [ids0 |] eqn:Eids.
  - exists ids0. split; [reflexivity |].
    eapply aggregate_docs_Forall; [apply grouped_sort_stable | | exact E].
    intros scores0 ids0' _ H. rewrite Eids in H. injection H as <-.
    apply collect_docs_grouped.
  - unfold QueryProcessor.aggregate_docs in E. rewrite Eids in E.
    destruct (item0 scores); discriminate.
Qed.

Lemma doc_record_grouped (ids0 : list Z) (e : string * rawScoreIDs)
    (h : DocHit) (s : string) :
  grouped ids0 e -> doc_record e = Ok h -> In s (hit_ids h) ->
  id_of_doc ids0 (hit_doc_id h) s.
Proof.
  destruct e as [k l]. unfold grouped, doc_record. simpl. intros G E Hs.
  destruct (Py.min (map fst l)); simpl in E; [| discriminate].
  injection E as <-. simpl in *.
  rewrite map_map in Hs. apply in_map_iff in Hs as [[sc sid] [<- Hin]].
  rewrite Forall_forall in G. exact (G _ Hin).
Qed.

Lemma single_record_grouped (ids0 : list Z) (e : string * rawScoreIDs)
    (h : DocHit) (s : string) :
  grouped ids0 e -> single_record e = Ok h -> In s (hit_ids h) ->
  id_of_doc ids0 (hit_doc_id h) s.
Proof.
  destruct e as [k l]. unfold grouped, single_record. simpl. intros G E Hs.
  destruct l as [| [sc sid] l]; simpl in E; [discriminate |].
  injection E as <-. simpl in *. destruct Hs as [<- | []].
  now inversion G.
Qed.

Lemma api_collect_grouped (scores0 : list float) (ids0 : list Z) :
  Forall (api_grouped ids0)
    (fold_left ApiQueryProcessor.add_hit (zip scores0 ids0) []).
Proof.
  assert (G : forall l docs, (forall h, In h l -> In (snd h) ids0) ->
                Forall (api_grouped ids0) docs ->
                Forall (api_grouped ids0)
                  (fold_left ApiQueryProcessor.add_hit l docs)).
  { induction l as [| [sc i] l IH]; cbn [fold_left]; intros docs Hl H;
      [exact H |].
    apply IH; [intros h Hh; apply Hl; now right |]. rewrite api_add_hit_eq.
    apply dict_set_Forall; [exact H |].
    exists (i / 10000). simpl. split; [reflexivity |].
    apply Forall_app. split.
    - unfold api_hits_of.
      destruct (dict_get docs (str_int (i / 10000))) as [hits |] eqn:E;
        [| constructor].
      apply dict_get_In in E. rewrite Forall_forall in H.
      destruct (H _ E) as [d [Hd Hall]]. simpl in *.
      apply str_int_inj in Hd. now subst d.
    - constructor; [| constructor]. simpl. split; [reflexivity |].
      apply (Hl (sc, i)). now left. }
  apply G; [| constructor].
  intros [sc i] Hh. simpl. unfold zip in Hh. eapply in_combine_r. exact Hh.
Qed.

Lemma api_format_payload_ok (ids0 : list Z) (docs : ApiQueryProcessor.DocHits) :
  Forall (api_grouped ids0) docs ->
  exists payload, ApiQueryProcessor.format_payload str_float docs = Ok payload.
Proof.
  intros H. unfold ApiQueryProcessor.format_payload.
  destruct (mapM_ok (ApiQueryProcessor.doc_records str_float) docs)
    as [groups Hg].
  - eapply Forall_impl; [| exact H].
    intros [k hits] [d [Hd _]]. simpl in Hd. subst k.
    unfold ApiQueryProcessor.doc_records. rewrite int_str_int. simpl.
    destruct (0 <? d); eauto.
  - rewrite Hg. simpl. eauto.
Qed.

Lemma api_format_payload_ids (ids0 : list Z) (docs : ApiQueryProcessor.DocHits)
    (payload : list ApiQueryProcessor.Hit) (h : ApiQueryProcessor.Hit) :
  Forall (api_grouped ids0) docs ->
  ApiQueryProcessor.format_payload str_float docs = Ok payload ->
  In h payload ->
  api_id_of_doc ids0 docs (ApiQueryProcessor.sentence_id h).
Proof.
  intros G E Hh. unfold ApiQueryProcessor.format_payload in E.
  destruct (mapM (ApiQueryProcessor.doc_records str_float) docs)
    as [groups |] eqn:Eg; simpl in E; [| discriminate].
  injection E as <-. apply sorted_by_In in Hh.
  apply in_concat in Hh as [group [Hgroup Hh]].
  destruct (mapM_In _ _ _ _ Eg Hgroup) as [[k hits] [He Hrec]].
  rewrite Forall_forall in G. destruct (G _ He) as [d [Hd Hall]].
  simpl in Hd, Hall. subst k.
  unfold ApiQueryProcessor.doc_records in Hrec.
  rewrite int_str_int in Hrec. simpl in Hrec.
  destruct (0 <? d) eqn:Hpos; injection Hrec as <-; [| destruct Hh].
  apply in_map_iff in Hh as [[sc i] [<- Hin]]. simpl.
  rewrite Forall_forall in Hall. destruct (Hall _ Hin) as [Hdiv Hids].
  simpl in Hdiv, Hids. apply Z.ltb_lt in Hpos.
  exists i. repeat split; auto.
  - destruct (Z_lt_le_dec 0 i) as [Hgt | Hle]; [exact Hgt |].
    pose proof (Z.div_le_upper_bound i 10000 0). lia.
  - exists sc, hits. rewrite Hdiv. auto.
Qed.

(** C5: no id in a payload is [<= 0], and every id [i] of a record stands
    under the document [i / 10000].  In [dt_sim] each record of either
    formatter carries [doc_id = str(i / 10000)] for each of its ids [i];
    in [dt_sim_api], whose records carry no [doc_id], every [sentence_id]
    is a positive id that [aggregate_docs] grouped under the key
    [str(i / 10000)], and [format_payload] always returns.  Each such [i]
    is one of the ids of the search output. *)
Theorem payload_ids_positive_and_grouped (scores : DiffScores)
    (faiss_ids : VectorIDs) (require_unique_score rerank_by_doc : bool) :
  (forall doc_hits payload h s,
     aggregate_docs scores faiss_ids require_unique_score = Ok doc_hits ->
     (if rerank_by_doc then format_payload_docs doc_hits
      else format_payload_singles doc_hits) = Ok payload ->
     In h payload -> In s (hit_ids h) ->
     exists ids0 i,
       item0 faiss_ids = Ok ids0 /\ In i ids0 /\ s = str_int i /\ 0 < i
       /\ hit_doc_id h = str_int (i / 10000))
  /\
  (forall docs,
     ApiQueryProcessor.aggregate_docs scores faiss_ids = Ok docs ->
     exists ids0 payload,
       item0 faiss_ids = Ok ids0
       /\ ApiQueryProcessor.format_payload str_float docs = Ok payload
       /\ forall h, In h payload ->
            exists i sc hits,
              ApiQueryProcessor.sentence_id h = str_int i /\ 0 < i
              /\ In i ids0
              /\ In (str_int (i / 10000), hits) docs /\ In (sc, i) hits).
Proof.
  split.
  - intros doc_hits payload h s Hagg Hfmt Hh Hs.
    destruct (aggregate_docs_grouped _ _ _ _ Hagg) as [ids0 [Hids G]].
    exists ids0.
    assert (R : id_of_doc ids0 (hit_doc_id h) s).
    { rewrite Forall_forall in G.
      destruct rerank_by_doc.
      - unfold format_payload_docs in Hfmt.
        destruct (mapM doc_record doc_hits) as [p |] eqn:Ep; simpl in Hfmt;
          [| discriminate].
        injection Hfmt as <-. apply sorted_by_In in Hh.
        destruct (mapM_In _ _ _ _ Ep Hh) as [e [He Hrec]].
        eapply doc_record_grouped; eauto.
      - unfold format_payload_singles in Hfmt.
        destruct (mapM single_record doc_hits) as [p |] eqn:Ep; simpl in Hfmt;
          [| discriminate].
        injection Hfmt as <-. apply sorted_by_In in Hh.
        destruct (mapM_In _ _ _ _ Ep Hh) as [e [He Hrec]].
        eapply single_record_grouped; eauto. }
    destruct R as [i [Hs' [Hpos [Hdoc Hin]]]]. exists i. auto.
  - intros docs Hagg. unfold ApiQueryProcessor.aggregate_docs in Hagg.
    destruct (item0 scores) as [scores0 |]; simpl in Hagg; [| discriminate].
    destruct (item0 faiss_ids) as [ids0 |]; simpl in Hagg; [| discriminate].
    injection Hagg as <-.
    pose proof (api_collect_grouped scores0 ids0) as G.
    destruct (api_format_payload_ok ids0 _ G) as [payload Hp].
    exists ids0, payload. repeat split; auto.
    intros h Hh.
    destruct (api_format_payload_ids ids0 _ _ h G Hp Hh)
      as [i [Hs [Hpos [Hin [sc [hits [Hk Hhit]]]]]]].
    exists i, sc, hits. auto.
Qed.

Lemma format_payload_sorted (rerank_by_doc : bool) (doc_hits : DocPayload)
    (payload : SortedScoresIDs) :
  (if rerank_by_doc then format_payload_docs doc_hits
   else format_payload_singles doc_hits) = Ok payload ->
  StronglySorted (key_le hit_score) payload.
Proof.
  destruct rerank_by_doc; unfold format_payload_docs, format_payload_singles;
    intros H.
  - destruct (mapM doc_record doc_hits); simpl in H; [| discriminate].
    injection H as <-. apply sorted_by_strongly_sorted.
  - destruct (mapM single_record doc_hits); simpl in H; [| discriminate].
    injection H as <-. apply sorted_by_strongly_sorted.
Qed.

Variable QueryVector : Type.
Variable make_vectors : list string -> result QueryVector.
Variable Indexer : Type.
Variable indexer_search :
  Indexer -> QueryVector -> Z -> float -> string -> string ->
  result FaissSearch * Indexer.

#[local] Abbreviation query_corpus :=
  (query_corpus str_float make_vectors indexer_search).

(** What [query_corpus] keeps of its order: for every query string and
    every [k >= 0], a payload it returns holds at most [k] records and is
    sorted by the score strings the formatters put there, in the order
    in which Python compares strings; this is the order of the scores
    only while their strings compare as the numbers do.  A payload is
    returned whenever the vectorizer answers and the index handler
    returns a row of scores and a row of ids. *)
Theorem query_corpus_sorted_at_most_k (self : processor Indexer)
    (query_str : string) (k : Z) (radius : float) (start end_ : string)
    (rerank_by_doc : bool) :
  0 <= k ->
  (forall payload self',
     query_corpus self query_str k radius start end_ rerank_by_doc
     = (Ok payload, self') ->
     StronglySorted (fun a b => String.leb (hit_score a) (hit_score b) = true)
       payload
     /\ Z.of_nat (List.length payload) <= k)
  /\
  (forall query_vector scores0 scores' ids0 ids' ix,
     make_vectors [query_str] = Ok query_vector ->
     indexer_search (indexer self) query_vector k radius start end_
     = (Ok (scores0 :: scores', ids0 :: ids'), ix) ->
     exists payload self',
       query_corpus self query_str k radius start end_ rerank_by_doc
       = (Ok payload, self')).
Proof.
  intros Hk. unfold QueryProcessor.query_corpus, vectorize. split.
  - intros payload self'.
    destruct (make_vectors [query_str]) as [qv |]; [| discriminate].
    destruct (indexer_search (indexer self) qv k radius start end_)
      as [found ix].
    destruct found as [[scores faiss_ids] |]; simpl; [| discriminate].
    destruct (QueryProcessor.aggregate_docs str_float scores faiss_ids true)
      as [doc_hits |]; simpl; [| discriminate].
    destruct (if rerank_by_doc then format_payload_docs doc_hits
              else format_payload_singles doc_hits) as [similar_docs |] eqn:E;
      [| discriminate].
    intros [= <- _]. split.
    + unfold slice_to. apply Z.leb_le in Hk. rewrite Hk.
      apply (firstn_strongly_sorted hit_score).
      eapply format_payload_sorted. exact E.
    + now apply slice_to_length.
  - intros qv scores0 scores' ids0 ids' ix Hv Hs.
    rewrite Hv, Hs. cbn [bind].
    destruct (aggregate_docs_ok scores0 scores' ids0 ids' true)
      as [doc_hits Hd].
    rewrite Hd. cbn [bind].
    pose proof (aggregate_docs_has_hit _ _ _ _ Hd) as H.
    destruct (format_payload_docs_ok _ H) as [p1 H1].
    destruct (format_payload_singles_ok _ H) as [p2 H2].
    destruct rerank_by_doc; [rewrite H1 | rewrite H2]; eauto.
Qed.

End Processor.

End QueryProcessorFacts.

(** ** The shard handlers *)

Module ShardFacts.
Import Py Predicates PyFacts.

Lemma list_mem_last (x : string) (l : list string) : list_mem x (l ++ [x]) = true.
Proof.
  unfold list_mem. rewrite existsb_app. simpl.
  rewrite String.eqb_refl. now rewrite orb_true_r.
Qed.

Section Handlers.

Variable Index : Type.
Variable QueryVector : Type.
Variable read_index : string -> option Index.
Variable read_index_ondisk : string -> option Index.
Variable range_search : Index -> Z -> QueryVector -> float -> list float * list Z.
Variable reshape : QueryVector -> QueryVector.
Variable joint_sort :
  list (list float) -> list (list Z) -> list (list float) * list (list Z).

#[local] Abbreviation handler := (RangeShards.handler Index).
#[local] Abbreviation Shard := (RangeShards.Shard Index).
#[local] Abbreviation search := (RangeShards.search range_search reshape joint_sort).
#[local] Abbreviation start_search := (RangeShards.start_search range_search).
#[local] Abbreviation add_shard :=
  (RangeShards.add_shard read_index read_index_ondisk).
#[local] Abbreviation answer := (answer range_search).

Lemma start_search_dated (entries : list (string * Shard))
    (query_vector : QueryVector) (radius : float) (start end_ : string)
    (st : RangeShards.dispatch) :
  Forall dated entries ->
  start_search entries query_vector radius start end_ st =
  ({| RangeShards.queue :=
        RangeShards.queue st
        ++ map (answer query_vector radius) (addressed start end_ entries);
      RangeShards.n_results :=
        RangeShards.n_results st
        + Z.of_nat (List.length (addressed start end_ entries));
      RangeShards.sent :=
        RangeShards.sent st ++ map fst (addressed start end_ entries) |},
   None).
Proof.
  intros H. revert st.
  induction H as [| [shard_name shard] rest Hd _ IH]; intros st; simpl.
  - rewrite !app_nil_r, Z.add_0_r. now destruct st.
  - unfold dated in Hd. simpl in Hd. unfold in_window.
    destruct (DateSeed.search shard_name) as [d |]; [| contradiction].
    destruct (String.leb start d && String.leb d end_).
    + rewrite IH. cbn [RangeShards.queue RangeShards.n_results RangeShards.sent].
      unfold RangeShards.run, answer. cbn [map List.length fst snd].
      rewrite <- !app_assoc. cbn [app].
      do 2 f_equal. lia.
    + apply IH.
Qed.

Lemma start_search_undated (entries : list (string * Shard))
    (query_vector : QueryVector) (radius : float) (start end_ : string)
    (st : RangeShards.dispatch) :
  Exists (fun e => DateSeed.search (fst e) = None) entries ->
  Forall (fun n => DateSeed.search n <> None) (RangeShards.sent st) ->
  let out := start_search entries query_vector radius start end_ st in
  snd out = Some AttributeError
  /\ Forall (fun n => DateSeed.search n <> None) (RangeShards.sent (fst out)).
Proof.
  revert st. induction entries as [| [shard_name shard] rest IH];
    intros st Hex Hsent; [inversion Hex |]. simpl.
  destruct (DateSeed.search shard_name) as [d |] eqn:Ed.
  - assert (Hrest : Exists (fun e => DateSeed.search (fst e) = None) rest).
    { inversion Hex as [? ? H | ? ? H]; subst; [| exact H].
      simpl in H. congruence. }
    destruct (String.leb start d && String.leb d end_).
    + apply IH; [exact Hrest |]. simpl.
      apply Forall_app. split; [exact Hsent |].
      constructor; [congruence | constructor].
    + now apply IH.
  - simpl. auto.
Qed.

Lemma aggregate_all (queue : list (list float * list Z)) (n k : Z)
    (D : list float) (I_ : list Z) :
  n <= Z.of_nat (List.length queue) ->
  RangeShards.aggregate queue n k D I_ =
  Some (D ++ List.concat (map (fun r => slice_to (fst r) k) queue),
        I_ ++ List.concat (map (fun r => slice_to (snd r) k) queue)).
Proof.
  revert n D I_. induction queue as [| [dd ii] rest IH]; intros n D I_ Hn.
  - simpl in *. destruct (0 <? n) eqn:E; [apply Z.ltb_lt in E; lia |].
    now rewrite !app_nil_r.
  - cbn [RangeShards.aggregate]. rewrite IH by (simpl List.length in Hn; lia).
    cbn [map List.concat fst snd]. now rewrite !app_assoc.
Qed.

Lemma addressed_none (start end_ : string) (entries : list (string * Shard)) :
  (forall e, In e entries -> in_window start end_ (fst e) = false) ->
  addressed start end_ entries = [].
Proof.
  unfold addressed. induction entries as [| e rest IH]; intros H;
    [reflexivity |].
  simpl. rewrite (H e (or_introl eq_refl)). apply IH.
  intros e' He'. apply H. now right.
Qed.

(** What [search] does on a handler that is not locked and whose shard
    names all hold a date. *)
Lemma search_dated (self : handler) (query_vector : QueryVector) (k : Z)
    (radius : float) (start end_ : string) :
  RangeShards.lock self = false ->
  Forall dated (RangeShards.shards self) ->
  let hit := addressed start end_ (RangeShards.shards self) in
  let queue :=
    RangeShards.results self ++ map (answer (reshape query_vector) radius) hit in
  let D := List.concat (map (fun r => slice_to (fst r) k) queue) in
  let I_ := List.concat (map (fun r => slice_to (snd r) k) queue) in
  search self query_vector k radius start end_ =
  {| RangeShards.ended := RangeShards.Returned (joint_sort [D] [I_]);
     RangeShards.after :=
       RangeShards.set_lock (RangeShards.set_results
                               (RangeShards.set_lock self true) []) false;
     RangeShards.dispatched := map fst hit;
     RangeShards.retained := (D, I_) |}.
Proof.
  intros Hlock Hdated hit queue D I_. unfold RangeShards.search.
  rewrite Hlock.
  cbn [RangeShards.shards RangeShards.results RangeShards.set_lock].
  rewrite start_search_dated by exact Hdated.
  cbn [RangeShards.queue RangeShards.n_results RangeShards.sent app].
  rewrite aggregate_all.
  - reflexivity.
  - rewrite length_app, length_map. fold hit. lia.
Qed.

Lemma start_search_reached (entries : list (string * Shard))
    (query_vector : QueryVector) (radius : float) (start end_ : string)
    (st : RangeShards.dispatch) :
  start_search entries query_vector radius start end_ st =
  ({| RangeShards.queue :=
        RangeShards.queue st
        ++ map (answer query_vector radius)
             (addressed start end_ (reached entries));
      RangeShards.n_results :=
        RangeShards.n_results st
        + Z.of_nat (List.length (addressed start end_ (reached entries)));
      RangeShards.sent :=
        RangeShards.sent st
        ++ map fst (addressed start end_ (reached entries)) |},
   if all_dated entries then None else Some AttributeError).
Proof.
  revert st. induction entries as [| [shard_name shard] rest IH]; intros st.
  - simpl. rewrite !app_nil_r, Z.add_0_r. now destruct st.
  - cbn [RangeShards.start_search reached all_dated forallb fst].
    destruct (DateSeed.search shard_name) as [d |] eqn:Ed.
    + assert (Ew : in_window start end_ shard_name
                   = String.leb start d && String.leb d end_).
      { unfold in_window. now rewrite Ed. }
      unfold addressed. cbn [filter fst andb]. rewrite Ew.
      fold (all_dated rest).
      destruct (String.leb start d && String.leb d end_).
      * rewrite IH.
        cbn [RangeShards.queue RangeShards.n_results RangeShards.sent].
        unfold RangeShards.run, answer, addressed.
        cbn [map List.length fst snd].
        rewrite <- !app_assoc. cbn [app].
        do 2 f_equal. lia.
      * apply IH.
    + simpl. rewrite !app_nil_r, Z.add_0_r. now destruct st.
Qed.

Lemma reached_all (entries : list (string * Shard)) :
  all_dated entries = true -> reached entries = entries.
Proof.
  induction entries as [| e rest IH]; [reflexivity |].
  cbn [all_dated forallb reached].
  destruct (DateSeed.search (fst e)); [| discriminate].
  cbn [andb]. intros H. f_equal. now apply IH.
Qed.

Lemma reached_incl (entries : list (string * Shard)) :
  incl (reached entries) entries.
Proof.
  induction entries as [| e rest IH]; [apply incl_refl |].
  cbn [reached]. destruct (DateSeed.search (fst e)).
  - intros x [<- | Hx]; [now left | right; now apply IH].
  - intros x [].
Qed.

(** What [search] does on a handler that is not locked. *)
Lemma search_free (self : handler) (query_vector : QueryVector) (k : Z)
    (radius : float) (start end_ : string) :
  RangeShards.lock self = false ->
  let hit := addressed start end_ (reached (RangeShards.shards self)) in
  let queue :=
    RangeShards.results self ++ map (answer (reshape query_vector) radius) hit in
  let D := List.concat (map (fun r => slice_to (fst r) k) queue) in
  let I_ := List.concat (map (fun r => slice_to (snd r) k) queue) in
  search self query_vector k radius start end_ =
  if all_dated (RangeShards.shards self) then
    {| RangeShards.ended := RangeShards.Returned (joint_sort [D] [I_]);
       RangeShards.after :=
         RangeShards.set_lock (RangeShards.set_results
                                 (RangeShards.set_lock self true) []) false;
       RangeShards.dispatched := map fst hit;
       RangeShards.retained := (D, I_) |}
  else
    {| RangeShards.ended := RangeShards.Raised AttributeError;
       RangeShards.after :=
         RangeShards.set_results (RangeShards.set_lock self true) queue;
       RangeShards.dispatched := map fst hit;
       RangeShards.retained := ([], []) |}.
Proof.
  intros Hlock hit queue D I_. unfold RangeShards.search.
  rewrite Hlock.
  cbn [RangeShards.shards RangeShards.results RangeShards.set_lock].
  rewrite start_search_reached.
  cbn [RangeShards.queue RangeShards.n_results RangeShards.sent app].
  destruct (all_dated (RangeShards.shards self)); [| reflexivity].
  rewrite aggregate_all.
  - reflexivity.
  - rewrite length_app, length_map. fold hit. lia.
Qed.

(** C3, amended: [search] sends a range search only to mounted shards
    whose date [d] satisfies [start <= d <= end_] as strings, and on a
    locked handler it sends none and waits.  On a free handler the loop
    stops at the first mounted name that holds no date: the shards sent
    the query are exactly those in the window among the shards mounted
    before it, in mount order, each answering [range_search] on the
    reshaped query with the radius and its own [nprobe]; the call then
    raises [AttributeError] with these answers left on the queue.  When
    every mounted name holds a date, they are exactly the mounted shards
    in the window, the first [k] distances and ids of their answers
    (after what the queue held) are handed to [joint_sort], and the
    call returns.  When the window is disjoint from every shard's date
    no range search is sent; if moreover every name holds a date and
    the queue was empty, the lists handed to [joint_sort] are empty, and
    the result is empty for a [joint_sort] that returns empty lists on
    empty lists. *)
Theorem search_dispatches_in_window (self : handler)
    (query_vector : QueryVector) (k : Z) (radius : float)
    (start end_ : string) :
  let r := search self query_vector k radius start end_ in
  let hit := addressed start end_ (reached (RangeShards.shards self)) in
  let queue :=
    RangeShards.results self ++ map (answer (reshape query_vector) radius) hit in
  let D := List.concat (map (fun a => slice_to (fst a) k) queue) in
  let I_ := List.concat (map (fun a => slice_to (snd a) k) queue) in
  let disjoint :=
    forall shard_name shard d,
      In (shard_name, shard) (RangeShards.shards self) ->
      DateSeed.search shard_name = Some d ->
      String.leb start d && String.leb d end_ = false in
  (RangeShards.lock self = true ->
   RangeShards.ended r = RangeShards.Waits /\ RangeShards.dispatched r = [])
  /\ (forall shard_name,
        In shard_name (RangeShards.dispatched r) ->
        exists shard d,
          In (shard_name, shard) (RangeShards.shards self)
          /\ DateSeed.search shard_name = Some d
          /\ String.leb start d = true /\ String.leb d end_ = true)
  /\ (disjoint -> RangeShards.dispatched r = [])
  /\ (RangeShards.lock self = false ->
      RangeShards.dispatched r = map fst hit
      /\ (all_dated (RangeShards.shards self) = false ->
          RangeShards.ended r = RangeShards.Raised AttributeError
          /\ RangeShards.results (RangeShards.after r) = queue)
      /\ (all_dated (RangeShards.shards self) = true ->
          hit = filter (fun e => in_window start end_ (fst e))
                  (RangeShards.shards self)
          /\ (forall shard_name shard,
                In (shard_name, shard) (RangeShards.shards self) ->
                (In shard_name (RangeShards.dispatched r) <->
                 exists d, DateSeed.search shard_name = Some d
                           /\ String.leb start d = true
                           /\ String.leb d end_ = true))
          /\ RangeShards.retained r = (D, I_)
          /\ RangeShards.ended r = RangeShards.Returned (joint_sort [D] [I_])
          /\ (disjoint ->
              RangeShards.results self = [] ->
              RangeShards.retained r = ([], [])
              /\ RangeShards.ended r
                 = RangeShards.Returned (joint_sort [[]] [[]])
              /\ (joint_sort [[]] [[]] = ([[]], [[]]) ->
                  RangeShards.ended r = RangeShards.Returned ([[]], [[]]))))).
Proof.
  intros r hit queue D I_ disjoint.
  assert (Hin_hit :
            forall shard_name,
              In shard_name (map fst hit) ->
              exists shard d,
                In (shard_name, shard) (RangeShards.shards self)
                /\ DateSeed.search shard_name = Some d
                /\ String.leb start d = true /\ String.leb d end_ = true).
  { intros shard_name Hin. apply in_map_iff in Hin.
    destruct Hin as [[n sh] [Hn He]]. simpl in Hn. subst n.
    apply filter_In in He as [Hr Hw]. simpl in Hw. unfold in_window in Hw.
    destruct (DateSeed.search shard_name) as [d |]; [| discriminate].
    apply andb_true_iff in Hw. destruct Hw as [H1 H2].
    exists sh, d. split; [now apply reached_incl |]. now repeat split. }
  assert (Hnone : disjoint -> hit = []).
  { intros Hout. apply addressed_none. intros [n sh] Hin. unfold in_window.
    simpl. destruct (DateSeed.search n) as [d |] eqn:Ed; [| reflexivity].
    apply (Hout n sh d); [| exact Ed]. now apply reached_incl. }
  destruct (RangeShards.lock self) eqn:Hlock.
  - assert (Er : r = {| RangeShards.ended := RangeShards.Waits;
                        RangeShards.after := self;
                        RangeShards.dispatched := [];
                        RangeShards.retained := ([], []) |}).
    { unfold r, RangeShards.search. now rewrite Hlock. }
    rewrite Er. cbn [RangeShards.ended RangeShards.dispatched].
    split; [auto |]. split; [intros n [] |]. split; [reflexivity |].
    discriminate.
  - pose proof (search_free self query_vector k radius start end_ Hlock)
      as Er.
    cbv zeta in Er. fold r hit queue D I_ in Er.
    assert (Hsent : RangeShards.dispatched r = map fst hit).
    { rewrite Er. now destruct (all_dated (RangeShards.shards self)). }
    split; [discriminate |].
    split; [rewrite Hsent; exact Hin_hit |].
    split; [intros Hout; rewrite Hsent, (Hnone Hout); reflexivity |].
    intros _. split; [exact Hsent |]. split.
    + intros Hall. rewrite Er, Hall.
      cbn [RangeShards.ended RangeShards.after RangeShards.results
           RangeShards.set_results]. auto.
    + intros Hall.
      assert (Ehit :
                hit = filter (fun e => in_window start end_ (fst e))
                        (RangeShards.shards self)).
      { unfold hit. now rewrite (reached_all _ Hall). }
      split; [exact Ehit |]. split.
      { intros shard_name shard Hin. rewrite Hsent. split.
        - intros Hd. destruct (Hin_hit _ Hd) as (sh & d & _ & Hd' & H1 & H2).
          exists d. now repeat split.
        - intros [d [Hd [H1 H2]]]. rewrite Ehit. apply in_map_iff.
          exists (shard_name, shard). split; [reflexivity |].
          apply filter_In. split; [exact Hin |]. simpl. unfold in_window.
          now rewrite Hd, H1, H2. }
      rewrite Er, Hall. cbn [RangeShards.ended RangeShards.retained].
      split; [reflexivity |]. split; [reflexivity |].
      intros Hout Hres.
      assert (ED : D = []).
      { unfold D, queue. now rewrite (Hnone Hout), Hres. }
      assert (EI : I_ = []).
      { unfold I_, queue. now rewrite (Hnone Hout), Hres. }
      rewrite ED, EI. split; [reflexivity |]. split; [reflexivity |].
      now intros ->.
Qed.


(** C7, amended: a mounted shard whose name holds no ISO date cannot be
    searched at all: on a free handler every [search], the unrestricted
    window included, raises [AttributeError] when it reaches that shard
    and sends it nothing. *)
Theorem search_raises_on_undated_shard (self : handler)
    (query_vector : QueryVector) (k : Z) (radius : float)
    (start end_ : string) (shard_name : string) (shard : Shard) :
  RangeShards.lock self = false ->
  In (shard_name, shard) (RangeShards.shards self) ->
  DateSeed.search shard_name = None ->
  let r := search self query_vector k radius start end_ in
  RangeShards.ended r = RangeShards.Raised AttributeError
  /\ ~ In shard_name (RangeShards.dispatched r).
Proof.
  intros Hlock Hin Hnone r. unfold r, RangeShards.search. rewrite Hlock.
  cbn [RangeShards.shards RangeShards.results RangeShards.set_lock].
  pose proof (start_search_undated (RangeShards.shards self)
                (reshape query_vector) radius start end_
                {| RangeShards.queue := RangeShards.results self;
                   RangeShards.n_results := 0;
                   RangeShards.sent := [] |}) as H.
  destruct (start_search (RangeShards.shards self) (reshape query_vector)
              radius start end_ _) as [st raised].
  destruct H as [Hr Hs].
  - apply Exists_exists. exists (shard_name, shard). auto.
  - constructor.
  - simpl in Hr, Hs. subst raised.
    cbn [RangeShards.ended RangeShards.dispatched].
    split; [reflexivity |].
    intros Hd. rewrite Forall_forall in Hs. exact (Hs _ Hd Hnone).
Qed.

Lemma add_shard_online (self s1 : handler) (new_shard_path : string)
    (r1 : result unit) (out1 : list string) :
  add_shard self new_shard_path = (r1, s1, out1) ->
  online s1 new_shard_path = true
  /\ (r1 = Ok tt -> RangeShards.lock s1 = false).
Proof.
  unfold RangeShards.add_shard, online.
  cbn [RangeShards.paths_to_shards RangeShards.shards RangeShards.set_lock].
  destruct (list_mem new_shard_path (RangeShards.paths_to_shards self)
            || dict_mem (RangeShards.shards self)
                 (RangeShards.shard_name_of new_shard_path)) eqn:E.
  - intros [= <- <- <-]. simpl. auto.
  - unfold RangeShards.load_shard.
    cbn [RangeShards.paths_to_shards RangeShards.shards RangeShards.nprobe].
    destruct (RangeShards.new_shard read_index read_index_ondisk _ _ _)
      as [shard | e]; intros [= <- <- <-]; simpl;
      rewrite list_mem_last; simpl; split; auto; discriminate.
Qed.

Lemma add_shard_when_online (self : handler) (new_shard_path : string) :
  online self new_shard_path = true ->
  add_shard self new_shard_path
  = (Ok tt, RangeShards.set_lock self false, RangeShards.already_online).
Proof.
  unfold RangeShards.add_shard, online.
  cbn [RangeShards.paths_to_shards RangeShards.shards RangeShards.set_lock].
  intros ->. reflexivity.
Qed.

Lemma set_lock_same (self : handler) :
  RangeShards.lock self = false -> RangeShards.set_lock self false = self.
Proof. destruct self. simpl. now intros ->. Qed.

#[local] Abbreviation deploy_add_shard :=
  (DeployShards.add_shard read_index read_index_ondisk).

Lemma deploy_add_shard_online (self s1 : DeployShards.handler Index)
    (new_shard_path : string) (r1 : result unit) (out1 : list string) :
  deploy_add_shard self new_shard_path = (r1, s1, out1) ->
  list_mem new_shard_path (DeployShards.paths_to_shards s1) = true.
Proof.
  unfold DeployShards.add_shard.
  destruct (list_mem new_shard_path (DeployShards.paths_to_shards self)) eqn:E.
  - now intros [= <- <- <-].
  - cbn [DeployShards.paths_to_shards DeployShards.nprobe DeployShards.index].
    destruct (DeployShards.load_shard read_index read_index_ondisk _ _);
      intros [= <- <- <-]; simpl; apply list_mem_last.
Qed.

(** [add_shard(p)] after [add_shard(p)].  Whatever the first call did,
    the second prints the warning, returns, and leaves the paths, the
    mounted shards and the shard count as they were; when the first
    call returned, the handler after the second call is the handler
    after the first.  The second call of [DeployShards.add_shard]
    changes nothing at all. *)
Theorem add_shard_twice (self s1 : handler) (new_shard_path : string)
    (r1 : result unit) (out1 : list string)
    (dself d1 : DeployShards.handler Index) (dr1 : result unit)
    (dout1 : list string) :
  add_shard self new_shard_path = (r1, s1, out1) ->
  deploy_add_shard dself new_shard_path = (dr1, d1, dout1) ->
  (exists s2,
     add_shard s1 new_shard_path = (Ok tt, s2, RangeShards.already_online)
     /\ RangeShards.paths_to_shards s2 = RangeShards.paths_to_shards s1
     /\ RangeShards.shards s2 = RangeShards.shards s1
     /\ RangeShards.n_shards s2 = RangeShards.n_shards s1
     /\ RangeShards.results s2 = RangeShards.results s1
     /\ (r1 = Ok tt -> s2 = s1))
  /\ deploy_add_shard d1 new_shard_path
     = (Ok tt, d1, DeployShards.already_online).
Proof.
  intros H1 Hd1. split.
  - destruct (add_shard_online _ _ _ _ _ H1) as [Hon Hlock].
    exists (RangeShards.set_lock s1 false).
    split; [now apply add_shard_when_online |].
    repeat split.
    intros Hr. apply set_lock_same. now apply Hlock.
  - pose proof (deploy_add_shard_online _ _ _ _ _ Hd1) as Hon.
    unfold DeployShards.add_shard. now rewrite Hon.
Qed.

(** After a first call that raised, the lock is still set, and the
    second call releases it. *)
Lemma add_shard_twice_after_raise (self s1 : handler) (new_shard_path : string)
    (e : exn) (out1 : list string) :
  add_shard self new_shard_path = (Raise e, s1, out1) ->
  RangeShards.lock s1 = true
  /\ add_shard s1 new_shard_path
     = (Ok tt, RangeShards.set_lock s1 false, RangeShards.already_online)
  /\ RangeShards.set_lock s1 false <> s1.
Proof.
  intros H1.
  destruct (add_shard_online _ _ _ _ _ H1) as [Hon _].
  assert (Hlock : RangeShards.lock s1 = true).
  { revert H1. unfold RangeShards.add_shard.
    cbn [RangeShards.paths_to_shards RangeShards.shards RangeShards.set_lock].
    destruct (list_mem new_shard_path (RangeShards.paths_to_shards self)
              || dict_mem (RangeShards.shards self)
                   (RangeShards.shard_name_of new_shard_path));
      [discriminate |].
    unfold RangeShards.load_shard.
    destruct (RangeShards.new_shard read_index read_index_ondisk _ _ _)
      as [shard | e']; [discriminate |].
    now intros [= _ <- _]. }
  split; [exact Hlock |].
  split; [now apply add_shard_when_online |].
  intros Heq. apply (f_equal RangeShards.lock) in Heq. simpl in Heq.
  congruence.
Qed.

End Handlers.

End ShardFacts.

(** ** The index builders *)

Module BuilderFacts.
Import Py Predicates PyFacts.

Section Builders.

Variable Code : Type.
Variable Vector : Type.
Variable assign : Vector -> nat.
Variable encode : Vector -> Code.
Variable writable : string -> bool.

#[local] Abbreviation posting_list := (Faiss.posting_list Code).
#[local] Abbreviation InvertedLists := (Faiss.InvertedLists Code).
#[local] Abbreviation filesystem := (Faiss.filesystem Code).
#[local] Abbreviation generate_subindex :=
  (OnDiskIVFBuilder.generate_subindex assign encode writable).

(** C9, amended: [generate_subindex] raises nothing on an occupied or
    badly named target.  When the path is an existing file that ends in
    [.index] it prints [Index already exists: <path>]; when the path does
    not end in [.index] it prints [Invalid index filename: <path>]
    (whether or not the file exists); in both cases it returns normally,
    writes no file and leaves the catalogue as it was. *)
Theorem generate_subindex_refusal (self : OnDiskIVFBuilder.builder)
    (fs : filesystem) (subindex_path : string) (embeddings : list Vector)
    (faiss_ids : list Z) :
  (Faiss.isfile fs subindex_path = true ->
   endswith subindex_path ".index" = true ->
   generate_subindex self fs subindex_path embeddings faiss_ids
   = {| OnDiskIVFBuilder.outcome := Ok tt;
        OnDiskIVFBuilder.self_after := self;
        OnDiskIVFBuilder.files_after := fs;
        OnDiskIVFBuilder.printed :=
          [("Index already exists: " ++ subindex_path)%string] |})
  /\
  (endswith subindex_path ".index" = false ->
   generate_subindex self fs subindex_path embeddings faiss_ids
   = {| OnDiskIVFBuilder.outcome := Ok tt;
        OnDiskIVFBuilder.self_after := self;
        OnDiskIVFBuilder.files_after := fs;
        OnDiskIVFBuilder.printed :=
          [("Invalid index filename: " ++ subindex_path)%string] |}).
Proof.
  unfold OnDiskIVFBuilder.generate_subindex, OnDiskIVFBuilder.index_path_clear.
  split.
  - intros -> ->. reflexivity.
  - intros ->. rewrite !andb_false_r. reflexivity.
Qed.

(** Sums of lengths. *)
Lemma total_length_concat (lists : list posting_list) :
  Faiss.total_length lists = Z.of_nat (List.length (List.concat lists)).
Proof.
  induction lists as [| l rest IH]; simpl; [reflexivity |].
  rewrite length_app, IH. lia.
Qed.

Lemma map_nth_seq {A} (d : A) (l : list A) :
  map (fun c => nth c l d) (seq 0 (List.length l)) = l.
Proof.
  induction l as [| a l IH]; simpl; [reflexivity |].
  f_equal. rewrite <- seq_shift, map_map. exact IH.
Qed.

Lemma concat_map_app {A B} (f g : A -> list B) (l : list A) :
  Permutation (List.concat (map (fun c => f c ++ g c) l))
              (List.concat (map f l) ++ List.concat (map g l)).
Proof.
  induction l as [| a l IH]; simpl; [constructor |].
  rewrite <- !app_assoc. apply Permutation_app_head.
  eapply perm_trans; [apply Permutation_app_head, IH |].
  apply Permutation_app_swap_app.
Qed.

Lemma concat_map_nil {A B} (l : list A) :
  List.concat (map (fun _ => @nil B) l) = [].
Proof. induction l; simpl; auto. Qed.

Lemma nth_repeat_nil {A} (n c : nat) : nth c (repeat (@nil A) n) [] = [].
Proof. revert c. induction n as [| n IH]; intros [| c]; simpl; auto. Qed.

(** The lists of a store, read centroid by centroid. *)
Lemma lists_by_centroid (n : nat) (s : InvertedLists) :
  Faiss.well_formed s -> Faiss.il_nlist s = n ->
  map (Faiss.list_at s) (seq 0 n) = Faiss.il_lists s.
Proof.
  unfold Faiss.well_formed, Faiss.list_at. intros Hwf <-. rewrite <- Hwf.
  apply map_nth_seq.
Qed.

Lemma merged_lists_perm (n : nat) (sources : list InvertedLists) :
  Forall (fun s => Faiss.well_formed s /\ Faiss.il_nlist s = n) sources ->
  Permutation
    (List.concat
       (map (fun c => List.concat (map (fun s => Faiss.list_at s c) sources))
          (seq 0 n)))
    (List.concat (map Faiss.entries sources)).
Proof.
  induction 1 as [| s rest [Hwf Hn] _ IH]; simpl.
  - rewrite concat_map_nil. constructor.
  - eapply perm_trans; [apply concat_map_app |].
    apply Permutation_app; [| exact IH].
    pose proof (lists_by_centroid n s Hwf Hn) as E.
    unfold Faiss.posting_list in E. rewrite E. apply Permutation_refl.
Qed.

(** Merging into a fresh on-disk store. *)
Lemma merge_from_fresh (n m : nat) (sources : list InvertedLists) :
  Forall (fits n m) sources ->
  exists merged ntotal,
    Faiss.merge_from (Faiss.OnDiskInvertedLists Code n m) sources
    = Ok (merged, ntotal)
    /\ Permutation (Faiss.entries merged)
         (List.concat (map Faiss.entries sources))
    /\ ntotal = Faiss.total_length (Faiss.il_lists merged).
Proof.
  intros H. unfold Faiss.merge_from.
  assert (Hshape : forallb (Faiss.same_shape (Faiss.OnDiskInvertedLists Code n m))
                     sources = true).
  { apply forallb_forall. intros s Hs. rewrite Forall_forall in H.
    destruct (H s Hs) as [_ [Hn Hm]]. unfold Faiss.same_shape. simpl.
    now rewrite Hn, Hm, !Nat.eqb_refl. }
  rewrite Hshape. eexists. eexists. split; [reflexivity |].
  cbn [Faiss.il_nlist Faiss.il_lists Faiss.OnDiskInvertedLists].
  assert (Hwf : Forall (fun s => Faiss.well_formed s /\ Faiss.il_nlist s = n)
                  sources).
  { eapply Forall_impl; [| exact H]. intros s [? [? ?]]. auto. }
  assert (Hlists :
    map (fun c => Faiss.list_at (Faiss.OnDiskInvertedLists Code n m) c
                  ++ List.concat (map (fun s => Faiss.list_at s c) sources))
        (seq 0 n)
    = map (fun c => List.concat (map (fun s => Faiss.list_at s c) sources))
        (seq 0 n)).
  { apply map_ext. intros c. unfold Faiss.list_at at 1.
    cbn [Faiss.il_lists Faiss.OnDiskInvertedLists].
    unfold Faiss.posting_list. now rewrite nth_repeat_nil. }
  split.
  - unfold Faiss.entries at 1. cbn [Faiss.il_lists]. rewrite Hlists.
    now apply merged_lists_perm.
  - rewrite Hlists, total_length_concat.
    rewrite (Permutation_length (merged_lists_perm n sources Hwf)).
    clear - Hwf. induction Hwf as [| s rest [Hs Hn] _ IH]; simpl; [reflexivity |].
    pose proof (lists_by_centroid n s Hs Hn) as E.
    unfold Faiss.posting_list in *.
    rewrite IH, length_app, E, total_length_concat.
    unfold Faiss.entries. lia.
Qed.

Lemma read_written (fs : filesystem) (ix : Faiss.Index Code) (path : string) :
  Faiss.read_index (Faiss.write_index fs ix path) path = Ok ix.
Proof.
  unfold Faiss.read_index, Faiss.write_index. now rewrite dict_get_set_same.
Qed.


End Builders.

End BuilderFacts.

(** ** The properties on the scenarios *)

Module ScenarioChecks.
Import Py Scenario.

(** The built-ins on small inputs. *)
Example str_int_examples :
  str_int 10001 = "10001" /\ str_int 0 = "0" /\ str_int (-1) = "-1"
  /\ str_int (10001 / 10000) = "1" /\ str_int (-1 / 10000) = "-1".
Proof. repeat split. Qed.

Example slice_to_examples :
  slice_to [1; 2; 3] 2 = [1; 2] /\ slice_to [1; 2; 3] 5 = [1; 2; 3]
  /\ slice_to [1; 2; 3] 0 = [] /\ slice_to [1; 2; 3] (-1) = [1; 2].
Proof. repeat split. Qed.

Example sorted_examples :
  sorted ["0.5"; "0.01"; "0.45"; "0.5"] = ["0.01"; "0.45"; "0.5"; "0.5"]
  /\ sorted ["9.0"; "10.5"] = ["10.5"; "9.0"]
  /\ Py.min ["0.5"; "0.01"; "0.45"] = Ok "0.01"
  /\ Py.min [] = Raise ValueError.
Proof. repeat split. Qed.

Example shard_name_examples :
  RangeShards.shard_name_of "/shards/2020-01-02_b.index" = "/shards/2020-01-02_b"
  /\ endswith "/shards/2020-01-02_b.index" ".index" = true
  /\ endswith "/shards/2020-01-02_b.ivfdata" ".index" = false.
Proof. repeat split. Qed.

Example date_seed_examples :
  DateSeed.search "/shards/2020-01-02_b" = Some "2020-01-02"
  /\ DateSeed.search "news_2018/08/07" = Some "2018/08/07"
  /\ DateSeed.search "/shards/latest" = None
  /\ DateSeed.search "2020-1-02" = None.
Proof. repeat split. Qed.

(** On the scenario: [k = 2], the default window, re-ranked by
    document. *)
Lemma query_corpus_sorted_at_most_k_witness :
  0 <= 2 /\
  exists payload self',
    QueryProcessor.query_corpus str_float make_vectors indexer_search
      processor "q" 2 (13 # 20) "0000-00-00" "9999-99-99" true
    = (Ok payload, self')
    /\ StronglySorted
         (fun a b =>
            String.leb (QueryProcessor.hit_score a) (QueryProcessor.hit_score b)
            = true) payload
    /\ Z.of_nat (List.length payload) <= 2.
Proof.
  split; [lia |].
  destruct (QueryProcessorFacts.query_corpus_sorted_at_most_k
              str_float _ make_vectors _ indexer_search processor "q" 2
              (13 # 20) "0000-00-00" "9999-99-99" true ltac:(lia))
    as [Hsorted Hreturns].
  destruct (Hreturns tt _ _ _ _ tt eq_refl eq_refl) as [payload [self' E]].
  exists payload, self'. split; [exact E | exact (Hsorted _ _ E)].
Defined.

(** C1: [query_corpus] is to return its records by ascending score (its
    docstring: the [k] nearest documents, sorted).  With the distances
    9.0 (document 1) and 10.5 (document 2) within the radius it returns
    document 2 first and document 1, the nearer one, after it: the
    scores are turned into strings before they are compared, and the
    string ["10.5"] sorts before ["9.0"]. *)
Lemma query_corpus_farther_document_first :
  str_float 9%Q = "9.0" /\ str_float (21 # 2) = "10.5"
  /\ fst (QueryProcessor.query_corpus str_float make_vectors far_indexer_search
            processor "q" 5 11%Q "0000-00-00" "9999-99-99" true)
     = Ok [QueryProcessor.DocRecord "2" [("20001", "10.5")] "10.5";
           QueryProcessor.DocRecord "1" [("10001", "9.0")] "9.0"]
  /\ (9 < 21 # 2)%Q.
Proof. repeat split. Qed.

(** C5 on the scenario: the id ["10002"] of the record of document 1. *)
Lemma payload_ids_positive_and_grouped_witness :
  exists ids0 i,
    item0 (snd found) = Ok ids0 /\ In i ids0 /\ "10002" = str_int i /\ 0 < i
    /\ "1" = str_int (i / 10000).
Proof.
  destruct (QueryProcessorFacts.payload_ids_positive_and_grouped
              str_float (fst found) (snd found) true true) as [H _].
  exact (H [("1", [("0.01", "10001"); ("0.5", "10002")]);
            ("2", [("0.3", "20001")])]
           [QueryProcessor.DocRecord "1"
              [("10001", "0.01"); ("10002", "0.5")] "0.01";
            QueryProcessor.DocRecord "2" [("20001", "0.3")] "0.3"]
           (QueryProcessor.DocRecord "1"
              [("10001", "0.01"); ("10002", "0.5")] "0.01")
           "10002" eq_refl eq_refl (or_introl eq_refl)
           (or_intror (or_introl eq_refl))).
Defined.

(** C6 on the scenario: a zero distance for id 10001. *)
Lemma aggregate_docs_score_floor_witness :
  0 < 10001 /\
  dict_get (QueryProcessor.add_hit str_float [] (0%Q, 10001)) "1"
  = Some [("0.01", "10001")]
  /\ dict_get (ApiQueryProcessor.add_hit [] (0%Q, 10001)) "1"
     = Some [(1 # 10, 10001)].
Proof.
  split; [lia |].
  destruct (QueryProcessorFacts.aggregate_docs_score_floor
              str_float [] [] 0%Q 10001 ltac:(lia)) as [[H1 _] [H2 _]].
  split; [exact H1 | exact H2].
Defined.

(** C6 as stated fails in [dt_sim_api]: the score 0.05 of id 10001 is
    stored as 0.1, which is not [max(0.05, 0.01)]. *)
Lemma api_aggregate_docs_floor_counterexample :
  ApiQueryProcessor.aggregate_docs [[1 # 20]] [[10001]]
  = Ok [("1", [(1 # 10, 10001)])]
  /\ ~ (1 # 10 == Py.max (1 # 20) (1 # 100))%Q.
Proof.
  split; [reflexivity |].
  vm_compute. discriminate.
Qed.

Lemma dated_handler_names (shard_name : string)
    (shard : RangeShards.Shard Index) :
  In (shard_name, shard) (RangeShards.shards dated_handler) ->
  DateSeed.search shard_name <> None.
Proof.
  intros [H | [H | []]]; injection H as <- _; vm_compute; discriminate.
Defined.

(** C3 on the scenario: the window of the second shard only, and a
    window that holds no shard's date. *)
Lemma search_dispatches_in_window_witness :
  RangeShards.lock dated_handler = false
  /\ Predicates.all_dated (RangeShards.shards dated_handler) = true
  /\ RangeShards.dispatched
       (RangeShards.search range_search reshape joint_sort dated_handler tt 5
          (13 # 20) "2020-01-02" "2020-01-02")
     = ["/shards/2020-01-02_b"]
  /\ RangeShards.retained
       (RangeShards.search range_search reshape joint_sort dated_handler tt 5
          (13 # 20) "2020-01-02" "2020-01-02")
     = ([3 # 10], [20001])
  /\ RangeShards.dispatched
       (RangeShards.search range_search reshape joint_sort dated_handler tt 5
          (13 # 20) "2021-01-01" "2021-12-31")
     = []
  /\ RangeShards.ended
       (RangeShards.search range_search reshape joint_sort dated_handler tt 5
          (13 # 20) "2021-01-01" "2021-12-31")
     = RangeShards.Returned ([[]], [[]]).
Proof.
  split; [reflexivity |]. split; [reflexivity |].
  destruct (proj2 (proj2 (proj2
              (ShardFacts.search_dispatches_in_window
                 Index unit range_search reshape joint_sort
                 dated_handler tt 5 (13 # 20) "2020-01-02" "2020-01-02")))
              eq_refl) as (Hsent & _ & Hdated).
  destruct (Hdated eq_refl) as (_ & _ & Hkept & _).
  split; [exact Hsent |]. split; [exact Hkept |].
  assert (Hout :
            forall shard_name shard d,
              In (shard_name, shard) (RangeShards.shards dated_handler) ->
              DateSeed.search shard_name = Some d ->
              String.leb "2021-01-01" d && String.leb d "2021-12-31" = false).
  { intros shard_name shard d [H | [H | []]]; injection H as <- _;
      intros [= <-]; reflexivity. }
  destruct (proj2 (proj2 (proj2
              (ShardFacts.search_dispatches_in_window
                 Index unit range_search reshape joint_sort
                 dated_handler tt 5 (13 # 20) "2021-01-01" "2021-12-31")))
              eq_refl) as (Hsent' & _ & Hdated').
  destruct (Hdated' eq_refl) as (_ & _ & _ & _ & Hempty).
  destruct (Hempty Hout eq_refl) as (_ & _ & Hresult).
  split; [exact Hsent' |]. exact (Hresult eq_refl).
Defined.

(** C3 as stated fails: the handler mounted on [/shards/latest.index]
    and then given the shard of 2020-01-01 sends that shard nothing,
    though its date lies in the window: the search raises on the name
    without a date before it gets there. *)
Lemma search_stops_at_undated_shard_counterexample :
  (handler <- RangeShards.init read_index read_index_ondisk
                ["/shards/latest.index"] 4 ;;
   Ok (RangeShards.add_shard read_index read_index_ondisk handler
         "/shards/2020-01-01_a.index"))
  = Ok (Ok tt, latest_first_handler, [])
  /\ In ("/shards/2020-01-01_a", shard_a)
       (RangeShards.shards latest_first_handler)
  /\ DateSeed.search "/shards/2020-01-01_a" = Some "2020-01-01"
  /\ String.leb "2020-01-01" "2020-01-01" = true
  /\ RangeShards.dispatched
       (RangeShards.search range_search reshape joint_sort
          latest_first_handler tt 5 (13 # 20) "2020-01-01" "2020-01-01")
     = []
  /\ RangeShards.ended
       (RangeShards.search range_search reshape joint_sort
          latest_first_handler tt 5 (13 # 20) "2020-01-01" "2020-01-01")
     = RangeShards.Raised AttributeError.
Proof.
  split; [reflexivity |]. split; [right; left; reflexivity |].
  repeat split; reflexivity.
Qed.



(** C7 on the scenario: the shard [/shards/latest]. *)
Lemma search_raises_on_undated_shard_witness :
  RangeShards.lock undated_handler = false
  /\ In ("/shards/latest", shard_latest) (RangeShards.shards undated_handler)
  /\ DateSeed.search "/shards/latest" = None
  /\ RangeShards.ended
       (RangeShards.search range_search reshape joint_sort undated_handler tt 5
          (13 # 20) "0000-00-00" "9999-99-99")
     = RangeShards.Raised AttributeError.
Proof.
  split; [reflexivity |].
  split; [right; left; reflexivity |].
  split; [reflexivity |].
  exact (proj1 (ShardFacts.search_raises_on_undated_shard
                  Index unit range_search reshape joint_sort
                  undated_handler tt 5 (13 # 20) "0000-00-00" "9999-99-99"
                  "/shards/latest" shard_latest eq_refl
                  (or_intror (or_introl eq_refl)) eq_refl)).
Defined.

(** C7 as stated fails: the handler mounted on a dated shard and on
    [/shards/latest.index] raises on the unrestricted query, having sent
    the query to the dated shard only. *)
Lemma unrestricted_search_undated_shard_counterexample :
  RangeShards.init read_index read_index_ondisk
    ["/shards/2020-01-01_a.index"; "/shards/latest.index"] 4
  = Ok undated_handler
  /\ RangeShards.ended
       (RangeShards.search range_search reshape joint_sort undated_handler tt 5
          (13 # 20) "0000-00-00" "9999-99-99")
     = RangeShards.Raised AttributeError
  /\ RangeShards.dispatched
       (RangeShards.search range_search reshape joint_sort undated_handler tt 5
          (13 # 20) "0000-00-00" "9999-99-99")
     = ["/shards/2020-01-01_a"].
Proof. repeat split; reflexivity. Qed.

(** On the scenario: mounting [/shards/latest.index] twice. *)
Lemma add_shard_twice_witness :
  let first :=
    RangeShards.add_shard read_index read_index_ondisk dated_handler
      "/shards/latest.index" in
  let dfirst :=
    DeployShards.add_shard read_index read_index_ondisk deployed
      "/shards/latest.index" in
  fst (fst first) = Ok tt
  /\ RangeShards.add_shard read_index read_index_ondisk (snd (fst first))
       "/shards/latest.index"
     = (Ok tt, snd (fst first), RangeShards.already_online)
  /\ DeployShards.add_shard read_index read_index_ondisk (snd (fst dfirst))
       "/shards/latest.index"
     = (Ok tt, snd (fst dfirst), DeployShards.already_online).
Proof.
  intros first dfirst.
  destruct (ShardFacts.add_shard_twice Index read_index read_index_ondisk
              dated_handler (snd (fst first)) "/shards/latest.index"
              (fst (fst first)) (snd first)
              deployed (snd (fst dfirst)) (fst (fst dfirst)) (snd dfirst)
              eq_refl eq_refl) as [[s2 [E [_ [_ [_ [_ Hsame]]]]]] Hd].
  split; [reflexivity |].
  split; [| exact Hd].
  rewrite E. now rewrite (Hsame eq_refl).
Defined.

(** C8: [add_shard(p)] twice is to leave the handler as [add_shard(p)]
    once does.  With an index file that cannot be opened it does not:
    the first call raises in [load_shard] with the path already listed
    and the lock still set, so that a search waits; the second call
    takes the path for a shard that is online, prints the warning and
    releases the lock, so that a search returns.  Nothing is mounted by
    either call. *)
Lemma add_shard_twice_unreadable :
  let first :=
    RangeShards.add_shard read_index read_index_ondisk dated_handler
      "/shards/2020-01-04_d.index" in
  let second :=
    RangeShards.add_shard read_index read_index_ondisk (snd (fst first))
      "/shards/2020-01-04_d.index" in
  read_index "/shards/2020-01-04_d.index" = None
  /\ read_index_ondisk "/shards/2020-01-04_d.index" = None
  /\ fst (fst first) = Raise RuntimeError
  /\ RangeShards.lock (snd (fst first)) = true
  /\ second
     = (Ok tt, RangeShards.set_lock (snd (fst first)) false,
        RangeShards.already_online)
  /\ RangeShards.lock (snd (fst second)) = false
  /\ snd (fst second) <> snd (fst first)
  /\ RangeShards.shards (snd (fst second)) = RangeShards.shards dated_handler
  /\ RangeShards.ended
       (RangeShards.search range_search reshape joint_sort (snd (fst first))
          tt 5 (13 # 20) "0000-00-00" "9999-99-99")
     = RangeShards.Waits
  /\ RangeShards.ended
       (RangeShards.search range_search reshape joint_sort (snd (fst second))
          tt 5 (13 # 20) "0000-00-00" "9999-99-99")
     = RangeShards.Returned
         ([[1 # 10; 3 # 10; 1 # 2]], [[10002; 20001; 10001]]).
Proof.
  intros first second.
  split; [reflexivity |]. split; [reflexivity |]. split; [reflexivity |].
  split; [reflexivity |]. split; [reflexivity |]. split; [reflexivity |].
  split; [discriminate |]. split; [reflexivity |].
  split; reflexivity.
Qed.

(** C9 on the scenario: an occupied target and a badly named one. *)
Lemma generate_subindex_refusal_witness :
  Faiss.isfile files "/idx/sub1.index" = true
  /\ endswith "/idx/sub1.index" ".index" = true
  /\ endswith "/idx/new.txt" ".index" = false
  /\ OnDiskIVFBuilder.generate_subindex assign encode writable builder files
       "/idx/sub1.index" [0; 1]%nat [10001; 10002]
     = {| OnDiskIVFBuilder.outcome := Ok tt;
          OnDiskIVFBuilder.self_after := builder;
          OnDiskIVFBuilder.files_after := files;
          OnDiskIVFBuilder.printed :=
            ["Index already exists: /idx/sub1.index"] |}
  /\ OnDiskIVFBuilder.generate_subindex assign encode writable builder files
       "/idx/new.txt" [0; 1]%nat [10001; 10002]
     = {| OnDiskIVFBuilder.outcome := Ok tt;
          OnDiskIVFBuilder.self_after := builder;
          OnDiskIVFBuilder.files_after := files;
          OnDiskIVFBuilder.printed :=
            ["Invalid index filename: /idx/new.txt"] |}.
Proof.
  split; [reflexivity | split; [reflexivity | split; [reflexivity |]]].
  split.
  - exact (proj1 (BuilderFacts.generate_subindex_refusal Code nat assign encode writable
                    builder files "/idx/sub1.index" [0; 1]%nat [10001; 10002])
             eq_refl eq_refl).
  - exact (proj2 (BuilderFacts.generate_subindex_refusal Code nat assign encode writable
                    builder files "/idx/new.txt" [0; 1]%nat [10001; 10002])
             eq_refl).
Defined.

(** C9 as stated fails: on the occupied target and on the badly named
    one [generate_subindex] returns, it raises nothing. *)
Lemma generate_subindex_returns_counterexample :
  Faiss.isfile files "/idx/sub1.index" = true
  /\ OnDiskIVFBuilder.outcome
       (OnDiskIVFBuilder.generate_subindex assign encode writable builder files
          "/idx/sub1.index" [0; 1]%nat [10001; 10002])
     = Ok tt
  /\ endswith "/idx/new.txt" ".index" = false
  /\ OnDiskIVFBuilder.outcome
       (OnDiskIVFBuilder.generate_subindex assign encode writable builder files
          "/idx/new.txt" [0; 1]%nat [10001; 10002])
     = Ok tt.
Proof. repeat split; reflexivity. Qed.

Lemma sources_fit :
  Forall (Predicates.fits (Faiss.nlist base_index)
            (Faiss.code_size base_index)) sources.
Proof. repeat constructor. Defined.


End ScenarioChecks.

(** * Further properties of the code *)

(** ** More on the built-ins *)

Module PyMoreFacts.
Import Py Predicates PyFacts.

Lemma hash_mem_In (h : list string) (seen : list (list string)) :
  QueryProcessor.hash_mem h seen = true <-> In h seen.
Proof.
  unfold QueryProcessor.hash_mem. rewrite existsb_exists. split.
  - intros [h' [Hin E]]. destruct (list_eq_dec string_dec h h'); [now subst | discriminate].
  - intros Hin. exists h. split; [exact Hin |].
    destruct (list_eq_dec string_dec h h); [reflexivity | contradiction].
Qed.

Section Keys.

Context {V : Type}.

Lemma dict_mem_In (d : dict V) (k : string) :
  dict_mem d k = true <-> In k (map fst d).
Proof.
  unfold dict_mem. induction d as [| [k0 v0] rest IH]; simpl.
  - split; [discriminate | intros []].
  - destruct (String.eqb_spec k0 k) as [-> | Hne].
    + split; auto.
    + rewrite IH. split; [auto | intros [E | H]; [contradiction | exact H]].
Qed.

Lemma dict_set_new (d : dict V) (k : string) (v : V) :
  dict_mem d k = false -> dict_set d k v = d ++ [(k, v)].
Proof.
  unfold dict_mem. induction d as [| [k0 v0] rest IH]; simpl; [reflexivity |].
  destruct (String.eqb k0 k); [discriminate |].
  intros H. now rewrite IH.
Qed.

Lemma dict_set_keys (d : dict V) (k : string) (v : V) :
  map fst (dict_set d k v)
  = if dict_mem d k then map fst d else map fst d ++ [k].
Proof.
  unfold dict_mem. induction d as [| [k0 v0] rest IH]; simpl; [reflexivity |].
  destruct (String.eqb_spec k0 k) as [-> | Hne]; simpl; [reflexivity |].
  rewrite IH. now destruct (dict_get rest k).
Qed.

Lemma dict_set_NoDup (d : dict V) (k : string) (v : V) :
  NoDup (map fst d) -> NoDup (map fst (dict_set d k v)).
Proof.
  intros H. rewrite dict_set_keys.
  destruct (dict_mem d k) eqn:E; [exact H |].
  apply NoDup_app; [exact H | repeat constructor; intros [] | ].
  intros x Hx [<- | []]. apply dict_mem_In in Hx. congruence.
Qed.

End Keys.

(** A sorted list is determined by its elements. *)
Lemma sorted_unique (l1 l2 : list string) :
  StronglySorted (key_le (fun s => s)) l1 ->
  StronglySorted (key_le (fun s => s)) l2 ->
  Permutation l1 l2 -> l1 = l2.
Proof.
  intros H1. revert l2. induction H1 as [| a l1 Hs IH Ha]; intros l2 H2 Hp.
  - now apply Permutation_nil in Hp.
  - destruct H2 as [| b l2 Hs2 Hb].
    + apply Permutation_sym, Permutation_nil in Hp. discriminate.
    + assert (E : a = b).
      { assert (Hab : key_le (fun s => s) a b).
        { assert (In b (a :: l1))
            by (eapply Permutation_in; [apply Permutation_sym, Hp | now left]).
          destruct H as [-> | H]; [apply leb_refl |].
          rewrite Forall_forall in Ha. now apply Ha. }
        assert (Hba : key_le (fun s => s) b a).
        { assert (In a (b :: l2))
            by (eapply Permutation_in; [apply Hp | now left]).
          destruct H as [-> | H]; [apply leb_refl |].
          rewrite Forall_forall in Hb. now apply Hb. }
        now apply String.leb_antisym. }
      subst b. f_equal. apply IH; [exact Hs2 |].
      eapply Permutation_cons_inv. exact Hp.
Qed.

Lemma sorted_perm_eq (l1 l2 : list string) :
  Permutation l1 l2 -> sorted l1 = sorted l2.
Proof.
  intros Hp. unfold sorted. apply sorted_unique.
  - apply sorted_by_strongly_sorted.
  - apply sorted_by_strongly_sorted.
  - eapply perm_trans; [apply sorted_by_perm |].
    eapply perm_trans; [exact Hp | apply Permutation_sym, sorted_by_perm].
Qed.

(** [min] of a list whose head is a least element. *)
Lemma min_from_least (m : string) (l : list string) :
  Forall (fun x => String.leb m x = true) l -> min_from m l = m.
Proof.
  induction 1 as [| x xs Hx _ IH]; simpl; [reflexivity |].
  assert (E : String.ltb x m = false).
  { unfold String.ltb, String.leb in *.
    rewrite String.compare_antisym.
    destruct (String.compare m x); simpl; auto; discriminate. }
  now rewrite E.
Qed.

(** Sorting by equal keys moves related elements alike. *)
Lemma insert_by_Forall2 {A B} (R : A -> B -> Prop) (ka : A -> string)
    (kb : B -> string) (a : A) (b : B) (la : list A) (lb : list B) :
  (forall x y, R x y -> ka x = kb y) ->
  R a b -> Forall2 R la lb ->
  Forall2 R (insert_by ka a la) (insert_by kb b lb).
Proof.
  intros Hk Hab H. induction H as [| x y la lb Hxy Hl IH]; simpl.
  - repeat constructor. exact Hab.
  - rewrite (Hk _ _ Hab), (Hk _ _ Hxy).
    destruct (String.leb (kb b) (kb y)).
    + constructor; [exact Hab |]. constructor; assumption.
    + constructor; assumption.
Qed.

Lemma sorted_by_Forall2 {A B} (R : A -> B -> Prop) (ka : A -> string)
    (kb : B -> string) (la : list A) (lb : list B) :
  (forall x y, R x y -> ka x = kb y) ->
  Forall2 R la lb -> Forall2 R (sorted_by ka la) (sorted_by kb lb).
Proof.
  intros Hk. induction 1; simpl; [constructor |].
  now apply insert_by_Forall2.
Qed.

Lemma mapM_Forall2 {A B} (f : A -> result B) (l : list A) (ys : list B) :
  mapM f l = Ok ys -> Forall2 (fun x y => f x = Ok y) l ys.
Proof.
  revert ys. induction l as [| x xs IH]; simpl; intros ys H.
  - injection H as <-. constructor.
  - destruct (f x) as [y0 |] eqn:Ex; simpl in H; [| discriminate].
    destruct (mapM f xs) as [ys0 |] eqn:Exs; simpl in H; [| discriminate].
    injection H as <-. constructor; auto.
Qed.

End PyMoreFacts.

(** ** More on [aggregate_docs] and the formatters of [dt_sim] *)

Module AggregateFacts.
Import Py Predicates MorePredicates PyFacts PyMoreFacts QueryProcessor.

(** The hit lists of a dictionary, one after the other. *)
Lemma dict_append_values {A} (d : dict (list A)) (k : string) (x : A) :
  Permutation
    (List.concat
       (map snd
          (dict_set d k
             (match dict_get d k with Some h => h | None => [] end ++ [x]))))
    (List.concat (map snd d) ++ [x]).
Proof.
  induction d as [| [k0 v0] rest IH]; simpl.
  - apply Permutation_refl.
  - destruct (String.eqb_spec k0 k) as [-> | Hne]; simpl.
    + rewrite <- !app_assoc. apply Permutation_app_head.
      apply Permutation_app_comm.
    + rewrite <- app_assoc. apply Permutation_app_head. exact IH.
Qed.

Lemma already_sorted_Sorted (l : rawScoreIDs) :
  already_sorted l = true -> Sorted (key_le fst) l.
Proof.
  induction l as [| a l IH]; intros H; [constructor |].
  destruct l as [| b l].
  - repeat constructor.
  - cbn [already_sorted] in H. apply andb_true_iff in H as [Hab Hl].
    constructor; [now apply IH | now constructor].
Qed.

Lemma sort_score_ids_sorted (l : rawScoreIDs) :
  StronglySorted (key_le fst) (sort_score_ids l).
Proof.
  unfold sort_score_ids. destruct (already_sorted l) eqn:E; simpl.
  - apply Sorted_StronglySorted; [apply key_le_trans |].
    now apply already_sorted_Sorted.
  - apply sorted_by_strongly_sorted.
Qed.

Lemma profile_sorted_entry (l : rawScoreIDs) :
  profile (sort_score_ids l) = profile l.
Proof.
  unfold profile, phash. apply sorted_perm_eq.
  apply Permutation_map, QueryProcessorFacts.sort_score_ids_perm.
Qed.

(** The two loops over the collected documents, in closed form. *)
Lemma fold_keep_all (docs acc : DocPayload) :
  NoDup (map fst docs) ->
  (forall k, In k (map fst docs) -> ~ In k (map fst acc)) ->
  fold_left keep_all docs acc = acc ++ map sorted_entry docs.
Proof.
  revert acc. induction docs as [| [k l] rest IH]; intros acc Hnd Hdis; simpl.
  - now rewrite app_nil_r.
  - inversion Hnd as [| ? ? Hk Hrest]; subst.
    rewrite IH.
    + rewrite dict_set_new.
      * rewrite <- app_assoc. reflexivity.
      * destruct (dict_mem acc k) eqn:E; [| reflexivity].
        apply dict_mem_In in E. exfalso. apply (Hdis k); simpl; auto.
    + exact Hrest.
    + intros k' Hk' Hin. rewrite dict_set_keys in Hin.
      destruct (dict_mem acc k).
      * apply (Hdis k'); simpl; auto.
      * apply in_app_or in Hin as [Hin | [<- | []]].
        -- apply (Hdis k'); simpl; auto.
        -- contradiction.
Qed.

Lemma fold_keep_unique (docs acc : DocPayload) (seen : list (list string)) :
  NoDup (map fst docs) ->
  (forall k, In k (map fst docs) -> ~ In k (map fst acc)) ->
  fst (fold_left keep_unique docs (acc, seen))
  = acc ++ map sorted_entry (kept docs seen).
Proof.
  revert acc seen.
  induction docs as [| [k l] rest IH]; intros acc seen Hnd Hdis; simpl.
  - now rewrite app_nil_r.
  - inversion Hnd as [| ? ? Hk Hrest]; subst.
    fold (profile l).
    destruct (hash_mem (profile l) seen); simpl.
    + apply IH; [exact Hrest |].
      intros k' Hk'. apply Hdis. simpl. auto.
    + rewrite IH.
      * rewrite dict_set_new.
        -- rewrite <- app_assoc. reflexivity.
        -- destruct (dict_mem acc k) eqn:E; [| reflexivity].
           apply dict_mem_In in E. exfalso. apply (Hdis k); simpl; auto.
      * exact Hrest.
      * intros k' Hk' Hin. rewrite dict_set_keys in Hin.
        destruct (dict_mem acc k).
        -- apply (Hdis k'); simpl; auto.
        -- apply in_app_or in Hin as [Hin | [<- | []]].
           ++ apply (Hdis k'); simpl; auto.
           ++ contradiction.
Qed.

(** What the duplicate filter keeps. *)
Lemma kept_incl (docs : DocPayload) (seen : list (list string))
    (e : string * rawScoreIDs) :
  In e (kept docs seen) -> In e docs.
Proof.
  revert seen. induction docs as [| [k l] rest IH]; intros seen; simpl; [auto |].
  destruct (hash_mem (profile l) seen).
  - intros H. right. eapply IH. exact H.
  - intros [<- | H]; [now left | right; eapply IH; exact H].
Qed.

Lemma kept_fresh (docs : DocPayload) (seen : list (list string)) :
  NoDup (map (fun e => profile (snd e)) (kept docs seen))
  /\ forall e, In e (kept docs seen) -> ~ In (profile (snd e)) seen.
Proof.
  revert seen. induction docs as [| [k l] rest IH]; intros seen; simpl.
  - split; [constructor | intros e []].
  - destruct (hash_mem (profile l) seen) eqn:E; [apply IH |].
    destruct (IH (profile l :: seen)) as [Hnd Hfresh]. split.
    + simpl. constructor; [| exact Hnd].
      intros Hin. apply in_map_iff in Hin as [e [He Hin]].
      apply (Hfresh e Hin). left. now symmetry.
    + intros e [<- | Hin]; simpl.
      * intros Hs. apply hash_mem_In in Hs. congruence.
      * intros Hs. apply (Hfresh e Hin). now right.
Qed.

Lemma kept_covers (docs : DocPayload) (seen : list (list string))
    (e : string * rawScoreIDs) :
  In e docs ->
  In (profile (snd e)) seen
  \/ exists e', In e' (kept docs seen) /\ profile (snd e') = profile (snd e).
Proof.
  revert seen. induction docs as [| [k l] rest IH]; intros seen; simpl; [intros [] |].
  destruct (hash_mem (profile l) seen) eqn:E.
  - intros [<- | H]; [left; now apply hash_mem_In | now apply IH].
  - intros [<- | H].
    + right. exists (k, l). simpl. auto.
    + destruct (IH (profile l :: seen) H) as [[Hs | Hs] | [e' [He' Hp]]].
      * right. exists (k, l). simpl. auto.
      * now left.
      * right. exists e'. simpl. auto.
Qed.

Lemma kept_first (pre post : DocPayload) (k : string) (l : rawScoreIDs)
    (seen : list (list string)) :
  ~ In (profile l) seen ->
  (forall e, In e pre -> profile (snd e) <> profile l) ->
  In (k, l) (kept (pre ++ (k, l) :: post) seen).
Proof.
  revert seen. induction pre as [| [k0 l0] pre IH]; intros seen Hs Hpre; simpl.
  - destruct (hash_mem (profile l) seen) eqn:E; [| now left].
    apply hash_mem_In in E. contradiction.
  - destruct (hash_mem (profile l0) seen).
    + apply IH; [exact Hs | intros e He; apply Hpre; now right].
    + right. apply IH.
      * intros [E | Hin]; [| contradiction].
        apply (Hpre (k0, l0)); [now left | exact E].
      * intros e He. apply Hpre. now right.
Qed.

Section Processor.

Variable str_float : float -> string.

#[local] Abbreviation add_hit := (add_hit str_float).
#[local] Abbreviation collect_docs := (collect_docs str_float).
#[local] Abbreviation aggregate_docs := (aggregate_docs str_float).

Lemma collect_docs_keys (scores0 : list float) (ids0 : list Z) :
  NoDup (map fst (collect_docs scores0 ids0)).
Proof.
  unfold QueryProcessor.collect_docs.
  assert (G : forall l docs, NoDup (map fst docs) ->
                NoDup (map fst (fold_left add_hit l docs))).
  { induction l as [| [s i] l IH]; cbn [fold_left]; intros docs H; [exact H |].
    apply IH. rewrite QueryProcessorFacts.add_hit_eq.
    destruct (0 <? i); [now apply dict_set_NoDup | exact H]. }
  apply G. constructor.
Qed.

Lemma collect_docs_values (scores0 : list float) (ids0 : list Z) :
  Permutation (List.concat (map snd (collect_docs scores0 ids0)))
    (floored_hits str_float scores0 ids0).
Proof.
  unfold QueryProcessor.collect_docs, floored_hits.
  assert (G : forall l docs,
            Permutation (List.concat (map snd (fold_left add_hit l docs)))
              (List.concat (map snd docs)
               ++ map (fun hit => (min_diff_cutoff str_float (fst hit),
                                   str_int (snd hit)))
                    (filter (fun hit => 0 <? snd hit) l))).
  { induction l as [| [s i] l IH]; cbn [fold_left]; intros docs.
    - simpl. rewrite app_nil_r. apply Permutation_refl.
    - eapply perm_trans; [apply IH |].
      rewrite QueryProcessorFacts.add_hit_eq. cbn [filter snd].
      destruct (0 <? i); [| apply Permutation_refl].
      cbn [map fst snd]. unfold hits_of.
      eapply perm_trans;
        [apply Permutation_app_tail, dict_append_values |].
      rewrite <- app_assoc. apply Permutation_refl. }
  apply (G (zip scores0 ids0) []).
Qed.

(** [aggregate_docs] in closed form. *)
Lemma aggregate_docs_closed (scores0 : list float) (scores' : DiffScores)
    (ids0 : list Z) (ids' : VectorIDs) (unique : bool) :
  aggregate_docs (scores0 :: scores') (ids0 :: ids') unique
  = Ok (map sorted_entry
          (if unique then kept (collect_docs scores0 ids0) []
           else collect_docs scores0 ids0)).
Proof.
  unfold QueryProcessor.aggregate_docs. cbn [item0 bind].
  pose proof (collect_docs_keys scores0 ids0) as Hk.
  destruct unique.
  - now rewrite fold_keep_unique by (auto; intros k _ []).
  - now rewrite fold_keep_all by (auto; intros k _ []).
Qed.

Lemma aggregate_docs_rows (scores : DiffScores) (faiss_ids : VectorIDs)
    (unique : bool) (doc_hits : DocPayload) :
  aggregate_docs scores faiss_ids unique = Ok doc_hits ->
  exists scores0 scores' ids0 ids',
    scores = scores0 :: scores' /\ faiss_ids = ids0 :: ids'.
Proof.
  unfold QueryProcessor.aggregate_docs.
  destruct scores as [| s0 s']; [discriminate |].
  destruct faiss_ids as [| i0 i']; [discriminate |].
  intros _. now exists s0, s', i0, i'.
Qed.

Lemma aggregate_docs_values_sorted (scores : DiffScores)
    (faiss_ids : VectorIDs) (unique : bool) (doc_hits : DocPayload) :
  aggregate_docs scores faiss_ids unique = Ok doc_hits ->
  Forall (fun entry => StronglySorted (key_le fst) (snd entry)) doc_hits.
Proof.
  intros H.
  destruct (aggregate_docs_rows _ _ _ _ H) as [s0 [s' [i0 [i' [-> ->]]]]].
  rewrite aggregate_docs_closed in H. injection H as <-.
  apply Forall_forall. intros e He.
  apply in_map_iff in He as [[k l] [<- _]]. simpl.
  apply sort_score_ids_sorted.
Qed.

Lemma kept_keys (docs : DocPayload) (seen : list (list string)) :
  NoDup (map fst docs) -> NoDup (map fst (kept docs seen)).
Proof.
  revert seen. induction docs as [| [k l] rest IH]; intros seen Hk; simpl;
    [constructor |].
  inversion Hk as [| ? ? Hnotin Hrest]; subst.
  destruct (hash_mem (profile l) seen); [now apply IH |].
  simpl. constructor; [| now apply IH].
  intros Hin. apply Hnotin.
  apply in_map_iff in Hin as [e [<- He]].
  apply in_map. eapply kept_incl. exact He.
Qed.

Lemma aggregate_docs_keys (scores : DiffScores) (faiss_ids : VectorIDs)
    (unique : bool) (doc_hits : DocPayload) :
  aggregate_docs scores faiss_ids unique = Ok doc_hits ->
  NoDup (map fst doc_hits).
Proof.
  intros H.
  destruct (aggregate_docs_rows _ _ _ _ H) as [s0 [s' [i0 [i' [-> ->]]]]].
  rewrite aggregate_docs_closed in H. injection H as <-.
  rewrite map_map. simpl.
  pose proof (collect_docs_keys s0 i0) as Hk.
  destruct unique; [now apply kept_keys | exact Hk].
Qed.

(** X1: in the dictionary [aggregate_docs] returns, with or without the
    duplicate filter, the hits of every document are in ascending order
    of their score strings (what the formatters assume), and every
    document has at least one hit. *)
Theorem aggregate_docs_hits_sorted (scores : DiffScores)
    (faiss_ids : VectorIDs) (require_unique_score : bool)
    (doc_hits : DocPayload) :
  aggregate_docs scores faiss_ids require_unique_score = Ok doc_hits ->
  forall doc_id score_ids, In (doc_id, score_ids) doc_hits ->
    StronglySorted (fun a b => String.leb (fst a) (fst b) = true) score_ids
    /\ exists best rest,
         score_ids = best :: rest
         /\ Forall (fun hit => String.leb (fst best) (fst hit) = true) rest.
Proof.
  intros H doc_id score_ids Hin.
  pose proof (aggregate_docs_values_sorted _ _ _ _ H) as Hs.
  pose proof (QueryProcessorFacts.aggregate_docs_has_hit _ _ _ _ _ H) as Hh.
  rewrite Forall_forall in Hs, Hh.
  specialize (Hs _ Hin). specialize (Hh _ Hin).
  unfold has_hit in Hh. simpl in Hs, Hh.
  split; [exact Hs |].
  destruct score_ids as [| best rest]; [contradiction |].
  exists best, rest. split; [reflexivity |].
  now inversion Hs.
Qed.

(** X2: without the duplicate filter [aggregate_docs] loses and invents
    nothing: the hits of all documents together are exactly the pairs
    [(str(max(score, 0.01)), str(id))] of the search output with
    [id > 0], each as often as it occurs, and no document id is a key
    twice. *)
Theorem aggregate_docs_keeps_every_hit (scores0 : list float)
    (scores' : DiffScores) (ids0 : list Z) (ids' : VectorIDs) :
  exists doc_hits,
    aggregate_docs (scores0 :: scores') (ids0 :: ids') false = Ok doc_hits
    /\ Permutation (List.concat (map snd doc_hits))
         (floored_hits str_float scores0 ids0)
    /\ NoDup (map fst doc_hits).
Proof.
  eexists. split; [apply aggregate_docs_closed |]. split.
  - eapply perm_trans; [| apply collect_docs_values].
    induction (collect_docs scores0 ids0) as [| [k l] rest IH]; simpl;
      [constructor |].
    apply Permutation_app; [apply QueryProcessorFacts.sort_score_ids_perm | exact IH].
  - rewrite map_map. apply collect_docs_keys.
Qed.

(** X3: with the duplicate filter, no two documents of the result have
    the same sorted list of scores; a collected document is in the
    result (with its hits sorted) whenever no document collected before
    it has its score list, so the first of several equal ones survives;
    every document of the result is a collected one; and every collected
    document has its score list represented in the result. *)
Theorem aggregate_docs_unique_scores (scores0 : list float)
    (scores' : DiffScores) (ids0 : list Z) (ids' : VectorIDs) :
  exists doc_hits,
    aggregate_docs (scores0 :: scores') (ids0 :: ids') true = Ok doc_hits
    /\ NoDup (map (fun entry => sorted (map fst (snd entry))) doc_hits)
    /\ (forall pre doc_id score_ids post,
          collect_docs scores0 ids0 = pre ++ (doc_id, score_ids) :: post ->
          (forall e, In e pre ->
             sorted (map fst (snd e)) <> sorted (map fst score_ids)) ->
          In (doc_id, sort_score_ids score_ids) doc_hits)
    /\ (forall entry, In entry doc_hits ->
          exists score_ids,
            In (fst entry, score_ids) (collect_docs scores0 ids0)
            /\ snd entry = sort_score_ids score_ids)
    /\ (forall e, In e (collect_docs scores0 ids0) ->
          exists entry, In entry doc_hits
            /\ sorted (map fst (snd entry)) = sorted (map fst (snd e))).
Proof.
  eexists. split; [apply aggregate_docs_closed |].
  destruct (kept_fresh (collect_docs scores0 ids0) []) as [Hnd _].
  repeat split.
  - rewrite map_map.
    erewrite map_ext; [exact Hnd |].
    intros [k l]. exact (profile_sorted_entry l).
  - intros pre doc_id score_ids post E Hpre.
    apply (in_map sorted_entry _ (doc_id, score_ids)).
    rewrite E. apply kept_first; [intros [] | exact Hpre].
  - intros entry He. apply in_map_iff in He as [[k l] [<- He]].
    exists l. split; [| reflexivity].
    eapply kept_incl. exact He.
  - intros e He.
    destruct (kept_covers _ [] e He) as [[] | [e' [He' Hp]]].
    exists (sorted_entry e'). split; [now apply in_map |].
    destruct e' as [k' l']. exact (eq_trans (profile_sorted_entry l') Hp).
Qed.

Lemma doc_record_sorted (k : string) (l : rawScoreIDs) :
  l <> [] -> StronglySorted (key_le fst) l ->
  exists d s, doc_record (k, l) = Ok d /\ single_record (k, l) = Ok s
              /\ best_hit_of d s.
Proof.
  intros Hne Hs. destruct l as [| [sc sid] l]; [contradiction |].
  unfold doc_record, single_record. cbn [map fst Py.min item0 bind].
  inversion Hs as [| ? ? _ Hall]; subst.
  rewrite min_from_least.
  - eexists. eexists. split; [reflexivity | split; [reflexivity |]].
    unfold best_hit_of. simpl. auto.
  - apply Forall_map. eapply Forall_impl; [| exact Hall].
    intros [sc' sid']. auto.
Qed.

(** X4: on a dictionary returned by [aggregate_docs] both formatters
    return, with one record per document and in the same order of
    documents: the record of [format_payload_singles] carries the
    document id and the score of the record of [format_payload_docs] at
    the same place, and the id of that record's first hit. *)
Theorem formatters_agree (scores : DiffScores) (faiss_ids : VectorIDs)
    (require_unique_score : bool) (doc_hits : DocPayload) :
  aggregate_docs scores faiss_ids require_unique_score = Ok doc_hits ->
  exists docs singles,
    format_payload_docs doc_hits = Ok docs
    /\ format_payload_singles doc_hits = Ok singles
    /\ Forall2 best_hit_of docs singles
    /\ List.length docs = List.length doc_hits
    /\ Permutation (map hit_doc_id docs) (map fst doc_hits)
    /\ NoDup (map hit_doc_id docs).
Proof.
  intros H.
  pose proof (aggregate_docs_values_sorted _ _ _ _ H) as Hsorted.
  pose proof (aggregate_docs_keys _ _ _ _ H) as Hkeys.
  pose proof (QueryProcessorFacts.aggregate_docs_has_hit _ _ _ _ _ H) as Hhit.
  assert (G : exists pd ps,
             mapM doc_record doc_hits = Ok pd
             /\ mapM single_record doc_hits = Ok ps
             /\ Forall2 best_hit_of pd ps
             /\ map hit_doc_id pd = map fst doc_hits).
  { clear H Hkeys. induction doc_hits as [| [k l] rest IH].
    - exists [], []. repeat split; constructor.
    - inversion Hsorted as [| ? ? Hl Hrest]; subst.
      inversion Hhit as [| ? ? Hne Hhrest]; subst.
      destruct (IH Hrest Hhrest) as [pd [ps [E1 [E2 [HR Hids]]]]].
      destruct (doc_record_sorted k l Hne Hl) as [d [s [Ed [Es Hb]]]].
      exists (d :: pd), (s :: ps). cbn [mapM].
      rewrite Ed, Es, E1, E2. cbn [bind].
      repeat split; [now constructor |].
      simpl. f_equal; [| exact Hids].
      unfold doc_record in Ed.
      destruct (Py.min (map fst l)); simpl in Ed; [| discriminate].
      now injection Ed as <-. }
  destruct G as [pd [ps [E1 [E2 [HR Hids]]]]].
  exists (sorted_by hit_score pd), (sorted_by hit_score ps).
  unfold format_payload_docs, format_payload_singles. rewrite E1, E2.
  cbn [bind]. repeat split.
  - apply sorted_by_Forall2; [| exact HR].
    intros x y [_ [Hsc _]]. now symmetry.
  - rewrite sorted_by_length. eapply mapM_length. exact E1.
  - rewrite <- Hids. apply Permutation_map, sorted_by_perm.
  - eapply Permutation_NoDup; [| exact Hkeys].
    rewrite <- Hids. apply Permutation_sym, Permutation_map, sorted_by_perm.
Qed.

End Processor.

End AggregateFacts.

(** ** The rest of the query processors *)

Module ProcessorFacts.
Import Py Predicates MorePredicates PyFacts PyMoreFacts.

Lemma Permutation_filter_of {A} (f : A -> bool) (l1 l2 : list A) :
  Permutation l1 l2 -> Permutation (filter f l1) (filter f l2).
Proof.
  induction 1 as [| x l1 l2 _ IH | x y l | l1 l2 l3 _ IH1 _ IH2]; simpl.
  - constructor.
  - destruct (f x); [now constructor | exact IH].
  - destruct (f x), (f y); try apply Permutation_refl. apply perm_swap.
  - eapply perm_trans; eassumption.
Qed.

Section Shards.

Variable isfile : string -> bool.
Variable Indexer : Type.
Variable indexer_add_shard :
  Indexer -> string -> result unit * Indexer * list string.

#[local] Abbreviation add_shard :=
  (ProcessorShards.add_shard isfile indexer_add_shard).

(** X5: [QueryProcessor.add_shard] hands a path to the index handler only
    when it is an existing file whose name ends in [.index], and then
    does what the handler does.  Any other path leaves the processor as
    it is and prints one line: that the path does not specify a file
    when it is no file, else that it does not lead to [.index]; the
    message [Unexpected input] is never printed. *)
Theorem processor_add_shard_guard (self : QueryProcessor.processor Indexer)
    (shard_path : string) :
  let '(ret, self', out) := add_shard self shard_path in
  (isfile shard_path = true /\ endswith shard_path ".index" = true
   /\ (ret, QueryProcessor.indexer self', out)
      = indexer_add_shard (QueryProcessor.indexer self) shard_path
   /\ QueryProcessor.n_queries self' = QueryProcessor.n_queries self)
  \/
  (ret = Ok tt /\ self' = self
   /\ ((isfile shard_path = false
        /\ out = [("Error: Path does not specify a file: " ++ shard_path)%string])
       \/ (isfile shard_path = true /\ endswith shard_path ".index" = false
           /\ out = [("Error: Path does not lead to .index: "
                      ++ shard_path)%string]))).
Proof.
  unfold ProcessorShards.add_shard.
  destruct (isfile shard_path) eqn:Ef;
    destruct (endswith shard_path ".index") eqn:Ee; simpl.
  - destruct (indexer_add_shard (QueryProcessor.indexer self) shard_path)
      as [[r ix] out].
    left. simpl. repeat split; reflexivity.
  - right. split; [reflexivity |]. split; [reflexivity |]. right.
    repeat split; reflexivity.
  - right. split; [reflexivity |]. split; [reflexivity |]. left.
    repeat split; reflexivity.
  - right. split; [reflexivity |]. split; [reflexivity |]. left.
    repeat split; reflexivity.
Qed.

End Shards.

Section Api.

Variable str_float : float -> string.

Lemma api_collect_values (l : list (float * Z)) (docs : ApiQueryProcessor.DocHits) :
  Permutation
    (List.concat (map snd (fold_left ApiQueryProcessor.add_hit l docs)))
    (List.concat (map snd docs)
     ++ map (fun hit => (ApiQueryProcessor.min_diff_cutoff (fst hit), snd hit)) l).
Proof.
  revert docs. induction l as [| [s i] l IH]; cbn [fold_left]; intros docs.
  - simpl. rewrite app_nil_r. apply Permutation_refl.
  - eapply perm_trans; [apply IH |].
    rewrite QueryProcessorFacts.api_add_hit_eq. unfold api_hits_of.
    cbn [map fst snd].
    eapply perm_trans; [apply Permutation_app_tail, AggregateFacts.dict_append_values |].
    rewrite <- app_assoc. apply Permutation_refl.
Qed.

#[local] Abbreviation render :=
  (fun hit : float * Z =>
     {| ApiQueryProcessor.score := str_float (fst hit);
        ApiQueryProcessor.sentence_id := str_int (snd hit) |}).

Lemma api_doc_records (ids0 : list Z) (e : string * list (float * Z)) :
  api_grouped ids0 e ->
  ApiQueryProcessor.doc_records str_float e
  = Ok (map render (filter (fun hit => 10000 <=? snd hit) (snd e))).
Proof.
  destruct e as [k hits]. intros [d [Hd Hall]]. simpl in Hd, Hall. subst k.
  unfold ApiQueryProcessor.doc_records. rewrite int_str_int. cbn [bind snd].
  assert (E : filter (fun hit : float * Z => 10000 <=? snd hit) hits
              = if 0 <? d then hits else []).
  { induction Hall as [| [sc i] rest [Hi _] _ IH]; simpl.
    - now destruct (0 <? d).
    - simpl in Hi. rewrite IH.
      destruct (0 <? d) eqn:Ed.
      + apply Z.ltb_lt in Ed.
        assert (10000 <= i).
        { destruct (Z_lt_le_dec i 10000) as [Hlt | Hge]; [| exact Hge].
          pose proof (Z.div_lt_upper_bound i 10000 1). lia. }
        apply Z.leb_le in H. now rewrite H.
      + apply Z.ltb_ge in Ed.
        assert (i < 10000).
        { destruct (Z_lt_le_dec i 10000) as [Hlt | Hge]; [exact Hlt |].
          pose proof (Z.div_le_lower_bound i 10000 1). lia. }
        apply Z.leb_gt in H. now rewrite H. }
  rewrite E. destruct (0 <? d); [| reflexivity].
  f_equal. apply map_ext. now intros [sc i].
Qed.

Lemma api_format_payload_closed (ids0 : list Z)
    (docs : ApiQueryProcessor.DocHits) :
  Forall (api_grouped ids0) docs ->
  ApiQueryProcessor.format_payload str_float docs
  = Ok (sorted_by ApiQueryProcessor.score
          (map render
             (filter (fun hit => 10000 <=? snd hit)
                (List.concat (map snd docs))))).
Proof.
  intros H. unfold ApiQueryProcessor.format_payload.
  assert (E : mapM (ApiQueryProcessor.doc_records str_float) docs
              = Ok (map (fun e => map render
                                    (filter (fun hit => 10000 <=? snd hit) (snd e)))
                      docs)).
  { induction H as [| e rest He _ IH]; [reflexivity |].
    cbn [mapM map]. rewrite (api_doc_records ids0 e He), IH. reflexivity. }
  rewrite E. cbn [bind]. do 2 f_equal.
  clear. induction docs as [| [k hits] rest IH]; simpl; [reflexivity |].
  now rewrite filter_app, map_app, IH.
Qed.

Variable QueryVector : Type.
Variable make_vectors : list string -> result QueryVector.
Variable Indexer : Type.
Variable indexer_search :
  Indexer -> QueryVector -> Z ->
  result (list (list float) * list (list Z)) * Indexer.

#[local] Abbreviation query_corpus :=
  (ApiQueryCorpus.query_corpus str_float make_vectors indexer_search).

(** X6: when the vectorizer answers and the index handler, asked for
    [max(500, 10 k)] neighbours, returns a row of scores and a row of
    ids, [query_corpus] of [dt_sim_api] returns the first [k] records of
    a list that holds one record [(str(max(score, 0.1)), str(id))] for
    each hit with [id >= 10000] and none for any other hit (so none for
    the sentences of document 0), in ascending order of the score
    strings. *)
Theorem api_query_corpus_payload (indexer ix : Indexer) (query_str : string)
    (k : Z) (query_vector : QueryVector) (scores0 : list float)
    (scores' : list (list float)) (ids0 : list Z) (ids' : list (list Z)) :
  make_vectors [query_str] = Ok query_vector ->
  indexer_search indexer query_vector (Z.max 500 (10 * k))
  = (Ok (scores0 :: scores', ids0 :: ids'), ix) ->
  exists records,
    query_corpus indexer query_str k = (Ok (slice_to records k), ix)
    /\ Permutation records (api_records str_float scores0 ids0)
    /\ StronglySorted
         (fun a b =>
            String.leb (ApiQueryProcessor.score a) (ApiQueryProcessor.score b)
            = true) records.
Proof.
  intros Hv Hs. unfold ApiQueryCorpus.query_corpus. rewrite Hv, Hs.
  unfold ApiQueryProcessor.aggregate_docs. cbn [bind item0].
  rewrite (api_format_payload_closed ids0)
    by apply QueryProcessorFacts.api_collect_grouped.
  cbn [bind]. eexists. split; [reflexivity |]. split.
  - eapply perm_trans; [apply sorted_by_perm |].
    unfold api_records.
    assert (P := api_collect_values (zip scores0 ids0) []).
    cbn [map List.concat app] in P.
    apply (Permutation_filter_of (fun hit => 10000 <=? snd hit)) in P.
    apply (Permutation_map render) in P.
    eapply perm_trans; [exact P |].
    clear. induction (zip scores0 ids0) as [| [s i] l IH]; simpl;
      [constructor |].
    destruct (10000 <=? i); simpl; [now constructor | exact IH].
  - apply (sorted_by_strongly_sorted ApiQueryProcessor.score).
Qed.

End Api.

End ProcessorFacts.

(** ** Dates in paths *)

Module DateFacts.
Import Py MorePredicates.

(** The characters of a date. *)
Lemma digit_bounds (c : ascii) :
  DateSeed.is_digit c = true ->
  Ascii.compare "0" c <> Gt /\ Ascii.compare c "9" <> Gt.
Proof.
  destruct c as [[] [] [] [] [] [] [] []]; vm_compute; intros H;
    try discriminate H; split; discriminate.
Qed.

Lemma sep_bounds (c : ascii) :
  DateSeed.is_sep c = true -> Ascii.compare "-" c <> Gt.
Proof.
  destruct c as [[] [] [] [] [] [] [] []]; vm_compute; intros H;
    try discriminate H; discriminate.
Qed.

Lemma match_here_date (s d : string) :
  DateSeed.match_here s = Some d ->
  exists y1 y2 y3 y4 s1 m1 m2 s2 d1 d2,
    d = String y1 (String y2 (String y3 (String y4 (String s1
          (String m1 (String m2 (String s2 (String d1 (String d2 "")))))))))
    /\ Forall (fun c => DateSeed.is_digit c = true) [y1; y2; y3; y4; m1; m2; d1; d2]
    /\ Forall (fun c => DateSeed.is_sep c = true) [s1; s2].
Proof.
  unfold DateSeed.match_here.
  destruct s as [| y1 [| y2 [| y3 [| y4 [| s1 [| m1 [| m2 [| s2 [| d1 [| d2 s]]]]]]]]]];
    try discriminate.
  destruct (DateSeed.is_digit y1) eqn:E1; [| discriminate].
  destruct (DateSeed.is_digit y2) eqn:E2; [| discriminate].
  destruct (DateSeed.is_digit y3) eqn:E3; [| discriminate].
  destruct (DateSeed.is_digit y4) eqn:E4; [| discriminate].
  destruct (DateSeed.is_sep s1) eqn:E5; [| discriminate].
  destruct (DateSeed.is_digit m1) eqn:E6; [| discriminate].
  destruct (DateSeed.is_digit m2) eqn:E7; [| discriminate].
  destruct (DateSeed.is_sep s2) eqn:E8; [| discriminate].
  destruct (DateSeed.is_digit d1) eqn:E9; [| discriminate].
  destruct (DateSeed.is_digit d2) eqn:E10; [| discriminate].
  cbn [andb]. intros [= <-].
  exists y1, y2, y3, y4, s1, m1, m2, s2, d1, d2. split.
  - now destruct s.
  - split; repeat constructor; assumption.
Qed.

Lemma search_date (s d : string) :
  DateSeed.search s = Some d ->
  exists y1 y2 y3 y4 s1 m1 m2 s2 d1 d2,
    d = String y1 (String y2 (String y3 (String y4 (String s1
          (String m1 (String m2 (String s2 (String d1 (String d2 "")))))))))
    /\ Forall (fun c => DateSeed.is_digit c = true) [y1; y2; y3; y4; m1; m2; d1; d2]
    /\ Forall (fun c => DateSeed.is_sep c = true) [s1; s2].
Proof.
  induction s as [| c s IH].
  - simpl. discriminate.
  - cbn [DateSeed.search].
    destruct (DateSeed.match_here (String c s)) as [d' |] eqn:E.
    + intros [= <-]. now apply (match_here_date (String c s)).
    + exact IH.
Qed.

(** Every date is within the default window unless its year is 9999. *)
Lemma default_window (s d : string) :
  DateSeed.search s = Some d ->
  before_9999 d ->
  String.leb "0000-00-00" d && String.leb d "9999-99-99" = true.
Proof.
  intros H Hy.
  destruct (search_date s d H)
    as (y1 & y2 & y3 & y4 & s1 & m1 & m2 & s2 & d1 & d2 & -> & Hd & Hs).
  repeat match goal with
         | H : Forall _ (_ :: _) |- _ => inversion H; subst; clear H
         | H : Forall _ [] |- _ => clear H
         end.
  repeat match goal with
         | H : DateSeed.is_digit _ = true |- _ => apply digit_bounds in H
         | H : DateSeed.is_sep _ = true |- _ => apply sep_bounds in H
         end.
  unfold before_9999 in Hy. cbn [substring] in Hy.
  apply andb_true_intro. split; unfold String.leb; cbn [String.compare].
  - repeat match goal with
           | |- context [Ascii.compare ?a ?b] =>
               let E := fresh "E" in
               destruct (Ascii.compare a b) eqn:E;
               [| reflexivity | exfalso; intuition congruence]
           end.
    reflexivity.
  - destruct (Ascii.compare y1 "9") eqn:E1;
      [| reflexivity | exfalso; intuition congruence].
    destruct (Ascii.compare y2 "9") eqn:E2;
      [| reflexivity | exfalso; intuition congruence].
    destruct (Ascii.compare y3 "9") eqn:E3;
      [| reflexivity | exfalso; intuition congruence].
    destruct (Ascii.compare y4 "9") eqn:E4;
      [| reflexivity | exfalso; intuition congruence].
    apply Ascii.compare_eq_iff in E1, E2, E3, E4. subst.
    now contradiction Hy.
Qed.

Lemma prefix_refl_app (a b : string) : prefix a (a ++ b) = true.
Proof.
  induction a as [| c a IH]; [now destruct b |].
  simpl. destruct (ascii_dec c c) as [_ | H]; [exact IH | now contradiction H].
Qed.

Lemma prefix_app (a s : string) :
  prefix a s = true -> exists rest, s = (a ++ rest)%string.
Proof.
  revert s. induction a as [| c a IH]; intros s H.
  - exists s. reflexivity.
  - destruct s as [| c' s]; [discriminate |]. simpl in H.
    destruct (ascii_dec c c') as [<- | _]; [| discriminate].
    destruct (IH s H) as [rest ->]. now exists rest.
Qed.

Lemma match_here_app (s d : string) :
  DateSeed.match_here s = Some d -> exists rest, s = (d ++ rest)%string.
Proof.
  unfold DateSeed.match_here.
  destruct s as [| y1 [| y2 [| y3 [| y4 [| s1 [| m1 [| m2 [| s2 [| d1 [| d2 s]]]]]]]]]];
    try discriminate.
  destruct (_ && _); [| discriminate].
  intros [= <-]. exists s. cbn. now destruct s.
Qed.

Lemma shaped_match_here (d rest : string) :
  date_shaped d -> DateSeed.match_here (d ++ rest) = Some d.
Proof.
  intros (y1 & y2 & y3 & y4 & s1 & m1 & m2 & s2 & d1 & d2 & -> & Hd & Hs).
  repeat match goal with
         | H : Forall _ (_ :: _) |- _ => inversion H; subst; clear H
         | H : Forall _ [] |- _ => clear H
         end.
  cbn [append DateSeed.match_here].
  repeat match goal with
         | H : _ = true |- _ => rewrite H; clear H
         end.
  cbn. now destruct rest.
Qed.

(** A path holds the date found in it. *)
Lemma search_contains (s d : string) :
  DateSeed.search s = Some d -> contains d s = true.
Proof.
  induction s as [| c s IH].
  - simpl. discriminate.
  - cbn [DateSeed.search].
    destruct (DateSeed.match_here (String c s)) as [d' |] eqn:E.
    + intros [= <-]. destruct (match_here_app _ _ E) as [rest Hrest].
      rewrite Hrest. destruct (d' ++ rest)%string eqn:Eapp.
      * destruct d'; discriminate.
      * cbn [contains]. rewrite <- Eapp.
        now rewrite prefix_refl_app.
    + intros H. cbn [contains]. rewrite (IH H). apply orb_true_r.
Qed.

(** A path that holds a date has a date. *)
Lemma contains_dated (s d : string) :
  date_shaped d -> contains d s = true -> DateSeed.search s <> None.
Proof.
  intros Hd. induction s as [| c s IH]; cbn [contains].
  - destruct Hd as (y1 & y2 & y3 & y4 & s1 & m1 & m2 & s2 & d1 & d2 & -> & _).
    simpl. discriminate.
  - intros H. apply orb_true_iff in H. cbn [DateSeed.search].
    destruct H as [H | H].
    + destruct (prefix_app _ _ H) as [rest ->].
      now rewrite (shaped_match_here d rest Hd).
    + destruct (DateSeed.match_here (String c s)); [discriminate | now apply IH].
Qed.

Lemma search_shaped (s d : string) : DateSeed.search s = Some d -> date_shaped d.
Proof. apply search_date. Qed.

Lemma append_assoc (a b c : string) :
  ((a ++ b) ++ c)%string = (a ++ (b ++ c))%string.
Proof. induction a as [| x a IH]; simpl; [reflexivity | now rewrite IH]. Qed.

Lemma search_long (s d : string) :
  DateSeed.search s = Some d -> (10 <= String.length s)%nat.
Proof.
  induction s as [| c s IH].
  - simpl. discriminate.
  - cbn [DateSeed.search].
    destruct (DateSeed.match_here (String c s)) as [d' |] eqn:E.
    + intros _. destruct (match_here_app _ _ E) as [rest Hrest].
      destruct (match_here_date _ _ E)
        as (y1 & y2 & y3 & y4 & s1 & m1 & m2 & s2 & d1 & d2 & -> & _).
      rewrite Hrest. simpl. lia.
    + intros H. specialize (IH H). simpl. lia.
Qed.

Lemma match_here_none_app (s b : string) :
  (10 <= String.length s)%nat ->
  DateSeed.match_here s = None ->
  DateSeed.match_here (s ++ b) = None.
Proof.
  destruct s as [| y1 [| y2 [| y3 [| y4 [| s1 [| m1 [| m2 [| s2 [| d1 [| d2 s]]]]]]]]]];
    simpl; try lia.
  intros _. now destruct (_ && _).
Qed.

(** The first date of a path stays the first when the path goes on. *)
Lemma search_app (a b d : string) :
  DateSeed.search a = Some d -> DateSeed.search (a ++ b) = Some d.
Proof.
  induction a as [| c a IH].
  - simpl. discriminate.
  - intros H. pose proof (search_long _ _ H) as Hlen.
    cbn [DateSeed.search] in H. cbn [append DateSeed.search].
    change (String c (a ++ b)) with (String c a ++ b)%string.
    destruct (DateSeed.match_here (String c a)) as [d' |] eqn:E.
    + injection H as <-. destruct (match_here_app _ _ E) as [rest Hrest].
      rewrite Hrest, append_assoc.
      rewrite shaped_match_here; [reflexivity |].
      now apply (match_here_date (String c a)).
    + rewrite (match_here_none_app _ b Hlen E). now apply IH.
Qed.

End DateFacts.

(** ** More on the shard handlers *)

Module ShardMoreFacts.
Import Py Predicates MorePredicates PyFacts PyMoreFacts DateFacts.

Section Handlers.

Variable Index : Type.
Variable QueryVector : Type.
Variable read_index : string -> option Index.
Variable read_index_ondisk : string -> option Index.
Variable range_search : Index -> Z -> QueryVector -> float -> list float * list Z.
Variable reshape : QueryVector -> QueryVector.
Variable joint_sort :
  list (list float) -> list (list Z) -> list (list float) * list (list Z).

#[local] Abbreviation handler := (RangeShards.handler Index).
#[local] Abbreviation Shard := (RangeShards.Shard Index).
#[local] Abbreviation search := (RangeShards.search range_search reshape joint_sort).
#[local] Abbreviation start_search := (RangeShards.start_search range_search).
#[local] Abbreviation answer := (answer range_search).
#[local] Abbreviation add_shard :=
  (RangeShards.add_shard read_index read_index_ondisk).
#[local] Abbreviation deploy_add_shard :=
  (DeployShards.add_shard read_index read_index_ondisk).
#[local] Abbreviation init := (RangeShards.init read_index read_index_ondisk).
#[local] Abbreviation opened := (opened read_index read_index_ondisk).

Lemma released (self : handler) :
  RangeShards.lock self = false ->
  RangeShards.set_lock
    (RangeShards.set_results (RangeShards.set_lock self true) []) false
  = RangeShards.set_results self [].
Proof. destruct self. simpl. now intros ->. Qed.

(** X7: a search that returns leaves the handler free, with an empty
    queue and the shards it had; with an empty queue before, the handler
    is exactly as it was.  So the next search returns too, and what it
    retains comes from the answers to its own query alone. *)
Theorem search_leaves_handler_free (self : handler)
    (query_vector : QueryVector) (k : Z) (radius : float)
    (start end_ : string) :
  RangeShards.lock self = false ->
  Forall dated (RangeShards.shards self) ->
  let r := search self query_vector k radius start end_ in
  RangeShards.after r = RangeShards.set_results self []
  /\ (RangeShards.results self = [] -> RangeShards.after r = self)
  /\ forall query_vector' k' radius' start' end',
       let r' :=
         search (RangeShards.after r) query_vector' k' radius' start' end' in
       let answers :=
         map (answer (reshape query_vector') radius')
           (addressed start' end' (RangeShards.shards self)) in
       RangeShards.after r' = RangeShards.after r
       /\ RangeShards.retained r'
          = (List.concat (map (fun a => slice_to (fst a) k') answers),
             List.concat (map (fun a => slice_to (snd a) k') answers))
       /\ RangeShards.ended r'
          = RangeShards.Returned
              (joint_sort
                 [List.concat (map (fun a => slice_to (fst a) k') answers)]
                 [List.concat (map (fun a => slice_to (snd a) k') answers)]).
Proof.
  intros Hlock Hdated r.
  assert (E : RangeShards.after r = RangeShards.set_results self []).
  { unfold r.
    rewrite (ShardFacts.search_dated _ _ range_search reshape joint_sort self
               query_vector k radius start end_ Hlock Hdated).
    cbn [RangeShards.after]. now apply released. }
  split; [exact E |]. split.
  - intros Hq. rewrite E. destruct self. simpl in *. now subst.
  - intros query_vector' k' radius' start' end' r' answers.
    unfold r'. rewrite E.
    assert (Hlock' : RangeShards.lock (RangeShards.set_results self []) = false)
      by exact Hlock.
    assert (Hdated' :
              Forall dated (RangeShards.shards (RangeShards.set_results self [])))
      by exact Hdated.
    rewrite (ShardFacts.search_dated _ _ range_search reshape joint_sort _
               query_vector' k' radius' start' end' Hlock' Hdated').
    cbn [RangeShards.after RangeShards.retained RangeShards.ended
         RangeShards.set_results RangeShards.results RangeShards.shards app].
    repeat split. destruct self. simpl in *. now subst.
Qed.

Lemma start_search_queue (entries : list (string * Shard))
    (query_vector : QueryVector) (radius : float) (start end_ : string)
    (st : RangeShards.dispatch) :
  let out := start_search entries query_vector radius start end_ st in
  exists sent answers,
    RangeShards.sent (fst out) = RangeShards.sent st ++ sent
    /\ RangeShards.queue (fst out) = RangeShards.queue st ++ answers
    /\ List.length answers = List.length sent
    /\ incl sent (map fst entries).
Proof.
  revert st. induction entries as [| [shard_name shard] rest IH]; intros st.
  - exists [], []. simpl. rewrite !app_nil_r. repeat split. apply incl_refl.
  - cbn [RangeShards.start_search].
    destruct (DateSeed.search shard_name) as [d |].
    + destruct (String.leb start d && String.leb d end_).
      * match goal with
        | |- context [RangeShards.start_search _ rest _ _ _ _ ?st'] =>
            destruct (IH st') as [sent [answers [Hs [Hq [Hl Hi]]]]]
        end.
        cbv zeta in Hs, Hq. cbn [RangeShards.sent RangeShards.queue] in Hs, Hq.
        eexists (shard_name :: sent), (_ :: answers).
        cbv zeta. rewrite Hs, Hq. unfold RangeShards.run.
        rewrite <- !app_assoc. cbn [app].
        split; [reflexivity |]. split; [reflexivity |]. split.
        -- simpl. now rewrite Hl.
        -- intros x [<- | Hx]; [now left | right; now apply Hi].
      * destruct (IH st) as [sent [answers [Hs [Hq [Hl Hi]]]]].
        exists sent, answers. repeat split; try assumption.
        intros x Hx. right. now apply Hi.
    + exists [], []. simpl. rewrite !app_nil_r. repeat split.
      intros x [].
Qed.

Lemma search_undated (self : handler) (query_vector : QueryVector) (k : Z)
    (radius : float) (start end_ : string) :
  RangeShards.lock self = false ->
  Exists (fun e => DateSeed.search (fst e) = None) (RangeShards.shards self) ->
  let r := search self query_vector k radius start end_ in
  RangeShards.ended r = RangeShards.Raised AttributeError
  /\ RangeShards.lock (RangeShards.after r) = true
  /\ List.length (RangeShards.results (RangeShards.after r))
     = (List.length (RangeShards.results self)
        + List.length (RangeShards.dispatched r))%nat.
Proof.
  intros Hlock Hex r. unfold r, RangeShards.search. rewrite Hlock.
  cbn [RangeShards.shards RangeShards.results RangeShards.set_lock].
  pose proof (ShardFacts.start_search_undated _ _ range_search
                (RangeShards.shards self) (reshape query_vector) radius
                start end_
                {| RangeShards.queue := RangeShards.results self;
                   RangeShards.n_results := 0; RangeShards.sent := [] |}
                Hex (Forall_nil _)) as [Hraise _].
  pose proof (start_search_queue (RangeShards.shards self)
                (reshape query_vector) radius start end_
                {| RangeShards.queue := RangeShards.results self;
                   RangeShards.n_results := 0; RangeShards.sent := [] |})
    as [sent [answers [Hs [Hq [Hl _]]]]].
  cbv zeta in Hraise, Hs, Hq.
  destruct (RangeShards.start_search _ _ _ _ _ _ _) as [st raised].
  simpl in Hraise, Hs, Hq. subst raised.
  cbn [RangeShards.ended RangeShards.after RangeShards.dispatched
       RangeShards.set_results RangeShards.lock RangeShards.results].
  repeat split.
  rewrite Hq, Hs, length_app. simpl. now rewrite Hl.
Qed.

(** X8: a search that raises on a shard without a date leaves the
    handler locked, and leaves on the queue one answer for every shard it
    had reached.  From then on every search waits for the lock: it sends
    no range search, returns nothing and changes nothing. *)
Theorem search_raise_keeps_lock (self : handler)
    (query_vector : QueryVector) (k : Z) (radius : float)
    (start end_ : string) :
  RangeShards.lock self = false ->
  Exists (fun e => DateSeed.search (fst e) = None) (RangeShards.shards self) ->
  let r := search self query_vector k radius start end_ in
  RangeShards.ended r = RangeShards.Raised AttributeError
  /\ RangeShards.lock (RangeShards.after r) = true
  /\ List.length (RangeShards.results (RangeShards.after r))
     = (List.length (RangeShards.results self)
        + List.length (RangeShards.dispatched r))%nat
  /\ forall query_vector' k' radius' start' end',
       search (RangeShards.after r) query_vector' k' radius' start' end'
       = {| RangeShards.ended := RangeShards.Waits;
            RangeShards.after := RangeShards.after r;
            RangeShards.dispatched := [];
            RangeShards.retained := ([], []) |}.
Proof.
  intros Hlock Hex r.
  destruct (search_undated self query_vector k radius start end_ Hlock Hex)
    as [He [Hl Hq]].
  fold r in He, Hl, Hq. repeat split; try assumption.
  intros. unfold RangeShards.search. now rewrite Hl.
Qed.

(** X9: with the default window, a free handler whose shard names all
    hold a date with a year other than 9999 sends the range search to
    every mounted shard, in mount order. *)
Theorem default_window_reaches_every_shard (self : handler)
    (query_vector : QueryVector) (k : Z) (radius : float) :
  RangeShards.lock self = false ->
  (forall shard_name shard,
     In (shard_name, shard) (RangeShards.shards self) ->
     exists shard_date,
       DateSeed.search shard_name = Some shard_date
       /\ before_9999 shard_date) ->
  RangeShards.dispatched
    (search self query_vector k radius "0000-00-00" "9999-99-99")
  = map fst (RangeShards.shards self).
Proof.
  intros Hlock Hall.
  assert (Hdated : Forall dated (RangeShards.shards self)).
  { apply Forall_forall. intros [n sh] Hin.
    destruct (Hall n sh Hin) as [d [Hd _]]. unfold dated. simpl. congruence. }
  rewrite (ShardFacts.search_dated _ _ range_search reshape joint_sort self
             query_vector k radius _ _ Hlock Hdated).
  cbn [RangeShards.dispatched]. f_equal. unfold addressed.
  clear Hdated. revert Hall.
  generalize (RangeShards.shards self) as entries.
  induction entries as [| [n sh] rest IH]; intros Hall; [reflexivity |].
  cbn [filter fst]. unfold in_window at 1.
  destruct (Hall n sh (or_introl eq_refl)) as [d [Hd Hy]].
  rewrite Hd, (default_window n d Hd Hy). f_equal. apply IH.
  intros n' sh' Hin. apply (Hall n' sh'). now right.
Qed.

(** X22: the date of a shard is the first date in its name, and the
    name is the whole path without [.index].  So a shard below a
    directory whose name holds a date is addressed by the date of the
    directory, whatever date its file name holds: it is sent the range
    search exactly when the directory's date is in the window. *)
Theorem first_date_of_path_decides (self : handler)
    (query_vector : QueryVector) (k : Z) (radius : float)
    (start end_ : string) (dir file : string) (shard : Shard)
    (dir_date : string) :
  RangeShards.lock self = false ->
  Forall dated (RangeShards.shards self) ->
  In ((dir ++ file)%string, shard) (RangeShards.shards self) ->
  DateSeed.search dir = Some dir_date ->
  (In (dir ++ file)%string
     (RangeShards.dispatched (search self query_vector k radius start end_))
   <-> String.leb start dir_date && String.leb dir_date end_ = true).
Proof.
  intros Hlock Hdated Hin Hdir.
  rewrite (ShardFacts.search_dated _ _ range_search reshape joint_sort self
             query_vector k radius start end_ Hlock Hdated).
  cbn [RangeShards.dispatched]. unfold addressed.
  assert (Hw : in_window start end_ (dir ++ file)
               = String.leb start dir_date && String.leb dir_date end_).
  { unfold in_window. now rewrite (search_app dir file dir_date Hdir). }
  rewrite <- Hw. split.
  - intros H. apply in_map_iff in H. destruct H as [[n sh] [Hn He]].
    simpl in Hn. subst n. apply filter_In in He. now destruct He.
  - intros H. apply in_map_iff. exists ((dir ++ file)%string, shard).
    split; [reflexivity |]. apply filter_In. auto.
Qed.

Lemma new_shard_opened (shard_name shard_path : string) (nprobe : Z) :
  RangeShards.new_shard read_index read_index_ondisk shard_name shard_path nprobe
  = match opened shard_path with
    | Some ix =>
        Ok {| RangeShards.name := shard_name; RangeShards.shard_index := ix;
              RangeShards.shard_nprobe := nprobe |}
    | None => Raise RuntimeError
    end.
Proof.
  unfold RangeShards.new_shard, MorePredicates.opened.
  destruct (read_index shard_path); [reflexivity |].
  now destruct (read_index_ondisk shard_path).
Qed.

Lemma add_shard_offline (self : handler) (new_shard_path : string) :
  online self new_shard_path = false ->
  add_shard self new_shard_path
  = match opened new_shard_path with
    | Some ix =>
        (Ok tt,
         {| RangeShards.paths_to_shards :=
              RangeShards.paths_to_shards self ++ [new_shard_path];
            RangeShards.nprobe := RangeShards.nprobe self;
            RangeShards.dynamic := RangeShards.dynamic self;
            RangeShards.lock := false;
            RangeShards.results := RangeShards.results self;
            RangeShards.shards :=
              RangeShards.shards self
              ++ [(RangeShards.shard_name_of new_shard_path,
                   {| RangeShards.name :=
                        RangeShards.shard_name_of new_shard_path;
                      RangeShards.shard_index := ix;
                      RangeShards.shard_nprobe := RangeShards.nprobe self |})];
            RangeShards.n_shards := RangeShards.n_shards self |},
         [])
    | None =>
        (Raise RuntimeError,
         {| RangeShards.paths_to_shards :=
              RangeShards.paths_to_shards self ++ [new_shard_path];
            RangeShards.nprobe := RangeShards.nprobe self;
            RangeShards.dynamic := RangeShards.dynamic self;
            RangeShards.lock := true;
            RangeShards.results := RangeShards.results self;
            RangeShards.shards := RangeShards.shards self;
            RangeShards.n_shards := RangeShards.n_shards self |},
         [])
    end.
Proof.
  unfold online. intros Hoff. unfold RangeShards.add_shard.
  cbn [RangeShards.paths_to_shards RangeShards.shards RangeShards.set_lock].
  rewrite Hoff. unfold RangeShards.load_shard.
  cbn [RangeShards.nprobe RangeShards.shards RangeShards.paths_to_shards
       RangeShards.dynamic RangeShards.lock RangeShards.results
       RangeShards.n_shards].
  rewrite new_shard_opened.
  apply orb_false_elim in Hoff. destruct Hoff as [_ Hkey].
  destruct (opened new_shard_path) as [ix |]; [| reflexivity].
  cbn [RangeShards.set_lock RangeShards.nprobe RangeShards.shards
       RangeShards.paths_to_shards RangeShards.dynamic RangeShards.lock
       RangeShards.results RangeShards.n_shards].
  now rewrite (dict_set_new _ _ _ Hkey).
Qed.

(** X10: [add_shard] of a path that is not online and can be opened
    returns without a warning and leaves the handler free, the path last
    in [paths_to_shards] and the shard mounted last under its name;
    [n_shards] stays what it was.  The next search raises
    [AttributeError] when the new name holds no date; otherwise it sends
    the range search to the shards it addressed before and then, when its
    date is in the window, to the new shard. *)
Theorem add_shard_then_search (self : handler) (new_shard_path : string)
    (ix : Index) :
  online self new_shard_path = false ->
  opened new_shard_path = Some ix ->
  RangeShards.lock self = false ->
  Forall dated (RangeShards.shards self) ->
  exists self',
    add_shard self new_shard_path = (Ok tt, self', [])
    /\ RangeShards.lock self' = false
    /\ RangeShards.paths_to_shards self'
       = RangeShards.paths_to_shards self ++ [new_shard_path]
    /\ map fst (RangeShards.shards self')
       = map fst (RangeShards.shards self)
         ++ [RangeShards.shard_name_of new_shard_path]
    /\ RangeShards.n_shards self' = RangeShards.n_shards self
    /\ forall query_vector k radius start end_,
         let r := search self' query_vector k radius start end_ in
         match DateSeed.search (RangeShards.shard_name_of new_shard_path) with
         | None => RangeShards.ended r = RangeShards.Raised AttributeError
         | Some shard_date =>
             RangeShards.dispatched r
             = RangeShards.dispatched
                 (search self query_vector k radius start end_)
               ++ (if String.leb start shard_date
                      && String.leb shard_date end_
                   then [RangeShards.shard_name_of new_shard_path] else [])
         end.
Proof.
  intros Hoff Hopen Hlock Hdated. rewrite (add_shard_offline _ _ Hoff), Hopen.
  eexists. split; [reflexivity |].
  cbn [RangeShards.lock RangeShards.paths_to_shards RangeShards.shards
       RangeShards.n_shards].
  split; [reflexivity |]. split; [reflexivity |]. split.
  { rewrite map_app. reflexivity. }
  split; [reflexivity |].
  intros query_vector k radius start end_.
  destruct (DateSeed.search (RangeShards.shard_name_of new_shard_path))
    as [shard_date |] eqn:Ed.
  - rewrite (ShardFacts.search_dated _ _ range_search reshape joint_sort self
               query_vector k radius start end_ Hlock Hdated).
    rewrite ShardFacts.search_dated.
    + cbn [RangeShards.dispatched RangeShards.shards]. unfold addressed.
      rewrite filter_app, map_app. f_equal.
      cbn [filter fst]. unfold in_window. rewrite Ed.
      now destruct (String.leb start shard_date && String.leb shard_date end_).
    + reflexivity.
    + cbn [RangeShards.shards]. apply Forall_app. split; [exact Hdated |].
      constructor; [| constructor]. unfold dated. simpl. congruence.
  - apply search_undated; [reflexivity |].
    cbn [RangeShards.shards]. apply Exists_app. right. now constructor.
Qed.

(** X11: when neither read opens the file, [add_shard] raises
    [RuntimeError] after it has listed the path: no shard is mounted,
    and [RangeShards] stays locked, so every search waits.  A later
    [add_shard] of the same path, whatever the reads would give by
    then, prints the warning and mounts nothing.  The same holds for
    [DeployShards]. *)
Theorem failed_add_shard_blocks_retry (self : handler)
    (dself : DeployShards.handler Index) (new_shard_path : string) :
  online self new_shard_path = false ->
  list_mem new_shard_path (DeployShards.paths_to_shards dself) = false ->
  opened new_shard_path = None ->
  (exists self',
     add_shard self new_shard_path = (Raise RuntimeError, self', [])
     /\ RangeShards.shards self' = RangeShards.shards self
     /\ RangeShards.paths_to_shards self'
        = RangeShards.paths_to_shards self ++ [new_shard_path]
     /\ (forall query_vector k radius start end_,
          RangeShards.ended (search self' query_vector k radius start end_)
          = RangeShards.Waits)
     /\ forall read_index' read_index_ondisk',
          RangeShards.add_shard read_index' read_index_ondisk' self'
            new_shard_path
          = (Ok tt, RangeShards.set_lock self' false,
             RangeShards.already_online))
  /\ exists dself',
       deploy_add_shard dself new_shard_path = (Raise RuntimeError, dself', [])
       /\ DeployShards.index dself' = DeployShards.index dself
       /\ DeployShards.paths_to_shards dself'
          = DeployShards.paths_to_shards dself ++ [new_shard_path]
       /\ forall read_index' read_index_ondisk',
            DeployShards.add_shard read_index' read_index_ondisk' dself'
              new_shard_path
            = (Ok tt, dself', DeployShards.already_online).
Proof.
  intros Hoff Hdoff Hopen. split.
  - rewrite (add_shard_offline _ _ Hoff), Hopen.
    eexists. split; [reflexivity |].
    split; [reflexivity |]. split; [reflexivity |]. split.
    + intros. reflexivity.
    + intros read_index' read_index_ondisk'.
      apply ShardFacts.add_shard_when_online. unfold online.
      cbn [RangeShards.paths_to_shards].
      now rewrite ShardFacts.list_mem_last.
  - unfold DeployShards.add_shard at 1. rewrite Hdoff.
    unfold DeployShards.load_shard. unfold MorePredicates.opened in Hopen.
    destruct (read_index new_shard_path); [discriminate |].
    rewrite Hopen.
    eexists. split; [reflexivity |].
    split; [reflexivity |]. split; [reflexivity |].
    intros read_index' read_index_ondisk'. unfold DeployShards.add_shard.
    cbn [DeployShards.paths_to_shards].
    now rewrite ShardFacts.list_mem_last.
Qed.

Lemma load_shards_spec (paths : list string) (self : handler) :
  NoDup (map fst (RangeShards.shards self)) ->
  match RangeShards.load_shards read_index read_index_ondisk self paths with
  | (Ok _, self1) =>
      Forall (fun p => opened p <> None) paths
      /\ RangeShards.paths_to_shards self1 = RangeShards.paths_to_shards self
      /\ RangeShards.lock self1 = RangeShards.lock self
      /\ RangeShards.results self1 = RangeShards.results self
      /\ RangeShards.dynamic self1 = RangeShards.dynamic self
      /\ NoDup (map fst (RangeShards.shards self1))
      /\ (forall shard_name,
            In shard_name (map fst (RangeShards.shards self1)) <->
            In shard_name (map fst (RangeShards.shards self))
            \/ In shard_name (map RangeShards.shard_name_of paths))
      /\ forall shard_name shard,
           In (shard_name, shard) (RangeShards.shards self1) ->
           In (shard_name, shard) (RangeShards.shards self)
           \/ exists p,
                In p paths /\ shard_name = RangeShards.shard_name_of p
                /\ RangeShards.name shard = shard_name
                /\ RangeShards.shard_nprobe shard = RangeShards.nprobe self
                /\ opened p = Some (RangeShards.shard_index shard)
  | (Raise e, _) =>
      e = RuntimeError /\ Exists (fun p => opened p = None) paths
  end.
Proof.
  revert self. induction paths as [| p rest IH]; intros self Hnd.
  - simpl. repeat split; auto; try tauto.
  - cbn [RangeShards.load_shards]. unfold RangeShards.load_shard.
    rewrite new_shard_opened.
    destruct (opened p) as [ix |] eqn:Ep.
    + match goal with
      | |- context [RangeShards.load_shards _ _ ?s rest] =>
          specialize (IH s); set (self1 := s) in *
      end.
      assert (Hnd1 : NoDup (map fst (RangeShards.shards self1)))
        by (apply dict_set_NoDup; exact Hnd).
      specialize (IH Hnd1).
      destruct (RangeShards.load_shards read_index read_index_ondisk self1 rest)
        as [[[] | e] self2].
      * destruct IH as (Hall & Hp & Hl & Hr & Hdy & Hnd2 & Hkeys & Hsh).
        split; [constructor; [congruence | exact Hall] |].
        repeat (split; [assumption |]). split.
        -- intros shard_name. rewrite Hkeys. subst self1.
           cbn [RangeShards.shards]. rewrite dict_set_keys.
           destruct (dict_mem (RangeShards.shards self)
                       (RangeShards.shard_name_of p)) eqn:Em.
           ++ apply dict_mem_In in Em. simpl. split.
              ** intros [H | H]; [now left | right; now right].
              ** intros [H | [<- | H]]; [now left | now left | now right].
           ++ rewrite in_app_iff. simpl. split.
              ** intros [[H | [<- | []]] | H]; auto.
              ** intros [H | [<- | H]]; auto.
        -- intros shard_name shard Hin. destruct (Hsh _ _ Hin) as [H | H].
           ++ subst self1. cbn [RangeShards.shards] in H.
              apply dict_set_In in H. destruct H as [[= -> ->] | H].
              ** right. exists p. repeat split; auto. now left.
              ** now left.
           ++ destruct H as (q & Hq & Hrest). right. exists q.
              split; [now right | exact Hrest].
      * destruct IH as [-> Hex]. split; [reflexivity | now right].
    + split; [reflexivity | now left].
Qed.

(** X12: the constructor of [RangeShards] raises [RuntimeError] exactly
    when one of the index paths cannot be opened.  Otherwise the handler
    is free with an empty queue, lists the paths it was given, holds
    each shard once under its name, counts them in [n_shards], has a
    shard for every path's name, each opened from a path of that name
    with the handler's [nprobe], and answers [add_shard] of any of its
    paths with the warning alone. *)
Theorem init_mounts_every_path (index_paths : list string) (nprobe : Z) :
  match init index_paths nprobe with
  | Ok self =>
      Forall (fun p => opened p <> None) index_paths
      /\ RangeShards.paths_to_shards self = index_paths
      /\ RangeShards.lock self = false
      /\ RangeShards.results self = []
      /\ RangeShards.n_shards self = List.length (RangeShards.shards self)
      /\ NoDup (map fst (RangeShards.shards self))
      /\ (forall shard_name,
            In shard_name (map fst (RangeShards.shards self)) <->
            In shard_name (map RangeShards.shard_name_of index_paths))
      /\ (forall shard_name shard,
            In (shard_name, shard) (RangeShards.shards self) ->
            exists p,
              In p index_paths /\ shard_name = RangeShards.shard_name_of p
              /\ RangeShards.name shard = shard_name
              /\ RangeShards.shard_nprobe shard = nprobe
              /\ opened p = Some (RangeShards.shard_index shard))
      /\ forall p,
           In p index_paths ->
           add_shard self p = (Ok tt, self, RangeShards.already_online)
  | Raise e =>
      e = RuntimeError /\ Exists (fun p => opened p = None) index_paths
  end.
Proof.
  unfold RangeShards.init.
  match goal with
  | |- context [RangeShards.load_shards _ _ ?s index_paths] =>
      pose proof (load_shards_spec index_paths s (NoDup_nil _)) as H;
      destruct (RangeShards.load_shards read_index read_index_ondisk s
                  index_paths) as [[[] | e] self1]
  end; [| exact H].
  cbn [RangeShards.paths_to_shards RangeShards.lock RangeShards.results
       RangeShards.dynamic RangeShards.shards RangeShards.nprobe
       RangeShards.n_shards map] in *.
  destruct H as (Hall & Hp & Hl & Hr & Hdy & Hnd & Hkeys & Hsh).
  repeat (split; [assumption || reflexivity |]). split.
  { intros shard_name. rewrite Hkeys. simpl. tauto. }
  split.
  { intros shard_name shard Hin. destruct (Hsh _ _ Hin) as [[] | H]. exact H. }
  intros p Hin. rewrite ShardFacts.add_shard_when_online.
  - f_equal. f_equal. unfold RangeShards.set_lock.
    cbn [RangeShards.paths_to_shards RangeShards.lock RangeShards.results
         RangeShards.dynamic RangeShards.shards RangeShards.nprobe
         RangeShards.n_shards].
    now rewrite Hl.
  - unfold online. cbn [RangeShards.paths_to_shards]. rewrite Hp.
    apply orb_true_intro. left. unfold list_mem. apply existsb_exists.
    exists p. split; [exact Hin | apply String.eqb_refl].
Qed.

End Handlers.

Section Processors.

Variable Index : Type.
Variable QueryVector : Type.
Variable isfile : string -> bool.
Variable read_index : string -> option Index.
Variable read_index_ondisk : string -> option Index.
Variable range_search : Index -> Z -> QueryVector -> float -> list float * list Z.
Variable reshape : QueryVector -> QueryVector.
Variable joint_sort :
  list (list float) -> list (list Z) -> list (list float) * list (list Z).

(** X24: the [except NameError] of [QueryProcessor.add_shard] does not
    shield the caller from a shard file that cannot be opened.  For an
    existing [.index] file that is not online and that neither read
    opens, [add_shard] of a processor over [RangeShards] raises
    [RuntimeError] and prints nothing; the handler is left locked with
    the path listed and no shard mounted, so every search through it
    waits. *)
Theorem processor_add_shard_unreadable
    (self : QueryProcessor.processor (RangeShards.handler Index))
    (shard_path : string) :
  isfile shard_path = true ->
  endswith shard_path ".index" = true ->
  online (QueryProcessor.indexer self) shard_path = false ->
  opened read_index read_index_ondisk shard_path = None ->
  exists self',
    ProcessorShards.add_shard isfile
      (RangeShards.add_shard read_index read_index_ondisk) self shard_path
    = (Raise RuntimeError, self', [])
    /\ QueryProcessor.n_queries self' = QueryProcessor.n_queries self
    /\ RangeShards.lock (QueryProcessor.indexer self') = true
    /\ RangeShards.shards (QueryProcessor.indexer self')
       = RangeShards.shards (QueryProcessor.indexer self)
    /\ RangeShards.paths_to_shards (QueryProcessor.indexer self')
       = RangeShards.paths_to_shards (QueryProcessor.indexer self)
         ++ [shard_path]
    /\ forall query_vector k radius start end_,
         RangeShards.ended
           (RangeShards.search range_search reshape joint_sort
              (QueryProcessor.indexer self') query_vector k radius start end_)
         = RangeShards.Waits.
Proof.
  intros Hfile Hsuffix Hoff Hopen. unfold ProcessorShards.add_shard.
  rewrite Hfile, Hsuffix. cbn [andb].
  rewrite (add_shard_offline _ read_index read_index_ondisk _ _ Hoff), Hopen.
  eexists. split; [reflexivity |].
  cbn [QueryProcessor.indexer QueryProcessor.n_queries RangeShards.lock
       RangeShards.shards RangeShards.paths_to_shards].
  repeat split.
Qed.

End Processors.

End ShardMoreFacts.

(** ** More on the index builder *)

Module BuilderMoreFacts.
Import Py Predicates MorePredicates PyFacts PyMoreFacts.

Section Builders.

Variable Code : Type.
Variable Vector : Type.
Variable assign : Vector -> nat.
Variable encode : Vector -> Code.
Variable writable : string -> bool.

#[local] Abbreviation filesystem := (Faiss.filesystem Code).
#[local] Abbreviation builder := OnDiskIVFBuilder.builder.
#[local] Abbreviation generate_subindex :=
  (OnDiskIVFBuilder.generate_subindex assign encode writable).

Lemma index_path_clear_true (fs : filesystem) (index_path file_suffix : string)
    (out : list string) :
  OnDiskIVFBuilder.index_path_clear fs index_path file_suffix = (true, out) ->
  Faiss.isfile fs index_path = false /\ out = [].
Proof.
  unfold OnDiskIVFBuilder.index_path_clear.
  destruct (Faiss.isfile fs index_path); destruct (endswith index_path file_suffix);
    simpl; intros [= <-]; auto.
Qed.

Lemma index_path_clear_false (fs : filesystem) (index_path file_suffix : string)
    (out : list string) :
  OnDiskIVFBuilder.index_path_clear fs index_path file_suffix = (false, out) ->
  out <> [].
Proof.
  unfold OnDiskIVFBuilder.index_path_clear.
  destruct (Faiss.isfile fs index_path); destruct (endswith index_path file_suffix);
    simpl; intros [= <-]; discriminate.
Qed.

Lemma index_path_clear_occupied (fs : filesystem) (index_path file_suffix : string) :
  Faiss.isfile fs index_path = true ->
  exists out,
    OnDiskIVFBuilder.index_path_clear fs index_path file_suffix = (false, out).
Proof.
  unfold OnDiskIVFBuilder.index_path_clear. intros ->.
  destruct (endswith index_path file_suffix); simpl; eauto.
Qed.

Lemma isfile_written (fs : filesystem) (path : string) (f : Faiss.file Code) :
  Faiss.isfile (dict_set fs path f) path = true.
Proof.
  unfold Faiss.isfile, dict_mem. now rewrite dict_get_set_same.
Qed.

Lemma read_index_other (fs : filesystem) (path q : string) (f : Faiss.file Code) :
  path <> q ->
  Faiss.read_index (dict_set fs path f) q = Faiss.read_index fs q.
Proof.
  intros H. unfold Faiss.read_index. now rewrite dict_get_set_other.
Qed.

Lemma read_index_isfile (fs : filesystem) (path : string) (index : Faiss.Index Code) :
  Faiss.read_index fs path = Ok index -> Faiss.isfile fs path = true.
Proof.
  unfold Faiss.read_index, Faiss.isfile, dict_mem.
  destruct (dict_get fs path); [reflexivity | discriminate].
Qed.

Lemma load_base_idx_isfile (self : builder) (fs : filesystem)
    (index : Faiss.Index Code) :
  OnDiskIVFBuilder.load_base_idx self fs = Ok index ->
  Faiss.isfile fs (OnDiskIVFBuilder.path_to_base_index self) = true.
Proof.
  unfold OnDiskIVFBuilder.load_base_idx.
  destruct (Faiss.read_index fs _) as [ix |] eqn:E; [| discriminate].
  intros _. now apply (read_index_isfile _ _ ix).
Qed.

(** What [generate_subindex] does, case by case: it leaves everything
    as it was, or it has built the sub-index and set its entry in the
    catalogue, and then the write went through or raised. *)
Lemma generate_subindex_cases (self : builder) (fs : filesystem)
    (subindex_path : string) (embeddings : list Vector) (faiss_ids : list Z) :
  let e := generate_subindex self fs subindex_path embeddings faiss_ids in
  (OnDiskIVFBuilder.self_after e = self
   /\ OnDiskIVFBuilder.files_after e = fs
   /\ (OnDiskIVFBuilder.outcome e = Ok tt ->
       OnDiskIVFBuilder.printed e <> []))
  \/ (exists base index,
        Faiss.isfile fs subindex_path = false
        /\ endswith subindex_path ".index" = true
        /\ OnDiskIVFBuilder.load_base_idx self fs = Ok base
        /\ OnDiskIVFBuilder.index_embs_and_ids assign encode base embeddings
             faiss_ids = Ok index
        /\ Faiss.isfile fs (OnDiskIVFBuilder.path_to_base_index self) = true
        /\ OnDiskIVFBuilder.self_after e
           = {| OnDiskIVFBuilder.path_to_base_index :=
                  OnDiskIVFBuilder.path_to_base_index self;
                OnDiskIVFBuilder.subindex_path_totals :=
                  dict_set (OnDiskIVFBuilder.subindex_path_totals self)
                    subindex_path (Faiss.ntotal index) |}
        /\ ((writable subindex_path = true
             /\ OnDiskIVFBuilder.outcome e = Ok tt
             /\ OnDiskIVFBuilder.files_after e
                = Faiss.write_index fs index subindex_path)
            \/ (writable subindex_path = false
                /\ OnDiskIVFBuilder.outcome e = Raise RuntimeError
                /\ OnDiskIVFBuilder.files_after e = fs))).
Proof.
  unfold OnDiskIVFBuilder.generate_subindex.
  destruct (OnDiskIVFBuilder.index_path_clear fs subindex_path ".index")
    as [[] out] eqn:Ec.
  - destruct (index_path_clear_true _ _ _ _ Ec) as [Hfile ->].
    assert (Hend : endswith subindex_path ".index" = true).
    { revert Ec. unfold OnDiskIVFBuilder.index_path_clear. rewrite Hfile.
      destruct (endswith subindex_path ".index"); [reflexivity |].
      discriminate. }
    destruct (OnDiskIVFBuilder.load_base_idx self fs) as [base |] eqn:Eb;
      cbn [bind].
    + destruct (OnDiskIVFBuilder.index_embs_and_ids assign encode base
                  embeddings faiss_ids) as [index |] eqn:Ei.
      * right. exists base, index.
        split; [exact Hfile |]. split; [exact Hend |].
        split; [reflexivity |]. split; [exact Ei |].
        split; [now apply (load_base_idx_isfile self fs base) |].
        destruct (writable subindex_path); cbn.
        -- split; [reflexivity |]. left. now repeat split.
        -- split; [reflexivity |]. right. now repeat split.
      * left. cbn. repeat split. discriminate.
    + left. cbn. repeat split. discriminate.
  - left. cbn. repeat split. intros _.
    now apply (index_path_clear_false _ _ _ _ Ec).
Qed.

Lemma generate_subindex_printed (self : builder) (fs : filesystem)
    (subindex_path : string) (embeddings : list Vector) (faiss_ids : list Z) :
  OnDiskIVFBuilder.printed
    (generate_subindex self fs subindex_path embeddings faiss_ids)
  = snd (OnDiskIVFBuilder.index_path_clear fs subindex_path ".index").
Proof.
  unfold OnDiskIVFBuilder.generate_subindex.
  destruct (OnDiskIVFBuilder.index_path_clear fs subindex_path ".index")
    as [[] out]; [| reflexivity].
  destruct (y <- OnDiskIVFBuilder.load_base_idx self fs ;;
            OnDiskIVFBuilder.index_embs_and_ids assign encode y
              embeddings faiss_ids); [| reflexivity].
  now destruct (writable subindex_path).
Qed.

(** X13: [generate_subindex] changes no file other than [subindex_path],
    and none that exists; the base index loads afterwards as it did
    before.  After a call that returned, a further call for the same
    path returns too, prints a message, and changes neither the files
    nor the catalogue: a sub-index is written at most once. *)
Theorem generate_subindex_writes_once (self : builder) (fs : filesystem)
    (subindex_path : string) (embeddings : list Vector) (faiss_ids : list Z) :
  let e := generate_subindex self fs subindex_path embeddings faiss_ids in
  (forall path,
     path <> subindex_path \/ Faiss.isfile fs path = true ->
     dict_get (OnDiskIVFBuilder.files_after e) path = dict_get fs path)
  /\ OnDiskIVFBuilder.load_base_idx (OnDiskIVFBuilder.self_after e)
       (OnDiskIVFBuilder.files_after e)
     = OnDiskIVFBuilder.load_base_idx self fs
  /\ (OnDiskIVFBuilder.outcome e = Ok tt ->
      forall embeddings' faiss_ids',
        let e' :=
          generate_subindex (OnDiskIVFBuilder.self_after e)
            (OnDiskIVFBuilder.files_after e) subindex_path embeddings'
            faiss_ids' in
        OnDiskIVFBuilder.outcome e' = Ok tt
        /\ OnDiskIVFBuilder.printed e' <> []
        /\ OnDiskIVFBuilder.self_after e' = OnDiskIVFBuilder.self_after e
        /\ OnDiskIVFBuilder.files_after e' = OnDiskIVFBuilder.files_after e).
Proof.
  intros e.
  assert (Hframe :
            forall path,
              path <> subindex_path \/ Faiss.isfile fs path = true ->
              dict_get (OnDiskIVFBuilder.files_after e) path = dict_get fs path).
  { intros path Hpath.
    destruct (generate_subindex_cases self fs subindex_path embeddings faiss_ids)
      as [(_ & Hfs & _)
         | (base & index & Hfile & _ & _ & _ & _ & _
            & [(_ & _ & Hfs) | (_ & _ & Hfs)])];
      fold e in Hfs; rewrite Hfs; try reflexivity.
    unfold Faiss.write_index. apply dict_get_set_other.
    intros <-. destruct Hpath as [H | H]; [now apply H | congruence]. }
  split; [exact Hframe |]. split.
  - destruct (generate_subindex_cases self fs subindex_path embeddings faiss_ids)
      as [(Hself & Hfs & _)
         | (base & index & Hfile & _ & _ & _ & Hbase & Hself & _)];
      fold e in Hself; rewrite Hself; [fold e in Hfs; now rewrite Hfs |].
    unfold OnDiskIVFBuilder.load_base_idx, Faiss.read_index.
    cbn [OnDiskIVFBuilder.path_to_base_index].
    rewrite Hframe; [reflexivity | now right].
  - intros Hok embeddings' faiss_ids' e'.
    assert (Hnot :
              exists out,
                OnDiskIVFBuilder.index_path_clear
                  (OnDiskIVFBuilder.files_after e) subindex_path ".index"
                = (false, out)).
    { destruct (OnDiskIVFBuilder.index_path_clear
                  (OnDiskIVFBuilder.files_after e) subindex_path ".index")
        as [[] out] eqn:Ec; [| eauto].
      exfalso. destruct (index_path_clear_true _ _ _ _ Ec) as [Hfile ->].
      destruct (generate_subindex_cases self fs subindex_path embeddings faiss_ids)
        as [(Hself & Hfs & Hpr)
           | (base & index & _ & _ & _ & _ & _ & _
              & [(_ & _ & Hfs) | (_ & Hraise & _)])].
      - fold e in Hfs, Hpr. specialize (Hpr Hok). apply Hpr. unfold e.
        rewrite generate_subindex_printed. rewrite Hfs in Ec.
        now rewrite Ec.
      - fold e in Hfs. rewrite Hfs in Hfile. unfold Faiss.write_index in Hfile.
        now rewrite isfile_written in Hfile.
      - fold e in Hraise. congruence. }
    destruct Hnot as [out Hout].
    unfold e', OnDiskIVFBuilder.generate_subindex. rewrite Hout. cbn.
    repeat split. now apply (index_path_clear_false _ _ _ _ Hout).
Qed.

Lemma catalogue_key (self : builder) (subindex_path : string) :
  In subindex_path (map fst (OnDiskIVFBuilder.subindex_path_totals self)) ->
  exists n,
    dict_get (OnDiskIVFBuilder.subindex_path_totals self) subindex_path = Some n.
Proof.
  intros H. apply dict_mem_In in H. unfold dict_mem in H.
  destruct (dict_get _ subindex_path) as [n |]; [eauto | discriminate].
Qed.

Lemma catalogue_agrees_set (self : builder) (fs : filesystem)
    (subindex_path : string) (index : Faiss.Index Code) :
  catalogue_agrees self fs ->
  Faiss.read_index fs subindex_path = Ok index ->
  catalogue_agrees
    {| OnDiskIVFBuilder.path_to_base_index :=
         OnDiskIVFBuilder.path_to_base_index self;
       OnDiskIVFBuilder.subindex_path_totals :=
         dict_set (OnDiskIVFBuilder.subindex_path_totals self) subindex_path
           (Faiss.ntotal index) |} fs.
Proof.
  intros Hagree Hread q n. cbn [OnDiskIVFBuilder.subindex_path_totals].
  destruct (String.eqb_spec subindex_path q) as [<- | Hne].
  - rewrite dict_get_set_same. intros [= <-]. eauto.
  - rewrite dict_get_set_other by exact Hne. apply Hagree.
Qed.

Lemma include_paths_agrees (paths_to_add : list string) (self : builder)
    (fs : filesystem) (out : list string) :
  catalogue_agrees self fs ->
  catalogue_agrees
    (snd (fst (BuilderCatalogue.include_paths self fs paths_to_add out))) fs.
Proof.
  revert self out. induction paths_to_add as [| p rest IH]; intros self out H.
  - exact H.
  - cbn [BuilderCatalogue.include_paths].
    destruct (Faiss.isfile fs p && endswith p ".index").
    + destruct (Faiss.read_index fs p) as [index |] eqn:E; [| exact H].
      apply IH. now apply catalogue_agrees_set.
    + now apply IH.
Qed.

(** X14: the catalogue of sub-indexes and the files.  When every total
    in [subindex_path_totals] is the [ntotal] of the index stored at its
    path, this still holds after [include_subidx_path] however it ends,
    and after [generate_subindex] whenever it returns and whenever the
    path can be written, whatever it is given; [merge_IVFs] called without
    paths can then read every sub-index of the catalogue.  Where
    [faiss.write_index] raises, [generate_subindex] has set the entry of
    the path before: it raises [RuntimeError] with the files as they
    were, the path in the catalogue and no file there, so the catalogue
    is no longer true to the files; this is the only way it is lost. *)
Theorem catalogue_stays_true (self : builder) (fs : filesystem) :
  catalogue_agrees self fs ->
  (forall subindex_path embeddings faiss_ids,
     let e := generate_subindex self fs subindex_path embeddings faiss_ids in
     (OnDiskIVFBuilder.outcome e = Ok tt \/ writable subindex_path = true ->
      catalogue_agrees (OnDiskIVFBuilder.self_after e)
        (OnDiskIVFBuilder.files_after e))
     /\ (catalogue_agrees (OnDiskIVFBuilder.self_after e)
           (OnDiskIVFBuilder.files_after e)
         \/ writable subindex_path = false
            /\ OnDiskIVFBuilder.outcome e = Raise RuntimeError)
     /\ (forall base,
          writable subindex_path = false ->
          Faiss.isfile fs subindex_path = false ->
          endswith subindex_path ".index" = true ->
          OnDiskIVFBuilder.load_base_idx self fs = Ok base ->
          List.length embeddings = List.length faiss_ids ->
          OnDiskIVFBuilder.outcome e = Raise RuntimeError
          /\ OnDiskIVFBuilder.files_after e = fs
          /\ dict_get
               (OnDiskIVFBuilder.subindex_path_totals
                  (OnDiskIVFBuilder.self_after e)) subindex_path
             = Some (Faiss.ntotal
                       (Faiss.add_with_ids assign encode base embeddings
                          faiss_ids))
          /\ ~ catalogue_agrees (OnDiskIVFBuilder.self_after e)
                (OnDiskIVFBuilder.files_after e)))
  /\ (forall paths_to_add,
        catalogue_agrees
          (snd (fst (BuilderCatalogue.include_subidx_path self fs paths_to_add)))
          fs)
  /\ exists ivfs,
       OnDiskIVFBuilder.collect_ivfs fs (OnDiskIVFBuilder.merge_inputs self [])
       = Ok ivfs.
Proof.
  intros Hagree. split; [| split].
  - intros subindex_path embeddings faiss_ids e.
    assert (Hwritten :
              forall index,
                catalogue_agrees
                  {| OnDiskIVFBuilder.path_to_base_index :=
                       OnDiskIVFBuilder.path_to_base_index self;
                     OnDiskIVFBuilder.subindex_path_totals :=
                       dict_set (OnDiskIVFBuilder.subindex_path_totals self)
                         subindex_path (Faiss.ntotal index) |}
                  (Faiss.write_index fs index subindex_path)).
    { intros index q n. cbn [OnDiskIVFBuilder.subindex_path_totals].
      destruct (String.eqb_spec subindex_path q) as [<- | Hne].
      - rewrite dict_get_set_same. intros [= <-]. exists index.
        split; [apply BuilderFacts.read_written | reflexivity].
      - rewrite dict_get_set_other by exact Hne. intros Hq.
        destruct (Hagree q n Hq) as [ix [Hread Hn]]. exists ix.
        split; [| exact Hn]. unfold Faiss.write_index.
        now rewrite read_index_other. }
    destruct (generate_subindex_cases self fs subindex_path embeddings faiss_ids)
      as [(Hself & Hfs & _)
         | (base & index & Hfile & Hend & Hbase & Hindex & _ & Hself
            & [(Hw & Hok & Hfs) | (Hw & Hraise & Hfs)])];
      fold e in Hself, Hfs; rewrite Hself, Hfs.
    + split; [intros _; exact Hagree |]. split; [now left |].
      intros base Hw Hfile Hend Hbase Hlen. exfalso.
      revert Hself. unfold e, OnDiskIVFBuilder.generate_subindex,
        OnDiskIVFBuilder.index_path_clear,
        OnDiskIVFBuilder.index_embs_and_ids.
      rewrite Hfile, Hend, Hbase, Hlen, Nat.eqb_refl, Hw. cbn.
      intros Hself. apply (f_equal OnDiskIVFBuilder.subindex_path_totals) in Hself.
      cbn in Hself.
      assert (Hget :
                dict_get (OnDiskIVFBuilder.subindex_path_totals self)
                  subindex_path <> None).
      { rewrite <- Hself, dict_get_set_same. discriminate. }
      destruct (dict_get (OnDiskIVFBuilder.subindex_path_totals self)
                  subindex_path) as [n |] eqn:En; [| now apply Hget].
      destruct (Hagree _ _ En) as [ix [Hread _]].
      apply read_index_isfile in Hread. congruence.
    + split; [intros _; apply Hwritten |]. split; [left; apply Hwritten |].
      intros base' Hw'. congruence.
    + fold e in Hraise. split; [| split].
      * intros [H | H]; congruence.
      * right. now split.
      * intros base' _ _ _ Hbase' Hlen.
        assert (base' = base) as -> by congruence.
        assert (index
                = Faiss.add_with_ids assign encode base embeddings faiss_ids)
          as Hix.
        { revert Hindex. unfold OnDiskIVFBuilder.index_embs_and_ids.
          rewrite Hlen, Nat.eqb_refl. congruence. }
        split; [exact Hraise |]. split; [reflexivity |].
        cbn [OnDiskIVFBuilder.subindex_path_totals].
        split; [now rewrite dict_get_set_same, Hix |].
        intros Hbad.
        destruct (Hbad subindex_path (Faiss.ntotal index)) as [ix [Hread _]].
        { cbn [OnDiskIVFBuilder.subindex_path_totals].
          apply dict_get_set_same. }
        apply read_index_isfile in Hread. congruence.
  - intros paths_to_add. unfold BuilderCatalogue.include_subidx_path.
    pose proof (include_paths_agrees paths_to_add self fs [] Hagree) as H.
    destruct (BuilderCatalogue.include_paths self fs paths_to_add [])
      as [[[[] | e] self1] out]; exact H.
  - apply mapM_ok. apply Forall_forall. intros p Hp.
    destruct (catalogue_key self p Hp) as [n Hn].
    destruct (Hagree p n Hn) as [ix [Hread _]]. rewrite Hread. cbn. eauto.
Qed.

Lemma collect_ivfs_cases (fs : filesystem) (paths : list string) :
  match OnDiskIVFBuilder.collect_ivfs fs paths with
  | Ok ivfs =>
      Forall2 (fun p ivf =>
                 exists index,
                   Faiss.read_index fs p = Ok index
                   /\ ivf = Faiss.invlists index) paths ivfs
  | Raise e =>
      e = RuntimeError
      /\ Exists (fun p => Faiss.read_index fs p = Raise RuntimeError) paths
  end.
Proof.
  unfold OnDiskIVFBuilder.collect_ivfs.
  induction paths as [| p rest IH]; [constructor |].
  cbn [mapM].
  destruct (Faiss.read_index fs p) as [index | e] eqn:Ep; cbn [bind].
  - destruct (mapM _ rest) as [ivfs | e].
    + constructor; [eauto | exact IH].
    + destruct IH as [-> Hex]. split; [reflexivity | now right].
  - assert (e = RuntimeError) as ->.
    { unfold Faiss.read_index in Ep.
      destruct (dict_get fs p) as [[ix | payload] |]; congruence. }
    split; [reflexivity | now left].
Qed.

(** What [merge_IVFs] writes. *)
Lemma merge_IVFs_frame (self : builder) (fs : filesystem)
    (index_path ivfdata_path : string) (ivfindex_paths : list string)
    (path : string) :
  path <> index_path -> path <> ivfdata_path ->
  dict_get
    (snd (OnDiskIVFBuilder.merge_IVFs self fs index_path ivfdata_path
            ivfindex_paths)) path
  = dict_get fs path.
Proof.
  intros Hi Hd. unfold OnDiskIVFBuilder.merge_IVFs.
  destruct (OnDiskIVFBuilder.collect_ivfs fs _); [| reflexivity].
  destruct (OnDiskIVFBuilder.load_base_idx self fs); [| reflexivity].
  destruct (Faiss.merge_from _ _) as [[merged ntotal] |]; cbn [snd].
  - unfold Faiss.write_index.
    rewrite !dict_get_set_other by congruence. reflexivity.
  - rewrite dict_get_set_other by congruence. reflexivity.
Qed.

Lemma merge_IVFs_returns (self : builder) (fs : filesystem)
    (index_path ivfdata_path : string) (ivfindex_paths : list string)
    (ntotal : Z) :
  fst (OnDiskIVFBuilder.merge_IVFs self fs index_path ivfdata_path
         ivfindex_paths) = Ok ntotal ->
  exists index,
    Faiss.read_index
      (snd (OnDiskIVFBuilder.merge_IVFs self fs index_path ivfdata_path
              ivfindex_paths)) index_path = Ok index
    /\ Faiss.ntotal index = ntotal.
Proof.
  unfold OnDiskIVFBuilder.merge_IVFs.
  destruct (OnDiskIVFBuilder.collect_ivfs fs _); [| discriminate].
  destruct (OnDiskIVFBuilder.load_base_idx self fs); [| discriminate].
  destruct (Faiss.merge_from _ _) as [[merged n] |]; [| discriminate].
  cbn [fst snd]. intros [= <-]. eexists.
  split; [apply BuilderFacts.read_written | reflexivity].
Qed.

(** [merge_IVFs] on one sub-index: what the written index holds. *)
Lemma merge_IVFs_single (self : builder) (fs : filesystem)
    (index_path ivfdata_path source_path : string) (ntotal : Z) :
  fst (OnDiskIVFBuilder.merge_IVFs self fs index_path ivfdata_path
         [source_path]) = Ok ntotal ->
  exists original merged,
    Faiss.read_index fs source_path = Ok original
    /\ Faiss.read_index
         (snd (OnDiskIVFBuilder.merge_IVFs self fs index_path ivfdata_path
                 [source_path])) index_path = Ok merged
    /\ Faiss.ntotal merged = ntotal
    /\ (index_path <> ivfdata_path ->
        dict_get
          (snd (OnDiskIVFBuilder.merge_IVFs self fs index_path ivfdata_path
                  [source_path])) ivfdata_path
        = Some (Faiss.DataFile (Faiss.il_lists (Faiss.invlists merged))))
    /\ (Faiss.well_formed (Faiss.invlists original) ->
        Permutation (Faiss.entries (Faiss.invlists merged))
          (Faiss.entries (Faiss.invlists original))
        /\ ntotal
           = Z.of_nat (List.length (Faiss.entries (Faiss.invlists original)))).
Proof.
  unfold OnDiskIVFBuilder.merge_IVFs, OnDiskIVFBuilder.collect_ivfs.
  cbn [OnDiskIVFBuilder.merge_inputs mapM].
  destruct (Faiss.read_index fs source_path) as [original |] eqn:Eo;
    cbn [bind]; [| discriminate].
  destruct (OnDiskIVFBuilder.load_base_idx self fs) as [base |];
    [| discriminate].
  destruct (Faiss.merge_from _ _) as [[merged n] |] eqn:Em; [| discriminate].
  cbn [fst snd]. intros [= <-]. eexists. eexists.
  split; [reflexivity |].
  split; [apply BuilderFacts.read_written |].
  split; [reflexivity |]. split.
  - intros Hne. unfold Faiss.write_index.
    rewrite dict_get_set_other by exact Hne.
    now rewrite dict_get_set_same.
  - intros Hwf. cbn [Faiss.invlists].
    assert (Hfit :
              Forall (fits (Faiss.nlist base) (Faiss.code_size base))
                [Faiss.invlists original]).
    { constructor; [| constructor]. revert Em. unfold Faiss.merge_from.
      cbn [forallb]. unfold Faiss.same_shape at 1.
      cbn [Faiss.il_nlist Faiss.il_code_size Faiss.OnDiskInvertedLists].
      destruct (Nat.eqb_spec (Faiss.il_nlist (Faiss.invlists original))
                  (Faiss.nlist base)) as [Hn |]; [| discriminate].
      destruct (Nat.eqb_spec (Faiss.il_code_size (Faiss.invlists original))
                  (Faiss.code_size base)) as [Hm |]; [| discriminate].
      intros _. now repeat split. }
    destruct (BuilderFacts.merge_from_fresh Code _ _ _ Hfit)
      as (merged' & n' & Em' & Hperm & Hcount).
    rewrite Em in Em'. injection Em' as <- <-.
    cbn [map List.concat] in Hperm. rewrite app_nil_r in Hperm.
    split; [exact Hperm |].
    rewrite Hcount, BuilderFacts.total_length_concat.
    f_equal. now apply Permutation_length.
Qed.

(** X15: [merge_IVFs] changes no file other than its two output paths.
    It reads every sub-index first and loads the base index next: when
    a sub-index cannot be read it raises [RuntimeError], when the base
    index is missing, untrained or not empty it raises too, and in both
    cases no file has been created or changed.  When it returns, the
    count it returns is the [ntotal] of the index now stored at
    [index_path]. *)
Theorem merge_IVFs_effects (self : builder) (fs : filesystem)
    (index_path ivfdata_path : string) (ivfindex_paths : list string) :
  let r :=
    OnDiskIVFBuilder.merge_IVFs self fs index_path ivfdata_path
      ivfindex_paths in
  let inputs := OnDiskIVFBuilder.merge_inputs self ivfindex_paths in
  (forall path,
     path <> index_path -> path <> ivfdata_path ->
     dict_get (snd r) path = dict_get fs path)
  /\ (Exists (fun p => Faiss.read_index fs p = Raise RuntimeError) inputs ->
      r = (Raise RuntimeError, fs))
  /\ (forall e,
        Forall (fun p => Faiss.read_index fs p <> Raise RuntimeError) inputs ->
        OnDiskIVFBuilder.load_base_idx self fs = Raise e ->
        r = (Raise e, fs))
  /\ forall ntotal,
       fst r = Ok ntotal ->
       exists index,
         Faiss.read_index (snd r) index_path = Ok index
         /\ Faiss.ntotal index = ntotal.
Proof.
  intros r inputs. split; [| split; [| split]].
  - intros path Hi Hd. now apply merge_IVFs_frame.
  - intros Hex. unfold r, OnDiskIVFBuilder.merge_IVFs. fold inputs.
    pose proof (collect_ivfs_cases fs inputs) as H.
    destruct (OnDiskIVFBuilder.collect_ivfs fs inputs) as [ivfs | e].
    + exfalso. induction H as [| p ivf ps ivfs' [ix [Hp _]] _ IH].
      * inversion Hex.
      * inversion Hex as [? ? Hbad | ? ? Hbad]; subst; [congruence | auto].
    + now destruct H as [-> _].
  - intros e Hall Hbase. unfold r, OnDiskIVFBuilder.merge_IVFs. fold inputs.
    pose proof (collect_ivfs_cases fs inputs) as H.
    destruct (OnDiskIVFBuilder.collect_ivfs fs inputs) as [ivfs | e'].
    + now rewrite Hbase.
    + exfalso. destruct H as [_ Hex].
      apply Exists_exists in Hex. destruct Hex as [p [Hin Hp]].
      rewrite Forall_forall in Hall. now apply (Hall p Hin).
  - intros ntotal. apply merge_IVFs_returns.
Qed.

End Builders.

End BuilderMoreFacts.

(** ** Zipping indexes by date *)

Module ZipFacts.
Import Py Predicates MorePredicates PyFacts PyMoreFacts DateFacts.

Lemma pop_app (l : list string) (x : string) (rest : list string) :
  ZipIndexes.pop l = Some (x, rest) -> l = rest ++ [x].
Proof.
  unfold ZipIndexes.pop. destruct l as [| y l]; [discriminate |].
  intros [= <- <-].
  exact (app_removelast_last "" (l := y :: l) ltac:(discriminate)).
Qed.

Lemma remove_first_incl (x : string) (l : list string) :
  incl (ZipIndexes.remove_first x l) l.
Proof.
  induction l as [| y l IH]; simpl; [apply incl_refl |].
  destruct (String.eqb y x).
  - now apply incl_tl, incl_refl.
  - intros z [<- | Hz]; [now left | right; now apply IH].
Qed.

Lemma remove_first_other (x y : string) (l : list string) :
  In y l -> y <> x -> In y (ZipIndexes.remove_first x l).
Proof.
  induction l as [| z l IH]; simpl; [tauto |].
  intros [-> | Hy] Hne.
  - destruct (String.eqb_spec y x); [contradiction | now left].
  - destruct (String.eqb z x); [exact Hy | right; now apply IH].
Qed.

Lemma remove_first_length (x : string) (l : list string) :
  (List.length (ZipIndexes.remove_first x l) <= List.length l)%nat.
Proof.
  induction l as [| y l IH]; simpl; [lia |].
  destruct (String.eqb y x); simpl; lia.
Qed.

Lemma remove_first_NoDup (x : string) (l : list string) :
  NoDup l -> NoDup (ZipIndexes.remove_first x l).
Proof.
  induction 1 as [| y l Hy Hl IH]; simpl; [constructor |].
  destruct (String.eqb y x); [exact Hl |].
  constructor; [| exact IH]. intros H. apply Hy.
  now apply (remove_first_incl x l).
Qed.

(** In a list without repetitions, taking out the path at position [i]
    leaves the paths before it in place. *)
Lemma remove_first_firstn (l : list string) (i : nat) (x : string) :
  NoDup l -> nth_error l i = Some x ->
  firstn i (ZipIndexes.remove_first x l) = firstn i l
  /\ S (List.length (ZipIndexes.remove_first x l)) = List.length l.
Proof.
  intros Hnd. revert i. induction Hnd as [| y l Hy Hl IH]; intros i Hi.
  - destruct i; discriminate.
  - destruct i as [| i]; simpl in Hi.
    + injection Hi as ->. simpl. rewrite String.eqb_refl. auto.
    + simpl. destruct (String.eqb_spec y x) as [-> | Hne].
      * exfalso. apply Hy. now apply (nth_error_In l i).
      * destruct (IH i Hi) as [Hf Hlen]. simpl. rewrite Hf. auto.
Qed.

Lemma scan_step (steps : nat) (check_date : string) (l : list string)
    (i : nat) (group : list string) :
  ZipIndexes.scan (S steps) check_date l i group
  = match nth_error l i with
    | None => (l, group)
    | Some idx_path =>
        if contains check_date idx_path then
          ZipIndexes.scan steps check_date (ZipIndexes.remove_first idx_path l)
            (S i) (group ++ [idx_path])
        else ZipIndexes.scan steps check_date l (S i) group
    end.
Proof. reflexivity. Qed.

(** What the scan takes out and what it leaves. *)
Lemma scan_spec (steps : nat) (check_date : string) (l : list string)
    (i : nat) (group : list string) :
  exists taken,
    snd (ZipIndexes.scan steps check_date l i group) = group ++ taken
    /\ incl taken l
    /\ Forall (fun p => contains check_date p = true) taken
    /\ incl (fst (ZipIndexes.scan steps check_date l i group)) l
    /\ (List.length (fst (ZipIndexes.scan steps check_date l i group))
        <= List.length l)%nat
    /\ forall p,
         In p l -> contains check_date p = false ->
         In p (fst (ZipIndexes.scan steps check_date l i group)).
Proof.
  revert l i group. induction steps as [| steps IH]; intros l i group.
  - exists []. simpl. rewrite app_nil_r.
    repeat split; auto using incl_refl. intros p [].
  - cbn [ZipIndexes.scan]. destruct (nth_error l i) as [x |] eqn:Ex.
    + destruct (contains check_date x) eqn:Ec.
      * destruct (IH (ZipIndexes.remove_first x l) (S i) (group ++ [x]))
          as (taken & Hg & Ht & Hc & Hl & Hlen & Hkeep).
        exists (x :: taken). rewrite Hg, <- app_assoc.
        split; [reflexivity |]. split.
        { intros z [<- | Hz]; [now apply (nth_error_In l i) |].
          now apply (remove_first_incl x l), Ht. }
        split; [now constructor |]. split.
        { intros z Hz. now apply (remove_first_incl x l), Hl. }
        split.
        { pose proof (remove_first_length x l). lia. }
        intros p Hp Hnc. apply Hkeep; [| exact Hnc].
        apply remove_first_other; [exact Hp | congruence].
      * destruct (IH l (S i) group) as (taken & Hg & Ht & Hc & Hl & Hlen & Hkeep).
        exists taken. auto 10.
    + exists []. simpl. rewrite app_nil_r.
      repeat split; auto using incl_refl. intros p [].
Qed.

(** The length of the list is enough for the scan. *)
Lemma scan_steps (steps : nat) (check_date : string) (l : list string)
    (i : nat) (group : list string) :
  (List.length l <= steps + i)%nat ->
  ZipIndexes.scan (S steps) check_date l i group
  = ZipIndexes.scan steps check_date l i group.
Proof.
  revert l i group. induction steps as [| steps IH]; intros l i group Hlen.
  - cbn [ZipIndexes.scan].
    destruct (nth_error l i) as [x |] eqn:Ex; [| reflexivity].
    exfalso. assert (i < List.length l)%nat by (apply nth_error_Some; congruence).
    lia.
  - cbn [ZipIndexes.scan] in *.
    destruct (nth_error l i) as [x |] eqn:Ex; [| reflexivity].
    destruct (contains check_date x).
    + apply IH. pose proof (remove_first_length x l). lia.
    + apply IH. lia.
Qed.

(** In a list without repetitions the scan leaves the paths before its
    position where they are. *)
Lemma scan_firstn (steps : nat) (check_date : string) (l : list string)
    (i : nat) (group : list string) :
  NoDup l ->
  firstn i (fst (ZipIndexes.scan steps check_date l i group)) = firstn i l.
Proof.
  assert (Hcut : forall (l1 l2 : list string) i,
             firstn (S i) l1 = firstn (S i) l2 -> firstn i l1 = firstn i l2).
  { intros l1 l2 j H.
    assert (E : forall l0 : list string,
               firstn j l0 = firstn j (firstn (S j) l0)).
    { intros l0. rewrite firstn_firstn. f_equal. lia. }
    now rewrite (E l1), (E l2), H. }
  revert l i group. induction steps as [| steps IH]; intros l i group Hnd.
  - reflexivity.
  - cbn [ZipIndexes.scan]. destruct (nth_error l i) as [x |] eqn:Ex.
    + destruct (contains check_date x).
      * destruct (remove_first_firstn l i x Hnd Ex) as [Hf _].
        rewrite <- Hf. apply Hcut.
        apply IH. now apply remove_first_NoDup.
      * apply Hcut. now apply IH.
    + reflexivity.
Qed.

Section Grouping.

Variable current_indexes : list string.

#[local] Abbreviation group_by_date steps moving_indexes :=
  (ZipIndexes.group_by_date steps moving_indexes current_indexes).

(** The length of the list is enough for the grouping loop. *)
Lemma group_by_date_steps (steps : nat) (l : list string)
    (moving_groups : dict (list string)) (stale_files : list string) :
  (List.length l <= steps)%nat ->
  group_by_date (S steps) l moving_groups stale_files
  = group_by_date steps l moving_groups stale_files.
Proof.
  revert l moving_groups stale_files.
  induction steps as [| steps IH]; intros l moving_groups stale_files Hlen.
  - destruct l; [reflexivity | simpl in Hlen; lia].
  - cbn [ZipIndexes.group_by_date] in *.
    destruct (ZipIndexes.pop l) as [[x rest] |] eqn:Ep; [| reflexivity].
    destruct (DateSeed.search x) as [d |]; [| reflexivity].
    pose proof (scan_spec (List.length rest) d rest 0 [x])
      as (taken & _ & _ & _ & _ & Hl & _).
    destruct (ZipIndexes.scan (List.length rest) d rest 0 [x]) as [rest' group].
    apply IH. apply pop_app in Ep. subst l. rewrite length_app in Hlen.
    simpl in Hl, Hlen. lia.
Qed.

Lemma group_by_date_dated (steps : nat) (l : list string)
    (moving_groups : dict (list string)) (stale_files : list string) :
  Forall (fun p => DateSeed.search p <> None) l ->
  exists groups stale,
    group_by_date steps l moving_groups stale_files = Ok (groups, stale).
Proof.
  revert l moving_groups stale_files.
  induction steps as [| steps IH]; intros l moving_groups stale_files Hall.
  - simpl. eauto.
  - cbn [ZipIndexes.group_by_date].
    destruct (ZipIndexes.pop l) as [[x rest] |] eqn:Ep; [| eauto].
    apply pop_app in Ep. subst l. apply Forall_app in Hall.
    destruct Hall as [Hrest Hx]. inversion Hx as [| ? ? Hd _]; subst.
    destruct (DateSeed.search x) as [d |]; [| congruence].
    pose proof (scan_spec (List.length rest) d rest 0 [x])
      as (taken & _ & _ & _ & Hincl & _).
    destruct (ZipIndexes.scan (List.length rest) d rest 0 [x]) as [rest' group].
    apply IH. rewrite Forall_forall in *. intros p Hp.
    apply Hrest. now apply Hincl.
Qed.

Lemma group_by_date_undated (steps : nat) (l : list string)
    (moving_groups : dict (list string)) (stale_files : list string) :
  (List.length l <= steps)%nat ->
  Exists (fun p => DateSeed.search p = None) l ->
  group_by_date steps l moving_groups stale_files = Raise AttributeError.
Proof.
  revert l moving_groups stale_files.
  induction steps as [| steps IH]; intros l moving_groups stale_files Hlen Hex.
  - destruct l; [inversion Hex | simpl in Hlen; lia].
  - cbn [ZipIndexes.group_by_date].
    destruct (ZipIndexes.pop l) as [[x rest] |] eqn:Ep.
    + apply pop_app in Ep. subst l.
      destruct (DateSeed.search x) as [d |] eqn:Ed; [| reflexivity].
      pose proof (scan_spec (List.length rest) d rest 0 [x])
        as (taken & _ & _ & _ & _ & Hl & Hkeep).
      destruct (ZipIndexes.scan (List.length rest) d rest 0 [x])
        as [rest' group].
      simpl in Hl, Hkeep.
      apply IH.
      * rewrite length_app in Hlen. simpl in Hlen. lia.
      * apply Exists_exists in Hex. destruct Hex as [u [Hu Hnone]].
        apply Exists_exists. exists u. split; [| exact Hnone].
        apply Hkeep.
        -- apply in_app_or in Hu. destruct Hu as [Hu | [<- | []]];
             [exact Hu | congruence].
        -- destruct (contains d u) eqn:Ec; [| reflexivity].
           exfalso. apply (contains_dated u d); auto.
           now apply (search_shaped x).
    + unfold ZipIndexes.pop in Ep. destruct l; [inversion Hex | discriminate].
Qed.

#[local] Abbreviation sound_group := (sound_group current_indexes).

Lemma sound_group_incl (l l' : list string) (entry : string * list string) :
  incl l l' -> sound_group l entry -> sound_group l' entry.
Proof.
  intros Hincl (first & rest & He & Hin & Hd & Hrest).
  exists first, rest. repeat split; auto.
  eapply Forall_impl; [| exact Hrest]. intros p [Hc [Hp | Hp]]; auto.
Qed.

Lemma group_by_date_sound (steps : nat) (l : list string)
    (moving_groups : dict (list string)) (stale_files : list string)
    (groups : dict (list string)) (stale : list string) :
  group_by_date steps l moving_groups stale_files = Ok (groups, stale) ->
  forall all_moving,
    incl l all_moving ->
    Forall (sound_group all_moving) moving_groups ->
    NoDup (map fst moving_groups) ->
    incl stale_files current_indexes ->
    Forall (sound_group all_moving) groups
    /\ NoDup (map fst groups)
    /\ incl stale current_indexes.
Proof.
  revert l moving_groups stale_files.
  induction steps as [| steps IH];
    intros l moving_groups stale_files Hrun all_moving Hl Hsound Hnd Hstale.
  - simpl in Hrun. injection Hrun as <- <-. auto.
  - cbn [ZipIndexes.group_by_date] in Hrun.
    destruct (ZipIndexes.pop l) as [[x rest] |] eqn:Ep.
    + apply pop_app in Ep. subst l.
      destruct (DateSeed.search x) as [d |] eqn:Ed; [| discriminate].
      pose proof (scan_spec (List.length rest) d rest 0 [x])
        as (taken & Hg & Ht & Hc & Hincl & _ & _).
      destruct (ZipIndexes.scan (List.length rest) d rest 0 [x])
        as [rest' group].
      simpl in Hg, Hincl. subst group.
      apply (IH _ _ _ Hrun all_moving).
      * intros p Hp. apply Hl, in_or_app. left. now apply Hincl.
      * apply dict_set_Forall; [exact Hsound |].
        exists x, (taken ++ filter (contains d) current_indexes).
        cbn [fst snd]. split; [reflexivity |].
        split; [apply Hl, in_or_app; right; now left |].
        split; [exact Ed |].
        apply Forall_app. split.
        -- rewrite Forall_forall in *. intros p Hp. split; [now apply Hc |].
           left. apply Hl, in_or_app. left. now apply Ht.
        -- apply Forall_forall. intros p Hp. apply filter_In in Hp.
           destruct Hp as [Hp Hcp]. auto.
      * now apply dict_set_NoDup.
      * intros p Hp. apply in_app_or in Hp. destruct Hp as [Hp | Hp]; auto.
        apply filter_In in Hp. tauto.
    + injection Hrun as <- <-. auto.
Qed.

Lemma group_by_date_cases (moving_indexes : list string) :
  match
    group_by_date (List.length moving_indexes) moving_indexes [] []
  with
  | Ok (moving_groups, stale_files) =>
      Forall (fun p => DateSeed.search p <> None) moving_indexes
      /\ NoDup (map fst moving_groups)
      /\ Forall (sound_group moving_indexes) moving_groups
      /\ incl stale_files current_indexes
  | Raise e =>
      e = AttributeError
      /\ Exists (fun p => DateSeed.search p = None) moving_indexes
  end.
Proof.
  destruct (Exists_dec (fun p => DateSeed.search p = None) moving_indexes)
    as [Hex | Hall].
  { intros p. destruct (DateSeed.search p); [right; discriminate | now left]. }
  - rewrite (group_by_date_undated _ _ _ _ (Nat.le_refl _) Hex). auto.
  - assert (Hd : Forall (fun p => DateSeed.search p <> None) moving_indexes).
    { apply Forall_forall. intros p Hp Hnone. apply Hall.
      apply Exists_exists. eauto. }
    destruct (group_by_date_dated (List.length moving_indexes)
                moving_indexes [] [] Hd) as (groups & stale & Hrun).
    rewrite Hrun.
    destruct (group_by_date_sound _ _ _ _ _ _ Hrun moving_indexes)
      as (Hs & Hnd & Hst); auto using incl_refl, NoDup_nil.
    intros p [].
Qed.

(** X16: the grouping loop of [zip_indexes] raises [AttributeError]
    exactly when one of the moving paths holds no date, and otherwise
    ends.  At its end every date is a key once; each group starts with a
    moving path whose date is the key, and every other member is a
    moving or a current path that contains the key; the stale files are
    current paths.  Rounds beyond the length of the list change
    nothing. *)
Theorem group_by_date_result (moving_indexes : list string) :
  match
    group_by_date (List.length moving_indexes) moving_indexes [] []
  with
  | Ok (moving_groups, stale_files) =>
      Forall (fun p => DateSeed.search p <> None) moving_indexes
      /\ NoDup (map fst moving_groups)
      /\ Forall (sound_group moving_indexes) moving_groups
      /\ incl stale_files current_indexes
  | Raise e =>
      e = AttributeError
      /\ Exists (fun p => DateSeed.search p = None) moving_indexes
  end
  /\ forall steps,
       (List.length moving_indexes <= steps)%nat ->
       group_by_date steps moving_indexes [] []
       = group_by_date (List.length moving_indexes) moving_indexes [] [].
Proof.
  split; [apply group_by_date_cases |].
  intros steps Hle. induction Hle as [| steps Hle IH]; [reflexivity |].
  rewrite group_by_date_steps by exact Hle. exact IH.
Qed.

Lemma pop_snoc (rest : list string) (x : string) :
  ZipIndexes.pop (rest ++ [x]) = Some (x, rest).
Proof.
  unfold ZipIndexes.pop. destruct (rest ++ [x]) eqn:E.
  - now destruct rest.
  - rewrite <- E. now rewrite last_last, removelast_last.
Qed.

(** Paths of one date end up in one group: that of the last round. *)
Lemma same_date_run (check_date : string) (steps : nat) (l : list string)
    (moving_groups : dict (list string)) (stale_files : list string) :
  Forall (fun p => DateSeed.search p = Some check_date) l ->
  l <> [] ->
  (List.length l <= steps)%nat ->
  exists group stale,
    group_by_date steps l moving_groups stale_files
    = Ok (dict_set moving_groups check_date group, stale)
    /\ incl group (l ++ current_indexes).
Proof.
  revert l moving_groups stale_files.
  induction steps as [| steps IH];
    intros l moving_groups stale_files Hall Hne Hlen.
  - destruct l; [congruence | simpl in Hlen; lia].
  - destruct (exists_last Hne) as (rest & x & ->).
    cbn [ZipIndexes.group_by_date]. rewrite pop_snoc.
    apply Forall_app in Hall. destruct Hall as [Hrest Hx].
    inversion Hx as [| ? ? Hd _]; subst. rewrite Hd.
    pose proof (scan_spec (List.length rest) check_date rest 0 [x])
      as (taken & Hg & Ht & _ & Hincl & Hl & _).
    destruct (ZipIndexes.scan (List.length rest) check_date rest 0 [x])
      as [rest' group].
    simpl in Hg, Hincl, Hl. subst group.
    rewrite length_app in Hlen. simpl in Hlen.
    assert (Hsub :
              incl (x :: taken ++ filter (contains check_date) current_indexes)
                ((rest ++ [x]) ++ current_indexes)).
    { intros p [<- | Hp].
      - apply in_or_app. left. apply in_or_app. right. now left.
      - apply in_app_or in Hp. destruct Hp as [Hp | Hp].
        + apply in_or_app. left. apply in_or_app. left. now apply Ht.
        + apply in_or_app. right. apply filter_In in Hp. tauto. }
    destruct rest' as [| y rest'].
    + eexists. eexists. split; [| exact Hsub]. now destruct steps.
    + match goal with
      | |- context [ZipIndexes.group_by_date steps _ _ ?groups1 ?stale1] =>
          destruct (IH (y :: rest') groups1 stale1)
            as (group & stale & Hrun & Hgroup)
      end.
      * rewrite Forall_forall in *. intros p Hp. apply Hrest. now apply Hincl.
      * discriminate.
      * lia.
      * exists group, stale. rewrite Hrun, dict_set_set.
        split; [reflexivity |].
        intros p Hp. apply Hgroup in Hp. apply in_app_or in Hp.
        apply in_or_app. destruct Hp as [Hp | Hp]; [left | now right].
        apply in_or_app. left. now apply Hincl.
Qed.

(** X17: when three or more moving paths, all different, hold the same
    date, the grouping loop of [zip_indexes] leaves the path it takes
    first (the last of the list) out of the only group it ends with:
    the scan passes over every second path, and a later round for the
    same date replaces the group of the earlier round.  So that path
    is in no group that the merge loop is given. *)
Theorem same_date_paths_dropped (moving_indexes : list string)
    (check_date : string) :
  Forall (fun p => DateSeed.search p = Some check_date) moving_indexes ->
  NoDup moving_indexes ->
  (3 <= List.length moving_indexes)%nat ->
  ~ In (last moving_indexes "") current_indexes ->
  exists group stale_files,
    group_by_date (List.length moving_indexes) moving_indexes [] []
    = Ok ([(check_date, group)], stale_files)
    /\ ~ In (last moving_indexes "") group.
Proof.
  intros Hall Hnd Hlen Hcur.
  destruct moving_indexes as [| p0 l0]; [simpl in Hlen; lia |].
  destruct (exists_last (l := p0 :: l0) ltac:(discriminate)) as (rest & x & E).
  rewrite E in *. clear E p0 l0. rewrite last_last in *.
  rewrite length_app in *. simpl in Hlen.
  replace (List.length rest + List.length [x])%nat with (S (List.length rest))
    by (simpl; lia).
  cbn [ZipIndexes.group_by_date]. rewrite pop_snoc.
  apply Forall_app in Hall. destruct Hall as [Hrest Hx].
  inversion Hx as [| ? ? Hd _]; subst. rewrite Hd.
  apply NoDup_remove in Hnd. rewrite app_nil_r in Hnd.
  destruct Hnd as [Hnd Hfresh].
  destruct rest as [| y [| z rest1]]; try (simpl in Hlen; lia).
  assert (Hy : contains check_date y = true).
  { apply search_contains. now inversion Hrest. }
  cbn [List.length]. rewrite scan_step. cbn [nth_error]. rewrite Hy.
  cbn [ZipIndexes.remove_first]. rewrite String.eqb_refl.
  pose proof (scan_spec (S (List.length rest1)) check_date (z :: rest1) 1
                ([x] ++ [y]))
    as (taken & _ & _ & _ & Hincl & Hl & _).
  pose proof (scan_firstn (S (List.length rest1)) check_date (z :: rest1) 1
                ([x] ++ [y])) as Hfirst.
  destruct (ZipIndexes.scan (S (List.length rest1)) check_date (z :: rest1) 1
              ([x] ++ [y])) as [rest' group1].
  simpl in Hincl, Hl, Hfirst.
  assert (Hne : rest' <> []).
  { intros ->. inversion Hnd; subst.
    specialize (Hfirst ltac:(assumption)). discriminate. }
  match goal with
  | |- context [ZipIndexes.group_by_date ?steps1 _ _ ?groups1 ?stale1] =>
      destruct (same_date_run check_date steps1 rest' groups1 stale1)
        as (group & stale & Hrun & Hgroup)
  end.
  - rewrite Forall_forall in *. intros p Hp. apply Hrest. right.
    now apply Hincl.
  - exact Hne.
  - lia.
  - exists group, stale. rewrite Hrun. split.
    + simpl. now rewrite String.eqb_refl.
    + intros Hin. apply Hgroup in Hin. apply in_app_or in Hin.
      destruct Hin as [Hin | Hin]; [| now apply Hcur].
      apply Hfresh. right. now apply Hincl.
Qed.

(** A scan that meets no path of the date takes nothing. *)
Lemma scan_none (steps : nat) (check_date : string) (l : list string)
    (i : nat) (group : list string) :
  (forall p, In p (skipn i l) -> contains check_date p = false) ->
  ZipIndexes.scan steps check_date l i group = (l, group).
Proof.
  revert i. induction steps as [| steps IH]; intros i Hnone; [reflexivity |].
  cbn [ZipIndexes.scan]. destruct (nth_error l i) as [x |] eqn:Ex;
    [| reflexivity].
  assert (Hsk : skipn i l = x :: skipn (S i) l).
  { clear -Ex. revert i Ex. induction l as [| y l IH]; intros [| i] Ex;
      try discriminate.
    - now injection Ex as ->.
    - simpl in Ex. apply (IH i Ex). }
  rewrite (Hnone x) by (rewrite Hsk; now left).
  apply IH. intros p Hp. apply Hnone. rewrite Hsk. now right.
Qed.

Lemma skipn_In (l : list string) (n : nat) (x : string) :
  In x (skipn n l) -> In x l.
Proof.
  revert n. induction l as [| y l IH]; intros [| n] H; simpl in H; auto.
  right. now apply (IH n).
Qed.

Lemma skipn_nth (l : list string) (i : nat) (x : string) :
  nth_error l i = Some x -> skipn i l = x :: skipn (S i) l.
Proof.
  revert i. induction l as [| y l IH]; intros [| i] Ex; try discriminate.
  - now injection Ex as ->.
  - simpl in Ex. apply (IH i Ex).
Qed.

Lemma firstn_nth (l : list string) (i : nat) (x : string) :
  nth_error l i = Some x -> firstn (S i) l = firstn i l ++ [x].
Proof.
  revert i. induction l as [| y l IH]; intros [| i] Ex; try discriminate.
  - now injection Ex as ->.
  - simpl in Ex. cbn [firstn app]. f_equal. apply (IH i Ex).
Qed.

Lemma remove_first_nth (l : list string) (i : nat) (x : string) :
  NoDup l -> nth_error l i = Some x ->
  ZipIndexes.remove_first x l = firstn i l ++ skipn (S i) l.
Proof.
  intros Hnd. revert i. induction Hnd as [| y l Hy Hl IH]; intros [| i] Ex;
    try discriminate.
  - injection Ex as ->. simpl. now rewrite String.eqb_refl.
  - simpl in Ex. cbn [ZipIndexes.remove_first firstn skipn app].
    destruct (String.eqb_spec y x) as [-> | _].
    + exfalso. apply Hy. now apply (nth_error_In l i).
    + f_equal. apply (IH i Ex).
Qed.

(** A scan that meets at most one path of the date takes it and leaves
    the others as they are. *)
Lemma scan_one (steps : nat) (check_date : string) (l : list string)
    (i : nat) (group : list string) :
  NoDup l ->
  (List.length (filter (contains check_date) (skipn i l)) <= 1)%nat ->
  (List.length l <= steps + i)%nat ->
  ZipIndexes.scan steps check_date l i group
  = (firstn i l
     ++ filter (fun p => negb (contains check_date p)) (skipn i l),
     group ++ filter (contains check_date) (skipn i l)).
Proof.
  intros Hnd. revert i group.
  induction steps as [| steps IH]; intros i group Hone Hlen.
  - rewrite skipn_all2 by lia. rewrite firstn_all2 by lia.
    simpl. now rewrite !app_nil_r.
  - cbn [ZipIndexes.scan]. destruct (nth_error l i) as [x |] eqn:Ex.
    + rewrite (skipn_nth l i x Ex) in *. cbn [filter] in *.
      destruct (contains check_date x) eqn:Ec; cbn [negb].
      * assert (Hnone : forall p, In p (skipn (S i) l) ->
                                  contains check_date p = false).
        { intros p Hp. destruct (contains check_date p) eqn:Ep; [| reflexivity].
          exfalso.
          assert (In p (filter (contains check_date) (skipn (S i) l)))
            by (apply filter_In; auto).
          destruct (filter (contains check_date) (skipn (S i) l));
            [contradiction | simpl in Hone; lia]. }
        rewrite scan_none.
        -- rewrite (remove_first_nth l i x Hnd Ex). f_equal.
           ++ f_equal. clear -Hnone. induction (skipn (S i) l) as [| y sk IH];
                [reflexivity |].
              simpl. rewrite (Hnone y (or_introl eq_refl)). simpl. f_equal.
              apply IH. intros p Hp. apply Hnone. now right.
           ++ f_equal. clear -Hnone. induction (skipn (S i) l) as [| y sk IH];
                [reflexivity |].
              simpl. rewrite (Hnone y (or_introl eq_refl)).
              rewrite <- IH; [reflexivity |].
              intros p Hp. apply Hnone. now right.
        -- intros p Hp. apply Hnone.
           rewrite (remove_first_nth l i x Hnd Ex) in Hp.
           assert (Hsub : incl (skipn (S i) (firstn i l ++ skipn (S i) l))
                            (skipn (S i) l)).
           { rewrite skipn_app. intros q Hq. apply in_app_or in Hq.
             destruct Hq as [Hq | Hq].
             - rewrite skipn_all2 in Hq by (rewrite length_firstn; lia).
               contradiction.
             - now apply skipn_In in Hq. }
           now apply Hsub.
      * rewrite IH; [| exact Hone | lia].
        rewrite (firstn_nth l i x Ex), <- app_assoc. reflexivity.
    + assert (List.length l <= i)%nat by now apply nth_error_None.
      rewrite skipn_all2 by lia. rewrite firstn_all2 by lia.
      simpl. now rewrite !app_nil_r.
Qed.

Lemma same_date_contains (l : list string) (x q d : string) :
  own_date_only l = true -> In x l -> In q l ->
  DateSeed.search x = Some d ->
  contains d q = same_date x q.
Proof.
  unfold own_date_only. intros Hown Hx Hq Hd.
  rewrite forallb_forall in Hown. specialize (Hown x Hx). rewrite Hd in Hown.
  rewrite forallb_forall in Hown. specialize (Hown q Hq).
  destruct (same_date x q) eqn:Es.
  - unfold same_date in Es. rewrite Hd in Es.
    destruct (DateSeed.search q) as [d' |] eqn:Eq; [| discriminate].
    apply String.eqb_eq in Es. subst d'. now apply search_contains.
  - destruct (contains d q); [discriminate | reflexivity].
Qed.

Lemma own_date_only_incl (l l' : list string) :
  incl l' l -> own_date_only l = true -> own_date_only l' = true.
Proof.
  unfold own_date_only. intros Hincl H.
  rewrite forallb_forall in *. intros p Hp. specialize (H p (Hincl p Hp)).
  destruct (DateSeed.search p); [| discriminate].
  rewrite forallb_forall in *. intros q Hq. apply H. now apply Hincl.
Qed.

Lemma filter_filter_length (f g : string -> bool) (l : list string) :
  (List.length (filter f (filter g l)) <= List.length (filter f l))%nat.
Proof.
  induction l as [| x l IH]; simpl; [lia |].
  destruct (g x); simpl; destruct (f x); simpl; lia.
Qed.

(** With at most two paths to a date, every path ends up in the group
    of its date. *)
Lemma group_by_date_pairs (steps : nat) (l : list string)
    (moving_groups : dict (list string)) (stale_files : list string) :
  (List.length l <= steps)%nat ->
  NoDup l ->
  own_date_only l = true ->
  at_most_two_per_date l = true ->
  (forall p d, In p l -> DateSeed.search p = Some d ->
               dict_get moving_groups d = None) ->
  exists groups stale,
    group_by_date steps l moving_groups stale_files = Ok (groups, stale)
    /\ (forall d group,
          dict_get moving_groups d = Some group ->
          dict_get groups d = Some group)
    /\ forall p d,
         In p l -> DateSeed.search p = Some d ->
         exists group, dict_get groups d = Some group /\ In p group.
Proof.
  revert l moving_groups stale_files.
  induction steps as [| steps IH];
    intros l moving_groups stale_files Hlen Hnd Hown Hpair Hfresh.
  - destruct l; [| simpl in Hlen; lia].
    simpl. eexists. eexists. split; [reflexivity |]. split; [auto |].
    intros p d [].
  - destruct l as [| p0 l0].
    { simpl. eexists. eexists. split; [reflexivity |]. split; [auto |].
      intros p d []. }
    destruct (exists_last (l := p0 :: l0) ltac:(discriminate))
      as (rest & x & E).
    rewrite E in *. clear E p0 l0.
    cbn [ZipIndexes.group_by_date]. rewrite pop_snoc.
    assert (Hx : In x (rest ++ [x])) by (apply in_or_app; right; now left).
    assert (Hin : forall q, In q rest -> In q (rest ++ [x]))
      by (intros q Hq; apply in_or_app; now left).
    destruct (DateSeed.search x) as [d |] eqn:Ed.
    2:{ exfalso. unfold own_date_only in Hown. rewrite forallb_forall in Hown.
        specialize (Hown x Hx). now rewrite Ed in Hown. }
    apply NoDup_remove in Hnd. rewrite app_nil_r in Hnd.
    destruct Hnd as [Hnd Hxrest].
    assert (Hsame : forall q, In q rest -> contains d q = same_date x q).
    { intros q Hq. now apply (same_date_contains (rest ++ [x])); auto. }
    assert (Hone : (List.length (filter (contains d) rest) <= 1)%nat).
    { rewrite (filter_ext_in _ _ _ Hsame).
      unfold at_most_two_per_date in Hpair. rewrite forallb_forall in Hpair.
      specialize (Hpair x Hx). apply Nat.leb_le in Hpair.
      rewrite filter_app, length_app in Hpair. cbn [filter] in Hpair.
      assert (Hxx : same_date x x = true).
      { unfold same_date. rewrite Ed. apply String.eqb_refl. }
      rewrite Hxx in Hpair. simpl in Hpair. lia. }
    rewrite (scan_one (List.length rest) d rest 0 [x] Hnd Hone) by lia.
    cbn [firstn skipn app].
    set (rest' := filter (fun p => negb (contains d p)) rest).
    set (taken := filter (contains d) rest).
    assert (Hrest' : incl rest' (rest ++ [x])).
    { intros q Hq. apply Hin. apply filter_In in Hq. tauto. }
    match goal with
    | |- context [ZipIndexes.group_by_date steps rest' _ ?groups1 ?stale1] =>
        destruct (IH rest' groups1 stale1)
          as (groups & stale & Hrun & Hold & Hnew)
    end.
    + pose proof (filter_length_le (fun p => negb (contains d p)) rest).
      rewrite length_app in Hlen. simpl in Hlen. fold rest' in H. lia.
    + now apply NoDup_filter.
    + now apply (own_date_only_incl (rest ++ [x])).
    + unfold at_most_two_per_date in *. rewrite forallb_forall in *.
      intros p Hp. specialize (Hpair p (Hrest' p Hp)).
      apply Nat.leb_le in Hpair. apply Nat.leb_le.
      rewrite filter_app, length_app in Hpair.
      pose proof (filter_filter_length (same_date p)
                    (fun p => negb (contains d p)) rest).
      fold rest' in H. lia.
    + intros p d' Hp Hd'.
      assert (Hne : d <> d').
      { intros <-. apply filter_In in Hp. destruct Hp as [_ Hp].
        rewrite (search_contains p d Hd') in Hp. discriminate. }
      rewrite dict_get_set_other by exact Hne.
      apply (Hfresh p d' (Hrest' p Hp) Hd').
    + exists groups, stale. split; [exact Hrun |]. split.
      * intros d0 group Hd0. apply Hold.
        destruct (String.eqb_spec d d0) as [<- | Hne].
        -- rewrite (Hfresh x d Hx Ed) in Hd0. discriminate.
        -- now rewrite dict_get_set_other.
      * intros p d' Hp Hd'. apply in_app_or in Hp.
        destruct Hp as [Hp | [<- | []]].
        -- destruct (contains d p) eqn:Ec.
           ++ assert (d' = d) as ->.
              { rewrite (Hsame p Hp) in Ec. unfold same_date in Ec.
                rewrite Ed, Hd' in Ec. apply String.eqb_eq in Ec. congruence. }
              eexists. split; [apply Hold, dict_get_set_same |].
              right. apply in_or_app. left. apply filter_In. auto.
           ++ apply Hnew; [| exact Hd']. apply filter_In. rewrite Ec. auto.
        -- assert (d' = d) as -> by congruence.
           eexists. split; [apply Hold, dict_get_set_same |].
           now left.
Qed.

(** X23: when the moving paths are all different, each holds a date and
    contains the date of no path of another date, and no date is shared
    by more than two of them, the grouping loop of [zip_indexes] loses
    no path: it ends, and every moving path is in the group of its
    date. *)
Theorem pairs_are_grouped (moving_indexes : list string) :
  NoDup moving_indexes ->
  own_date_only moving_indexes = true ->
  at_most_two_per_date moving_indexes = true ->
  exists moving_groups stale_files,
    group_by_date (List.length moving_indexes) moving_indexes [] []
    = Ok (moving_groups, stale_files)
    /\ forall p check_date,
         In p moving_indexes -> DateSeed.search p = Some check_date ->
         exists group,
           dict_get moving_groups check_date = Some group /\ In p group.
Proof.
  intros Hnd Hown Hpair.
  destruct (group_by_date_pairs (List.length moving_indexes) moving_indexes
              [] [] (Nat.le_refl _) Hnd Hown Hpair)
    as (groups & stale & Hrun & _ & Hall).
  { reflexivity. }
  eauto.
Qed.

End Grouping.

Section Zipping.

Variable Code : Type.

#[local] Abbreviation filesystem := (Faiss.filesystem Code).

Lemma paths_clear_ok (fs : filesystem) (to_dir partial_filename : string)
    (moving_groups : dict (list string)) :
  ZipIndexes.paths_clear fs to_dir partial_filename moving_groups = Ok tt ->
  Forall (fun entry =>
            Faiss.isfile fs
              (ZipIndexes.new_idx_path to_dir partial_filename (fst entry))
            = false
            /\ Faiss.isfile fs
                 (ZipIndexes.new_data_path to_dir partial_filename (fst entry))
               = false) moving_groups.
Proof.
  induction moving_groups as [| [pub_date group] rest IH];
    cbn [ZipIndexes.paths_clear fst]; intros H; [constructor |].
  destruct (Faiss.isfile fs
              (ZipIndexes.new_idx_path to_dir partial_filename pub_date)) eqn:E1;
    [discriminate |].
  destruct (Faiss.isfile fs
              (ZipIndexes.new_data_path to_dir partial_filename pub_date)) eqn:E2;
    [discriminate |].
  constructor; [auto | now apply IH].
Qed.

Lemma paths_clear_raise (fs : filesystem) (to_dir partial_filename : string)
    (moving_groups : dict (list string)) (e : exn) :
  ZipIndexes.paths_clear fs to_dir partial_filename moving_groups = Raise e ->
  e = AssertionError.
Proof.
  induction moving_groups as [| [pub_date group] rest IH];
    cbn [ZipIndexes.paths_clear]; [discriminate |].
  destruct (Faiss.isfile fs _); [congruence |].
  destruct (Faiss.isfile fs _); [congruence | exact IH].
Qed.

Lemma merge_IVFs_raise (self : OnDiskIVFBuilder.builder) (fs : filesystem)
    (index_path ivfdata_path : string) (ivfindex_paths : list string)
    (e : exn) :
  fst (OnDiskIVFBuilder.merge_IVFs self fs index_path ivfdata_path
         ivfindex_paths) = Raise e ->
  e = RuntimeError \/ exists msg, e = Exception msg.
Proof.
  unfold OnDiskIVFBuilder.merge_IVFs.
  pose proof (BuilderMoreFacts.collect_ivfs_cases Code fs
                (OnDiskIVFBuilder.merge_inputs self ivfindex_paths)) as Hc.
  destruct (OnDiskIVFBuilder.collect_ivfs fs _) as [ivfs | e'].
  - unfold OnDiskIVFBuilder.load_base_idx, Faiss.read_index.
    destruct (dict_get fs _) as [[ix | payload] |]; cbn;
      try (intros [= <-]; now left).
    destruct (Faiss.is_trained ix && (Faiss.ntotal ix =? 0)); cbn;
      [| intros [= <-]; right; eauto].
    unfold Faiss.merge_from. destruct (forallb _ ivfs); cbn;
      [discriminate | intros [= <-]; now left].
  - destruct Hc as [-> _]. cbn. intros [= <-]. now left.
Qed.

Lemma merge_groups_frame (self : OnDiskIVFBuilder.builder) (fs : filesystem)
    (to_dir partial_filename : string) (moving_groups : dict (list string)) :
  Forall (fun entry =>
            Faiss.isfile fs
              (ZipIndexes.new_idx_path to_dir partial_filename (fst entry))
            = false
            /\ Faiss.isfile fs
                 (ZipIndexes.new_data_path to_dir partial_filename (fst entry))
               = false) moving_groups ->
  forall fs1 n_vect,
    (forall path,
       Faiss.isfile fs path = true -> dict_get fs1 path = dict_get fs path) ->
    let r :=
      ZipIndexes.merge_groups self fs1 to_dir partial_filename moving_groups
        n_vect in
    (forall path,
       Faiss.isfile fs path = true -> dict_get (snd r) path = dict_get fs path)
    /\ forall e,
         fst r = Raise e -> e = RuntimeError \/ exists msg, e = Exception msg.
Proof.
  induction 1 as [| [pub_date group] rest [Hi Hd] _ IH]; intros fs1 n_vect Hsame.
  - simpl. split; [exact Hsame | discriminate].
  - cbn [ZipIndexes.merge_groups]. cbn [fst] in Hi, Hd.
    pose proof (merge_IVFs_raise self fs1
                  (ZipIndexes.new_idx_path to_dir partial_filename pub_date)
                  (ZipIndexes.new_data_path to_dir partial_filename pub_date)
                  group) as Hraise.
    pose proof (fun path =>
                  BuilderMoreFacts.merge_IVFs_frame Code self fs1
                    (ZipIndexes.new_idx_path to_dir partial_filename pub_date)
                    (ZipIndexes.new_data_path to_dir partial_filename pub_date)
                    group path) as Hframe.
    destruct (OnDiskIVFBuilder.merge_IVFs self fs1 _ _ group) as [[n | e] fs2];
      cbn [fst snd] in *.
    + apply IH. intros path Hpath. rewrite Hframe; [now apply Hsame | |];
        intros ->; congruence.
    + split.
      * intros path Hpath.
        rewrite Hframe; [now apply Hsame | |]; intros ->; congruence.
      * intros e' [= <-]. now apply Hraise.
Qed.

(** X18: up to the end of its merge loop, [zip_indexes] changes no file
    that exists: every file there was is still there, as it was,
    however the call ends.  It raises [AttributeError] exactly when a
    moving path holds no date, and then, as when a path is not clear or
    there is nothing to process, no file has been written. *)
Theorem zip_indexes_keeps_files (self : OnDiskIVFBuilder.builder)
    (fs : filesystem) (moving_indexes current_indexes : list string)
    (to_dir partial_filename : string) :
  let r :=
    ZipIndexes.zip_indexes self fs moving_indexes current_indexes to_dir
      partial_filename in
  (forall path,
     Faiss.isfile fs path = true -> dict_get (snd r) path = dict_get fs path)
  /\ (fst r = Raise AttributeError <->
      Exists (fun p => DateSeed.search p = None) moving_indexes)
  /\ (fst r = Raise AttributeError \/ fst r = Raise AssertionError
      \/ fst r = Ok (ZipIndexes.NothingToProcess) ->
      snd r = fs).
Proof.
  intros r. unfold r, ZipIndexes.zip_indexes.
  destruct moving_indexes as [| p0 l0].
  { cbn. repeat split; auto; try discriminate. intros H. inversion H. }
  pose proof (group_by_date_cases current_indexes (p0 :: l0)) as Hres.
  destruct (ZipIndexes.group_by_date (List.length (p0 :: l0)) (p0 :: l0)
              current_indexes [] []) as [[groups stale] | e].
  - destruct Hres as (Hdated & _ & _ & _).
    assert (Hno : ~ Exists (fun p => DateSeed.search p = None) (p0 :: l0)).
    { intros Hex. apply Exists_exists in Hex. destruct Hex as [p [Hp Hn]].
      rewrite Forall_forall in Hdated. now apply (Hdated p Hp). }
    destruct (ZipIndexes.paths_clear fs to_dir partial_filename groups)
      as [[] | e] eqn:Ec.
    + pose proof (merge_groups_frame self fs to_dir partial_filename groups
                    (paths_clear_ok _ _ _ _ Ec) fs 0 (fun _ _ => eq_refl))
        as [Hframe Hraise].
      destruct (ZipIndexes.merge_groups self fs to_dir partial_filename groups 0)
        as [[n | e] fs1]; cbn [fst snd] in *.
      * split; [exact Hframe |]. split.
        -- split; [discriminate | intros H; now elim Hno].
        -- intros [H | [H | H]]; discriminate.
      * split; [exact Hframe |].
        assert (He : e = RuntimeError \/ exists msg, e = Exception msg)
          by now apply Hraise.
        split.
        -- split; [| intros H; now elim Hno].
           intros [= ->]. destruct He as [He | [msg He]]; discriminate.
        -- intros [H | [H | H]]; try discriminate;
             injection H as ->; destruct He as [He | [msg He]]; discriminate.
    + apply paths_clear_raise in Ec. subst e. cbn. split; [auto |]. split.
      * split; [discriminate | intros H; now elim Hno].
      * auto.
  - destruct Hres as [-> Hex]. cbn. repeat split; auto.
Qed.

End Zipping.

End ZipFacts.

(** ** Batches of sentences *)

Module VectorizerFacts.
Import Py MorePredicates.

Lemma split_batches_spec (n_minibatch : Z) (steps : nat)
    (sentences : list string) (batched_tensors : list (list string)) :
  0 < n_minibatch ->
  (List.length sentences <= steps)%nat ->
  exists full rest,
    SentenceVectorizer.split_batches steps sentences n_minibatch batched_tensors
    = Some (batched_tensors ++ full, rest)
    /\ List.concat full ++ rest = sentences
    /\ Forall (fun b => Z.of_nat (List.length b) = n_minibatch) full
    /\ Z.of_nat (List.length rest) < n_minibatch.
Proof.
  intros Hn. revert sentences batched_tensors.
  induction steps as [| steps IH]; intros sentences batched_tensors Hlen.
  - destruct sentences; [| simpl in Hlen; lia].
    simpl. destruct (n_minibatch <=? 0) eqn:E; [apply Z.leb_le in E; lia |].
    exists [], []. rewrite app_nil_r. repeat split; auto.
  - cbn [SentenceVectorizer.split_batches].
    destruct (n_minibatch <=? Z.of_nat (List.length sentences)) eqn:E.
    + apply Z.leb_le in E.
      assert (Hto : slice_to sentences n_minibatch
                    = firstn (Z.to_nat n_minibatch) sentences).
      { unfold slice_to. destruct (0 <=? n_minibatch) eqn:E0; [reflexivity |].
        apply Z.leb_gt in E0. lia. }
      assert (Hfrom : SentenceVectorizer.slice_from sentences n_minibatch
                      = skipn (Z.to_nat n_minibatch) sentences).
      { unfold SentenceVectorizer.slice_from.
        destruct (0 <=? n_minibatch) eqn:E0; [reflexivity |].
        apply Z.leb_gt in E0. lia. }
      rewrite Hto, Hfrom.
      destruct (IH (skipn (Z.to_nat n_minibatch) sentences)
                  (batched_tensors ++ [firstn (Z.to_nat n_minibatch) sentences]))
        as (full & rest & Hrun & Hcat & Hfull & Hrest).
      { rewrite length_skipn. lia. }
      exists (firstn (Z.to_nat n_minibatch) sentences :: full), rest.
      rewrite Hrun, <- app_assoc. split; [reflexivity |]. split.
      * cbn [List.concat]. rewrite <- app_assoc, Hcat. apply firstn_skipn.
      * split; [| exact Hrest]. constructor; [| exact Hfull].
        rewrite length_firstn. lia.
    + apply Z.leb_gt in E. exists [], sentences. rewrite app_nil_r.
      repeat split; auto.
Qed.

Section Vectorizer.

Variable Embeddings : Type.
Variable run_model : list string -> Embeddings.

#[local] Abbreviation make_vectors :=
  (SentenceVectorizer.make_vectors run_model).

Lemma tail_end_batch (sentences : list string) :
  SentenceVectorizer.tail_end run_model sentences
  = map run_model (tail_batch sentences).
Proof. now destruct sentences. Qed.

(** X19: for a positive [n_minibatch], [make_vectors] ends and embeds
    every sentence once: the batches it runs the model on, put end to
    end in the order of the result, are the sentences given.  No batch
    is empty or longer than [n_minibatch], and all but the last hold
    exactly [n_minibatch] sentences.  As many rounds as there are
    sentences are enough for the batching loop. *)
Theorem make_vectors_batches (sentences : list string) (n_minibatch : Z)
    (steps : nat) :
  0 < n_minibatch ->
  (List.length sentences <= steps)%nat ->
  exists batches,
    make_vectors steps sentences n_minibatch = Some (map run_model batches)
    /\ List.concat batches = sentences
    /\ Forall (fun b => b <> [] /\ Z.of_nat (List.length b) <= n_minibatch)
         batches
    /\ Forall (fun b => Z.of_nat (List.length b) = n_minibatch)
         (removelast batches).
Proof.
  intros Hn Hsteps. unfold SentenceVectorizer.make_vectors.
  destruct (n_minibatch <? Z.of_nat (List.length sentences)) eqn:E.
  - destruct (split_batches_spec n_minibatch steps sentences [] Hn Hsteps)
      as (full & rest & Hrun & Hcat & Hfull & Hrest).
    rewrite Hrun. cbn [app]. rewrite tail_end_batch, <- map_app.
    exists (full ++ tail_batch rest). split; [reflexivity |]. split.
    + rewrite concat_app, <- Hcat. f_equal.
      destruct rest; simpl; [reflexivity | now rewrite app_nil_r].
    + split.
      * apply Forall_app. split.
        -- eapply Forall_impl; [| exact Hfull]. intros b Hb.
           cbv beta in Hb. split; [| lia].
           intros ->. simpl in Hb. lia.
        -- destruct rest as [| s rest]; constructor; [| constructor].
           split; [discriminate | lia].
      * destruct rest as [| s rest]; cbn [tail_batch].
        -- rewrite app_nil_r. clear -Hfull.
           induction Hfull as [| b full Hb Hfull IH]; [constructor |].
           destruct full; [constructor |].
           cbn [removelast]. constructor; [exact Hb | exact IH].
        -- now rewrite removelast_last.
  - apply Z.ltb_ge in E. rewrite tail_end_batch.
    exists (tail_batch sentences). split; [reflexivity |].
    destruct sentences as [| s rest]; cbn [tail_batch].
    + repeat split; constructor.
    + split; [simpl; now rewrite app_nil_r |]. split.
      * constructor; [| constructor]. split; [discriminate | lia].
      * constructor.
Qed.

(** X20: with [n_minibatch <= 0] and more than [n_minibatch] sentences
    (any list at all when it is negative), the batching loop of
    [make_vectors] never ends: no number of rounds brings it to an
    end. *)
Theorem make_vectors_never_ends (sentences : list string) (n_minibatch : Z) :
  n_minibatch <= 0 ->
  n_minibatch < Z.of_nat (List.length sentences) ->
  forall steps, make_vectors steps sentences n_minibatch = None.
Proof.
  intros Hn Hlen steps. unfold SentenceVectorizer.make_vectors.
  apply Z.ltb_lt in Hlen. rewrite Hlen.
  assert (H : forall l acc,
             SentenceVectorizer.split_batches steps l n_minibatch acc = None).
  { induction steps as [| steps IH]; intros l acc;
      cbn [SentenceVectorizer.split_batches];
      (destruct (n_minibatch <=? Z.of_nat (List.length l)) eqn:E;
       [| apply Z.leb_gt in E; lia]).
    - reflexivity.
    - apply IH. }
  now rewrite H.
Qed.

End Vectorizer.

End VectorizerFacts.

(** ** Moving an index *)

Module MoveFacts.
Import Py Predicates MorePredicates PyFacts PyMoreFacts.

Section Moving.

Variable Code : Type.
Variable os_mkdir : list string -> string -> result (list string).

#[local] Abbreviation filesystem := (Faiss.filesystem Code).
#[local] Abbreviation mv_index_and_ivfdata :=
  (MoveIndex.mv_index_and_ivfdata os_mkdir).

Lemma dict_get_removed (fs : filesystem) (path q : string) :
  dict_get (filter (fun entry => negb (String.eqb (fst entry) path)) fs) q
  = if String.eqb path q then None else dict_get fs q.
Proof.
  induction fs as [| [k v] rest IH]; simpl.
  - now destruct (String.eqb path q).
  - destruct (String.eqb_spec k path) as [-> | Hk]; simpl.
    + rewrite IH. destruct (String.eqb_spec path q); reflexivity.
    + rewrite IH. destruct (String.eqb_spec k q) as [-> | Hq];
        [| reflexivity].
      destruct (String.eqb_spec path q); [congruence | reflexivity].
Qed.

Lemma os_remove_file (fs : filesystem) (path : string) :
  Faiss.isfile fs path = true ->
  exists fs',
    MoveIndex.os_remove fs path = Ok fs'
    /\ forall q, dict_get fs' q = if String.eqb path q then None else dict_get fs q.
Proof.
  intros H. unfold MoveIndex.os_remove. rewrite H. eexists.
  split; [reflexivity |]. intros q. apply dict_get_removed.
Qed.

Lemma isfile_get (fs fs' : filesystem) (path : string) :
  dict_get fs' path = dict_get fs path ->
  Faiss.isfile fs' path = Faiss.isfile fs path.
Proof. unfold Faiss.isfile, dict_mem. now intros ->. Qed.


End Moving.

End MoveFacts.

(** ** The further properties on the scenarios *)

Module MoreScenarioChecks.
Import Py Predicates MorePredicates Scenario MoreScenario.

(** The path helpers on small inputs. *)
Example path_examples :
  ZipIndexes.join "/to" "2020-01-01_news.index" = "/to/2020-01-01_news.index"
  /\ ZipIndexes.join "/to/" "a.index" = "/to/a.index"
  /\ ZipIndexes.join "/to" "/abs/a.index" = "/abs/a.index"
  /\ ZipIndexes.replace ".index" ".ivfdata" "/to/2020-01-01_news.index"
     = "/to/2020-01-01_news.ivfdata"
  /\ ZipIndexes.replace ".index" ".ivfdata" "/x.index/a.index"
     = "/x.ivfdata/a.ivfdata"
  /\ MoveIndex.last_segment "/mv/2020-01-01_a.index" = "2020-01-01_a.index"
  /\ MoveIndex.last_segment "a.index" = "a.index"
  /\ MoveIndex.last_segment "/mv/" = "".
Proof. repeat split. Qed.

(** The scan over a list that loses paths while it is read: of four
    paths of one date it takes the first and the third. *)
Example scan_examples :
  ZipIndexes.scan 4 "2020-01-01"
    ["/mv/2020-01-01_a.index"; "/mv/2020-01-01_b.index";
     "/mv/2020-01-01_c.index"; "/mv/2020-01-01_d.index"] 0 []
  = (["/mv/2020-01-01_b.index"; "/mv/2020-01-01_d.index"],
     ["/mv/2020-01-01_a.index"; "/mv/2020-01-01_c.index"])
  /\ ZipIndexes.pop ["a"; "b"; "c"] = Some ("c", ["a"; "b"])
  /\ ZipIndexes.group_by_date 2
       ["/mv/2020-01-01_a.index"; "/mv/2020-01-02_b.index"]
       ["/to/2020-01-02_news.index"] [] []
     = Ok ([("2020-01-02",
             ["/mv/2020-01-02_b.index"; "/to/2020-01-02_news.index"]);
            ("2020-01-01", ["/mv/2020-01-01_a.index"])],
           ["/to/2020-01-02_news.index"]).
Proof. repeat split. Qed.

(** X1 on the scenario: the hits of document 1. *)
Lemma aggregate_docs_hits_sorted_witness :
  QueryProcessor.aggregate_docs str_float (fst found) (snd found) true
  = Ok [("1", [("0.01", "10001"); ("0.5", "10002")]);
        ("2", [("0.3", "20001")])]
  /\ StronglySorted (fun a b => String.leb (fst a) (fst b) = true)
       [("0.01", "10001"); ("0.5", "10002")].
Proof.
  split; [reflexivity |].
  exact (proj1 (AggregateFacts.aggregate_docs_hits_sorted
                  str_float (fst found) (snd found) true _ eq_refl
                  "1" [("0.01", "10001"); ("0.5", "10002")]
                  (or_introl eq_refl))).
Defined.

(** X4 on the scenario. *)
Lemma formatters_agree_witness :
  exists docs singles,
    QueryProcessor.format_payload_docs
      [("1", [("0.01", "10001"); ("0.5", "10002")]); ("2", [("0.3", "20001")])]
    = Ok docs
    /\ QueryProcessor.format_payload_singles
         [("1", [("0.01", "10001"); ("0.5", "10002")]);
          ("2", [("0.3", "20001")])]
       = Ok singles
    /\ Forall2 best_hit_of docs singles.
Proof.
  destruct (AggregateFacts.formatters_agree
              str_float (fst found) (snd found) true
              [("1", [("0.01", "10001"); ("0.5", "10002")]);
               ("2", [("0.3", "20001")])] eq_refl)
    as (docs & singles & Hd & Hs & Hb & _).
  exists docs, singles. auto.
Defined.

(** X6 on the scenario: [k = 2]. *)
Lemma api_query_corpus_payload_witness :
  make_vectors ["q"] = Ok tt
  /\ exists records,
       ApiQueryCorpus.query_corpus str_float make_vectors api_indexer_search
         tt "q" 2
       = (Ok (slice_to records 2), tt)
       /\ Permutation records
            (api_records str_float [0; 3 # 10; 1 # 2]%Q [10001; 20001; 10002]).
Proof.
  split; [reflexivity |].
  destruct (ProcessorFacts.api_query_corpus_payload
              str_float unit make_vectors unit api_indexer_search tt tt "q" 2
              tt [0; 3 # 10; 1 # 2]%Q [] [10001; 20001; 10002] []
              eq_refl eq_refl) as (records & Hrun & Hperm & _).
  exists records. auto.
Defined.

Lemma dated_handler_dated :
  Forall dated (RangeShards.shards dated_handler).
Proof. repeat constructor; vm_compute; discriminate. Defined.

(** X7 on the scenario: a search over both shards. *)
Lemma search_leaves_handler_free_witness :
  RangeShards.lock dated_handler = false
  /\ RangeShards.after
       (RangeShards.search range_search reshape joint_sort dated_handler tt 5
          (13 # 20) "0000-00-00" "9999-99-99")
     = dated_handler.
Proof.
  split; [reflexivity |].
  exact (proj1 (proj2 (ShardMoreFacts.search_leaves_handler_free
                         Index unit range_search reshape joint_sort
                         dated_handler tt 5 (13 # 20) "0000-00-00"
                         "9999-99-99" eq_refl dated_handler_dated))
           eq_refl).
Defined.

Lemma undated_handler_undated :
  Exists (fun e => DateSeed.search (fst e) = None)
    (RangeShards.shards undated_handler).
Proof. right. left. reflexivity. Defined.

(** X8 on the scenario: the search reaches the dated shard, raises on
    the other, and leaves the lock set. *)
Lemma search_raise_keeps_lock_witness :
  RangeShards.lock undated_handler = false
  /\ RangeShards.lock
       (RangeShards.after
          (RangeShards.search range_search reshape joint_sort undated_handler
             tt 5 (13 # 20) "0000-00-00" "9999-99-99"))
     = true
  /\ RangeShards.ended
       (RangeShards.search range_search reshape joint_sort
          (RangeShards.after
             (RangeShards.search range_search reshape joint_sort
                undated_handler tt 5 (13 # 20) "0000-00-00" "9999-99-99"))
          tt 5 (13 # 20) "0000-00-00" "9999-99-99")
     = RangeShards.Waits.
Proof.
  split; [reflexivity |].
  destruct (ShardMoreFacts.search_raise_keeps_lock
              Index unit range_search reshape joint_sort undated_handler tt 5
              (13 # 20) "0000-00-00" "9999-99-99" eq_refl
              undated_handler_undated) as (_ & Hlock & _ & Hwait).
  split; [exact Hlock |].
  now rewrite (Hwait tt 5 (13 # 20) "0000-00-00" "9999-99-99").
Defined.

Lemma dated_handler_years (shard_name : string)
    (shard : RangeShards.Shard Index) :
  In (shard_name, shard) (RangeShards.shards dated_handler) ->
  exists shard_date,
    DateSeed.search shard_name = Some shard_date /\ before_9999 shard_date.
Proof.
  intros [H | [H | []]]; injection H as <- _; eexists;
    (split; [reflexivity | unfold before_9999; simpl; discriminate]).
Defined.

(** X9 on the scenario. *)
Lemma default_window_reaches_every_shard_witness :
  RangeShards.lock dated_handler = false
  /\ RangeShards.dispatched
       (RangeShards.search range_search reshape joint_sort dated_handler tt 5
          (13 # 20) "0000-00-00" "9999-99-99")
     = ["/shards/2020-01-01_a"; "/shards/2020-01-02_b"].
Proof.
  split; [reflexivity |].
  exact (ShardMoreFacts.default_window_reaches_every_shard
           Index unit range_search reshape joint_sort dated_handler tt 5
           (13 # 20) eq_refl dated_handler_years).
Defined.

(** X10 on the scenario: a third shard is added, and a search for its
    day reaches it alone. *)
Lemma add_shard_then_search_witness :
  online dated_handler "/shards/2020-01-03_c.index" = false
  /\ opened MoreScenario.read_index read_index_ondisk
       "/shards/2020-01-03_c.index" = Some [((3 # 10)%Q, 40001)]
  /\ exists self',
       RangeShards.add_shard MoreScenario.read_index read_index_ondisk
         dated_handler "/shards/2020-01-03_c.index" = (Ok tt, self', [])
       /\ RangeShards.n_shards self' = 2%nat
       /\ RangeShards.dispatched
            (RangeShards.search range_search reshape joint_sort self' tt 5
               (13 # 20) "2020-01-03" "2020-01-03")
          = ["/shards/2020-01-03_c"].
Proof.
  split; [reflexivity |]. split; [reflexivity |].
  destruct (ShardMoreFacts.add_shard_then_search
              Index unit MoreScenario.read_index read_index_ondisk range_search
              reshape joint_sort dated_handler "/shards/2020-01-03_c.index"
              [((3 # 10)%Q, 40001)] eq_refl eq_refl eq_refl dated_handler_dated)
    as (self' & Hadd & _ & _ & _ & Hn & Hsearch).
  exists self'. split; [exact Hadd |]. split; [exact Hn |].
  exact (Hsearch tt 5 (13 # 20) "2020-01-03" "2020-01-03").
Defined.

(** X11 on the scenario: a path that cannot be opened. *)
Lemma failed_add_shard_blocks_retry_witness :
  online dated_handler "/shards/2020-01-04_d.index" = false
  /\ opened read_index read_index_ondisk "/shards/2020-01-04_d.index" = None
  /\ exists self',
       RangeShards.add_shard read_index read_index_ondisk dated_handler
         "/shards/2020-01-04_d.index" = (Raise RuntimeError, self', [])
       /\ RangeShards.shards self' = RangeShards.shards dated_handler.
Proof.
  split; [reflexivity |]. split; [reflexivity |].
  destruct (ShardMoreFacts.failed_add_shard_blocks_retry
              Index unit read_index read_index_ondisk range_search reshape
              joint_sort dated_handler deployed "/shards/2020-01-04_d.index"
              eq_refl eq_refl eq_refl)
    as [(self' & Hadd & Hshards & _) _].
  exists self'. auto.
Defined.

(** X22 on the scenario: a search for January 2020 does not reach the
    shard of 2020-01-02, which lies below a directory of June 2021. *)
Lemma first_date_of_path_decides_witness :
  DateSeed.search "/built_2021-06-30/" = Some "2021-06-30"
  /\ ~ In "/built_2021-06-30/2020-01-02_b"
         (RangeShards.dispatched
            (RangeShards.search range_search reshape joint_sort nested_handler
               tt 5 (13 # 20) "2020-01-01" "2020-01-31")).
Proof.
  split; [reflexivity |]. intros Hin.
  apply (ShardMoreFacts.first_date_of_path_decides
           Index unit range_search reshape joint_sort nested_handler tt 5
           (13 # 20) "2020-01-01" "2020-01-31" "/built_2021-06-30/"
           "2020-01-02_b" _ "2021-06-30" eq_refl
           ltac:(repeat constructor; vm_compute; discriminate)
           (or_introl eq_refl) eq_refl) in Hin.
  discriminate Hin.
Defined.

(** X24 on the scenario: a file that is there but cannot be opened. *)
Lemma processor_add_shard_unreadable_witness :
  endswith "/shards/2020-01-04_d.index" ".index" = true
  /\ opened read_index read_index_ondisk "/shards/2020-01-04_d.index" = None
  /\ fst (fst (ProcessorShards.add_shard (fun _ => true)
                 (RangeShards.add_shard read_index read_index_ondisk)
                 {| QueryProcessor.indexer := dated_handler;
                    QueryProcessor.n_queries := 0 |}
                 "/shards/2020-01-04_d.index"))
     = Raise RuntimeError.
Proof.
  split; [reflexivity |]. split; [reflexivity |].
  destruct (ShardMoreFacts.processor_add_shard_unreadable
              Index unit (fun _ => true) read_index read_index_ondisk
              range_search reshape joint_sort
              {| QueryProcessor.indexer := dated_handler;
                 QueryProcessor.n_queries := 0 |}
              "/shards/2020-01-04_d.index" eq_refl eq_refl eq_refl eq_refl)
    as (self' & Hrun & _).
  now rewrite Hrun.
Defined.

Lemma catalogued_builder_agrees : catalogue_agrees catalogued_builder files.
Proof.
  intros p n. unfold catalogued_builder.
  cbn [OnDiskIVFBuilder.subindex_path_totals dict_get].
  destruct (String.eqb_spec "/idx/sub1.index" p) as [<- | _]; [| discriminate].
  intros [= <-]. eexists. split; reflexivity.
Defined.

(** X14 on the scenario: a second sub-index is generated; in a
    directory that is not there its entry is set and the write raises. *)
Lemma catalogue_stays_true_witness :
  catalogue_agrees catalogued_builder files
  /\ catalogue_agrees
       (OnDiskIVFBuilder.self_after
          (OnDiskIVFBuilder.generate_subindex assign encode writable
             catalogued_builder files "/idx/new.index" [0; 1; 1]%nat
             [50001; 50002; 50003]))
       (OnDiskIVFBuilder.files_after
          (OnDiskIVFBuilder.generate_subindex assign encode writable
             catalogued_builder files "/idx/new.index" [0; 1; 1]%nat
             [50001; 50002; 50003]))
  /\ writable "/missing/new.index" = false
  /\ OnDiskIVFBuilder.outcome
       (OnDiskIVFBuilder.generate_subindex assign encode writable
          catalogued_builder files "/missing/new.index" [0; 1; 1]%nat
          [50001; 50002; 50003])
     = Raise RuntimeError
  /\ ~ catalogue_agrees
         (OnDiskIVFBuilder.self_after
            (OnDiskIVFBuilder.generate_subindex assign encode writable
               catalogued_builder files "/missing/new.index" [0; 1; 1]%nat
               [50001; 50002; 50003]))
         (OnDiskIVFBuilder.files_after
            (OnDiskIVFBuilder.generate_subindex assign encode writable
               catalogued_builder files "/missing/new.index" [0; 1; 1]%nat
               [50001; 50002; 50003])).
Proof.
  pose proof (proj1 (BuilderMoreFacts.catalogue_stays_true
                       Code nat assign encode writable catalogued_builder
                       files catalogued_builder_agrees)) as H.
  split; [exact catalogued_builder_agrees |].
  split.
  { exact (proj1 (H "/idx/new.index" [0; 1; 1]%nat [50001; 50002; 50003])
             (or_intror eq_refl)). }
  split; [reflexivity |].
  destruct (proj2 (proj2 (H "/missing/new.index" [0; 1; 1]%nat
                            [50001; 50002; 50003]))
              base_index eq_refl eq_refl eq_refl eq_refl eq_refl)
    as (Hraise & _ & _ & Hbad).
  split; assumption.
Defined.

(** X17 on the scenario: of three indexes of one day, the one taken
    first is in no group. *)
Lemma same_date_paths_dropped_witness :
  NoDup moving_indexes
  /\ exists group stale_files,
       ZipIndexes.group_by_date 3 moving_indexes [] [] []
       = Ok ([("2020-01-01", group)], stale_files)
       /\ ~ In "/mv/2020-01-01_c.index" group.
Proof.
  assert (Hnd : NoDup moving_indexes).
  { repeat constructor; simpl; intuition discriminate. }
  split; [exact Hnd |].
  exact (ZipFacts.same_date_paths_dropped [] moving_indexes "2020-01-01"
           ltac:(repeat constructor) Hnd ltac:(simpl; lia)
           ltac:(simpl; tauto)).
Defined.

(** X23 on the scenario: both indexes of the first day are in its
    group. *)
Lemma pairs_are_grouped_witness :
  own_date_only paired_indexes = true
  /\ at_most_two_per_date paired_indexes = true
  /\ exists moving_groups stale_files,
       ZipIndexes.group_by_date 3 paired_indexes [] [] []
       = Ok (moving_groups, stale_files)
       /\ exists group,
            dict_get moving_groups "2020-01-01" = Some group
            /\ In "/mv/2020-01-01_a.index" group.
Proof.
  split; [reflexivity |]. split; [reflexivity |].
  destruct (ZipFacts.pairs_are_grouped [] paired_indexes
              ltac:(repeat constructor; simpl; intuition discriminate)
              eq_refl eq_refl)
    as (groups & stale & Hrun & Hall).
  exists groups, stale. split; [exact Hrun |].
  exact (Hall "/mv/2020-01-01_a.index" "2020-01-01" (or_introl eq_refl)
           eq_refl).
Defined.

(** X19 on the scenario: five sentences in batches of two. *)
Lemma make_vectors_batches_witness :
  0 < 2
  /\ exists batches,
       SentenceVectorizer.make_vectors run_model 5 ["a"; "bb"; "c"; "dd"; "e"] 2
       = Some (map run_model batches)
       /\ List.concat batches = ["a"; "bb"; "c"; "dd"; "e"].
Proof.
  split; [lia |].
  destruct (VectorizerFacts.make_vectors_batches
              (list nat) run_model ["a"; "bb"; "c"; "dd"; "e"] 2 5
              ltac:(lia) ltac:(simpl; lia))
    as (batches & Hrun & Hcat & _).
  exists batches. auto.
Defined.

(** X20 on the scenario: batches of no sentence. *)
Lemma make_vectors_never_ends_witness :
  0 <= 0
  /\ SentenceVectorizer.make_vectors run_model 1000 ["a"] 0 = None.
Proof.
  split; [lia |].
  exact (VectorizerFacts.make_vectors_never_ends
           (list nat) run_model ["a"] 0 ltac:(lia) ltac:(simpl; lia) 1000%nat).
Defined.


End MoreScenarioChecks.
